(** * guijs server-core: plugin connector and command registry

    A shallow embedding of
    - [schema/command/index.ts]  (command registry, search, run), and
    - [connectors/plugins.js]    (plugin discovery, API reset, hook and
      action dispatch, installation, update),
    followed by the properties proved about them.

    JavaScript objects that are used as dictionaries ([Map]) are [gmap]s,
    arrays are lists, asynchronous functions are run to completion in
    program order, and every call to a collaborator outside the two files
    (logger, pubsub, file system, package manager, registries) is recorded
    in a trace of events. *)

From Stdlib Require Import ZArith List Lia Bool Ascii String.
From stdpp Require Import gmap strings list fin_maps sorting pretty.

Local Open Scope string_scope.
Local Open Scope list_scope.
Local Open Scope Z_scope.

(** ** JavaScript values and completions *)

(** The values that cross the boundary of the modelled code: action
    parameters, results of handlers and thrown values. *)
Inductive JSVal : Type :=
| VUndefined
| VNull
| VBool (b : bool)
| VNum (n : Z)
| VStr (s : string)
| VError (message : string).

(** How a call ends: it returns (an awaited promise resolves with) a
    value, it throws (the promise rejects with) a value, or it never
    settles. *)
Inductive Completion (A : Type) : Type :=
| Returns (a : A)
| Throws (e : JSVal)
| Pending.
Arguments Returns {A} a.
Arguments Throws {A} e.
Arguments Pending {A}.

(** [Array.prototype.sort(cmp)].  ECMAScript (2019 and later) requires the
    sort to be stable; for a comparator that is a consistent ordering the
    result is then determined, and it is the one computed here: every
    element is inserted in front of the first element it does not come
    after, starting from the right end. *)
Fixpoint js_sort_insert {A} (cmp : A -> A -> Z) (x : A) (l : list A) : list A :=
  match l with
  | [] => [x]
  | y :: l' => if 0 <? cmp x y then y :: js_sort_insert cmp x l' else x :: l
  end.

Fixpoint js_sort {A} (cmp : A -> A -> Z) (l : list A) : list A :=
  match l with
  | [] => []
  | x :: l' => js_sort_insert cmp x (js_sort cmp l')
  end.

(** [text.substr(1)] *)
Definition substr1 (text : string) : string :=
  match text with
  | EmptyString => EmptyString
  | String _ rest => rest
  end.

(** JavaScript truthiness of a string. *)
Definition truthy_string (s : string) : bool :=
  match s with
  | EmptyString => false
  | String _ _ => true
  end.

(** ** schema/command/index.ts *)

(** [enum CommandType] *)
Inductive CommandType : Type :=
| Help | Action | Project | Package | Config | Script.

#[global] Instance CommandType_eq_dec : EqDecision CommandType.
Proof. solve_decision. Defined.

(** The string value of an enum member, as used in descriptions. *)
Definition CommandType_name (t : CommandType) : string :=
  match t with
  | Help => "help" | Action => "action" | Project => "project"
  | Package => "package" | Config => "config" | Script => "script"
  end.

(** [MetaCommand].  [Ext] is the host state that a command handler (a
    closure) can read and write; a handler takes no argument, its return
    value is ignored, and it may throw.  An absent [hidden] is [false], an
    absent [lastUsed] is [None]; a present [lastUsed] is a valid [Date],
    given by its [getTime()]. *)
Record MetaCommand (Ext : Type) : Type := mkCommand {
  cmd_id : string;
  cmd_type : CommandType;
  cmd_label : string;
  cmd_icon : option string;
  cmd_description : option string;
  cmd_hidden : bool;
  cmd_lastUsed : option Z;
  cmd_handler : option (Ext -> Completion unit * Ext);
}.
Arguments mkCommand {Ext}.
Arguments cmd_id {Ext}.
Arguments cmd_type {Ext}.
Arguments cmd_label {Ext}.
Arguments cmd_icon {Ext}.
Arguments cmd_description {Ext}.
Arguments cmd_hidden {Ext}.
Arguments cmd_lastUsed {Ext}.
Arguments cmd_handler {Ext}.

(** *** The elasticlunr index

    [createIndex()] makes an index with the single field [label], the
    reference [id], and no stored documents.  The library itself is not
    part of the repository: an index is the sequence of the documents added
    to it, and the tokenizer, the matching with [expand: true] and the
    scoring with [boost: 2] are the two functions of [Lunr]. *)
Record LunrDoc : Type := mkDoc { doc_ref : string; doc_label : string }.

Definition LunrIndex : Type := list LunrDoc.

Record Lunr : Type := mkLunr {
  lunr_matches : string -> string -> bool;   (* query, label *)
  lunr_score : string -> string -> Z;        (* query, label *)
}.

Definition createIndex : LunrIndex := [].

Definition addDoc {Ext} (cmd : MetaCommand Ext) (idx : LunrIndex) : LunrIndex :=
  idx ++ [mkDoc (cmd_id cmd) (cmd_label cmd)].

(** [index.search(text, config)]: the references of the matching
    documents, best score first. *)
Definition lunr_search (L : Lunr) (idx : LunrIndex) (text : string) : list string :=
  map doc_ref
    (js_sort (fun a b => lunr_score L text (doc_label b) - lunr_score L text (doc_label a))
       (List.filter (fun d => lunr_matches L text (doc_label d)) idx)).

(** *** The registry: the module's four pieces of state *)
Record Registry (Ext : Type) : Type := mkRegistry {
  commands : list (MetaCommand Ext);
  commandsMap : gmap string (MetaCommand Ext);
  searchIndexes : CommandType -> LunrIndex;
  globalSearchIndex : LunrIndex;
}.
Arguments mkRegistry {Ext}.
Arguments commands {Ext}.
Arguments commandsMap {Ext}.
Arguments searchIndexes {Ext}.
Arguments globalSearchIndex {Ext}.

Definition empty_registry {Ext} : Registry Ext :=
  mkRegistry [] ∅ (fun _ => createIndex) createIndex.

Definition addCommand {Ext} (cmd : MetaCommand Ext) (r : Registry Ext) : Registry Ext :=
  mkRegistry
    (commands r ++ [cmd])
    (<[cmd_id cmd := cmd]> (commandsMap r))
    (if cmd_hidden cmd then searchIndexes r
     else fun t => if decide (t = cmd_type cmd)
                   then addDoc cmd (searchIndexes r t)
                   else searchIndexes r t)
    (if cmd_hidden cmd then globalSearchIndex r
     else addDoc cmd (globalSearchIndex r)).

(** The registry after a sequence of [addCommand] calls. *)
Definition addCommands {Ext} (cmds : list (MetaCommand Ext)) (r : Registry Ext) : Registry Ext :=
  fold_left (fun r c => addCommand c r) cmds r.

(** [typeWords], in the order of the object literal. *)
Definition typeWords : list (ascii * CommandType) :=
  [ ("?"%char, Help); (">"%char, Action); ("<"%char, Project);
    ("&"%char, Package); ("~"%char, Config); ("$"%char, Script) ].

Fixpoint typeWords_get (tw : list (ascii * CommandType)) (w : ascii) : option CommandType :=
  match tw with
  | [] => None
  | (k, t) :: tw' => if Ascii.eqb k w then Some t else typeWords_get tw' w
  end.

(** [getSeachType]: [typeWordReg] matches exactly when the first character
    is a key of [typeWords], and captures that character. *)
Definition getSeachType (text : string) : option CommandType :=
  match text with
  | EmptyString => None
  | String w _ => typeWords_get typeWords w
  end.

(** The comparator of [getRecentCommands]. *)
Definition recent_cmp {Ext} (a b : MetaCommand Ext) : Z :=
  match cmd_lastUsed a, cmd_lastUsed b with
  | Some ta, Some tb => tb - ta
  | Some _, None => -1
  | None, Some _ => 1
  | None, None => 0
  end.

(** The filter of [getRecentCommands], for the scoped and the unscoped
    case. *)
Definition recent_candidate {Ext} (type : option CommandType) (c : MetaCommand Ext) : bool :=
  match type with
  | Some t => negb (cmd_hidden c) && bool_decide (cmd_type c = t)
  | None => negb (cmd_hidden c) && negb (bool_decide (cmd_type c = Help))
  end.

(** [getRecentCommands].  Both branches sort a fresh array ([filter]
    returns a copy), so [commands] itself is not reordered. *)
Definition getRecentCommands {Ext} (type : option CommandType) (r : Registry Ext)
  : list (MetaCommand Ext) :=
  firstn 20 (js_sort recent_cmp (List.filter (recent_candidate type) (commands r))).

(** The query after the prefix has been taken off. *)
Definition query_text (text : string) : string :=
  match getSeachType text with
  | Some _ => substr1 text
  | None => text
  end.

(** [searchCommands].  An element of the result is [None] where
    [commandsMap.get] gives [undefined]. *)
Definition searchCommands {Ext} (L : Lunr) (text : string) (r : Registry Ext)
  : list (option (MetaCommand Ext)) :=
  let type := getSeachType text in
  let searchIndex :=
    match type with
    | Some t => searchIndexes r t
    | None => globalSearchIndex r
    end in
  let text := match type with Some _ => substr1 text | None => text end in
  if negb (truthy_string text) then map Some (getRecentCommands type r)
  else map (fun ref => commandsMap r !! ref) (lunr_search L searchIndex text).

(** What [runCommand] does to its surroundings. *)
Inductive CommandEvent (Ext : Type) : Type :=
| CmdWarn (message : string)
| CmdHandlerCalled (id : string)
| CmdPublish (channel : string) (commandRan : MetaCommand Ext) (clientId : string).
Arguments CmdWarn {Ext}.
Arguments CmdHandlerCalled {Ext}.
Arguments CmdPublish {Ext}.

(** The state [runCommand] runs in: the host state of the handlers and the
    trace of calls made so far (oldest first). *)
Record CmdWorld (Ext : Type) : Type := mkCmdWorld {
  cw_ext : Ext;
  cw_trace : list (CommandEvent Ext);
}.
Arguments mkCmdWorld {Ext}.
Arguments cw_ext {Ext}.
Arguments cw_trace {Ext}.

(** The request context: only [getClientId()] is used. *)
Record Context : Type := mkContext { getClientId : string }.

(** [runCommand]: [Returns None] is JavaScript's [null]. *)
Definition runCommand {Ext} (id : string) (ctx : Context) (r : Registry Ext) (w : CmdWorld Ext)
  : Completion (option (MetaCommand Ext)) * CmdWorld Ext :=
  match List.find (fun c => bool_decide (cmd_id c = id)) (commands r) with
  | None =>
      (Returns None,
       mkCmdWorld (cw_ext w) (cw_trace w ++ [CmdWarn ("Command " +:+ id +:+ " not found")]))
  | Some command =>
      let run_handler :=
        match cmd_handler command with
        | Some h =>
            let '(c, ext') := h (cw_ext w) in
            (c, mkCmdWorld ext' (cw_trace w ++ [CmdHandlerCalled (cmd_id command)]))
        | None => (Returns tt, w)
        end in
      match run_handler with
      | (Throws e, w1) => (Throws e, w1)
      | (Pending, w1) => (Pending, w1)
      | (Returns _, w1) =>
          (Returns (Some command),
           mkCmdWorld (cw_ext w1)
             (cw_trace w1 ++ [CmdPublish "commandRan" command (getClientId ctx)]))
      end
  end.

(** The commands the module adds when it is loaded: a help command for
    every type word but the first, and the two hidden internal actions. *)
Definition help_command {Ext} (word : ascii) (t : CommandType) : MetaCommand Ext :=
  mkCommand (String word EmptyString) Help (String word EmptyString) None
    (Some ("guijs.find.help." +:+ CommandType_name t)) false None None.

Definition builtin_commands {Ext} : list (MetaCommand Ext) :=
  map (fun '(w, t) => help_command w t)
    (List.filter (fun '(w, _) => negb (Ascii.eqb w "?"%char)) typeWords)
  ++ [ mkCommand "find" Action "Find" None None true None None;
       mkCommand "command" Action "Command" None None true None None ].

Definition initial_registry {Ext} : Registry Ext :=
  addCommands builtin_commands empty_registry.

(** ** connectors/plugins.js *)

Definition PROGRESS_ID : string := "plugin-installation".
Definition CLI_SERVICE : string := "@vue/cli-service".
Definition VUEDESK_BUILD_BUNDLE : string := "vuedesk-build-bundle".

(** A plugin record as [list] and [findPlugins] build it.  An absent
    [hidden] is [false]; no record is ever built with [hidden: false], so
    [fast-deep-equal] on two plugin lists is equality of the lists. *)
Record Plugin : Type := mkPlugin {
  plugin_id : string;
  versionRange : string;
  official : bool;
  installed : bool;
  website : option string;
  baseDir : string;
  plugin_hidden : bool;
}.

#[global] Instance Plugin_eq_dec : EqDecision Plugin.
Proof. solve_decision. Defined.

Definition deepEqual (a b : list Plugin) : bool := bool_decide (a = b).

(** The parts of [package.json] that the connector reads.  Dependencies
    are kept in the order of [Object.keys]. *)
Record VuePlugins : Type := mkVuePlugins {
  resolveFrom : option string;
  vuePlugins_ui : option (list string);   (* [None]: absent or not an array *)
}.

Record Vuedesk : Type := mkVuedesk {
  vuedesk_version : string;
  vuedesk_plugins : list string;
}.

Record PackageJson : Type := mkPackageJson {
  devDependencies : option (list (string * string));
  dependencies : option (list (string * string));
  vuePlugins : option VuePlugins;
  vuedesk : option Vuedesk;
}.

(** A project of the projects connector. *)
Record ProjectInfo : Type := mkProject {
  project_id : string;
  project_path : string;
}.

#[global] Instance Project_eq_dec : EqDecision ProjectInfo.
Proof. solve_decision. Defined.

(** Arguments passed to hook handlers. *)
Inductive HookArg : Type :=
| ArgProject (p : ProjectInfo)
| ArgNoProject.

(** Callbacks registered by plugin modules.  A callback is a closure over
    the host state [Ext]; the name identifies it in the trace. *)
Record ActionHandler (Ext : Type) : Type := mkActionHandler {
  ah_name : string;
  ah_run : JSVal -> Ext -> Completion JSVal * Ext;
}.
Arguments mkActionHandler {Ext}.
Arguments ah_name {Ext}.
Arguments ah_run {Ext}.

Record HookHandler (Ext : Type) : Type := mkHookHandler {
  hh_name : string;
  hh_run : list HookArg -> Ext -> Completion unit * Ext;
}.
Arguments mkHookHandler {Ext}.
Arguments hh_name {Ext}.
Arguments hh_run {Ext}.

(** Modelled from the spec: the class [PluginApi] (api/PluginApi.js) is not
    among the sources.  An instance owns the hook handlers keyed by hook
    id, the map from action id to its ordered handlers, the contributed
    views, IPC handlers, client addons and widget definitions (each known
    to this connector by an identifier only), the project it was built
    for, and the marker of the plugin being loaded. *)
Record PluginApi (Ext : Type) : Type := mkPluginApi {
  api_plugins : list Plugin;
  api_cwd : string;
  api_project : ProjectInfo;
  api_lightMode : bool;
  api_pluginId : option string;
  api_hooks : gmap string (list (HookHandler Ext));
  api_actions : gmap string (list (ActionHandler Ext));
  api_views : list string;
  api_ipcHandlers : list string;
  api_clientAddons : list string;
  api_widgetDefs : list string;
}.
Arguments mkPluginApi {Ext}.
Arguments api_plugins {Ext}.
Arguments api_cwd {Ext}.
Arguments api_project {Ext}.
Arguments api_lightMode {Ext}.
Arguments api_pluginId {Ext}.
Arguments api_hooks {Ext}.
Arguments api_actions {Ext}.
Arguments api_views {Ext}.
Arguments api_ipcHandlers {Ext}.
Arguments api_clientAddons {Ext}.
Arguments api_widgetDefs {Ext}.

(** Modelled from the spec: the constructor of [PluginApi], called as
    [new PluginApi({ plugins, file, project, lightMode }, context)], is not
    among the sources.  A fresh instance has no registration; the two
    hooks this connector dispatches exist and are empty. *)
Definition new_PluginApi {Ext} (plugins : list Plugin) (file : string)
    (project : ProjectInfo) (lightMode : bool) : PluginApi Ext :=
  mkPluginApi plugins file project lightMode None
    (<["projectOpen" := []]> (<["pluginReload" := []]> ∅)) ∅ [] [] [] [].

Definition set_pluginId {Ext} (id : option string) (api : PluginApi Ext) : PluginApi Ext :=
  mkPluginApi (api_plugins api) (api_cwd api) (api_project api) (api_lightMode api)
    id (api_hooks api) (api_actions api) (api_views api) (api_ipcHandlers api)
    (api_clientAddons api) (api_widgetDefs api).

(** The [filter] option given to [fs.copy] by [updateLocalPackage]. *)
Inductive CopyFilter : Type :=
| ExcludeGit                 (* file => !file.match(/\.git/) *)
| ExcludeGitAndNodeModules.  (* file => !file.match(/(\.git|node_modules)/) *)

Fixpoint string_prefix (p s : string) : bool :=
  match p, s with
  | EmptyString, _ => true
  | String a p', String b s' => Ascii.eqb a b && string_prefix p' s'
  | String _ _, EmptyString => false
  end.

(** [s.match(/p/)] for a pattern [p] without metacharacters. *)
Fixpoint string_contains (p s : string) : bool :=
  string_prefix p s ||
  match s with
  | EmptyString => false
  | String _ s' => string_contains p s'
  end.

Definition copy_filter_accepts (f : CopyFilter) (file : string) : bool :=
  match f with
  | ExcludeGit => negb (string_contains ".git" file)
  | ExcludeGitAndNodeModules =>
      negb (string_contains ".git" file || string_contains "node_modules" file)
  end.

(** [s.split(sep)] for a one-character separator. *)
Fixpoint split_on (sep : ascii) (s : string) : list string :=
  match s with
  | EmptyString => [EmptyString]
  | String c s' =>
      if Ascii.eqb c sep then EmptyString :: split_on sep s'
      else match split_on sep s' with
           | [] => [String c EmptyString]
           | part :: parts => String c part :: parts
           end
  end.

(** The payloads published on the event bus by [callAction]. *)
Inductive Payload : Type :=
| PluginActionCalled (id : string) (params : JSVal)
| PluginActionResolved (id : string) (params : JSVal) (results errors : list JSVal).

Definition PLUGIN_ACTION_CALLED : string := "plugin_action_called".
Definition PLUGIN_ACTION_RESOLVED : string := "plugin_action_resolved".

(** Calls to the collaborators of the connector, in the order made. *)
Inductive Event : Type :=
| ELog (message : string)
| EConsoleError
| EViewsRemove (view : string)
| EIpcOff (handler : string)
| EUnWatchAll (projectId : string)
| EClientAddonsClear
| ESuggestionsClear
| EWidgetsReset
| EClientAddonsAdd (options : string)
| EViewsAdd (view : string) (project : ProjectInfo)
| EWidgetsRegister (definition : string) (project : ProjectInfo)
| EViewsOpen (view : string)
| EWidgetsLoad
| ELocalesLoad (folder : string)
| ELogsAdd (type message : string)
| EHookHandler (hook handler : string) (args : list HookArg)
| EActionHandler (action handler : string) (params : JSVal)
| EPublish (channel : string) (payload : Payload)
| ENotify (title : string)
| ESetProgress (id status : string) (args : list string)
| EFsRemove (path : string)
| EFsCopy (from to : string) (filter : CopyFilter)
| EUpdatePackage (cwd command id : string)
| EInvalidatePackage (id : string).

#[global] Instance JSVal_eq_dec : EqDecision JSVal.
Proof. solve_decision. Defined.
#[global] Instance HookArg_eq_dec : EqDecision HookArg.
Proof. solve_decision. Defined.
#[global] Instance CopyFilter_eq_dec : EqDecision CopyFilter.
Proof. solve_decision. Defined.
#[global] Instance Payload_eq_dec : EqDecision Payload.
Proof. solve_decision. Defined.
#[global] Instance Event_eq_dec : EqDecision Event.
Proof. solve_decision. Defined.

(** What [loadModule(file, cwd, true)] does: it throws, it gives nothing
    (the module is absent), a value that is not a function, or the plugin's
    function, which registers into the instance it is given and may throw
    after some registrations. *)
Inductive ModuleLoad (Ext : Type) : Type :=
| ModuleThrows
| ModuleMissing
| ModuleNotFunction
| ModuleFunction (f : PluginApi Ext -> Ext -> Completion unit * (PluginApi Ext * Ext)).
Arguments ModuleThrows {Ext}.
Arguments ModuleMissing {Ext}.
Arguments ModuleNotFunction {Ext}.
Arguments ModuleFunction {Ext}.

(** [dependencies.getVersion]. *)
Record Version : Type := mkVersion {
  current : string;
  wanted : string;
  localPath : option string;
}.

(** The collaborators that are only read: manifest reader, path helpers,
    naming conventions of @vue/cli-shared-utils, the projects and views
    connectors, the module loader, the dependency connector.  A [None]
    result stands for a call that throws. *)
Record Env (Ext : Type) : Type := mkEnv {
  readPackage : string -> option PackageJson;
  path_resolve : list string -> string;
  isPlugin : string -> bool;
  isOfficialPlugin : string -> bool;
  getPluginLink : string -> option string;
  isInstalled : string -> string -> bool;     (* id, file *)
  findByPath : string -> option ProjectInfo;
  getType : ProjectInfo -> string;
  getLast : option ProjectInfo;
  views_getCurrent : option string;
  dirname : string;
  loadModule : string -> string -> ModuleLoad Ext;
  localeFolder : string -> string -> option string;
  getVersion : option Plugin -> option Version;
  getCommand : string -> string;
  VUE_CLI_DEBUG : bool;
  rejects : Event -> bool;                    (* awaited calls that fail *)
}.
Arguments readPackage {Ext}.
Arguments path_resolve {Ext}.
Arguments isPlugin {Ext}.
Arguments isOfficialPlugin {Ext}.
Arguments getPluginLink {Ext}.
Arguments isInstalled {Ext}.
Arguments findByPath {Ext}.
Arguments getType {Ext}.
Arguments getLast {Ext}.
Arguments views_getCurrent {Ext}.
Arguments dirname {Ext}.
Arguments loadModule {Ext}.
Arguments localeFolder {Ext}.
Arguments getVersion {Ext}.
Arguments getCommand {Ext}.
Arguments VUE_CLI_DEBUG {Ext}.
Arguments rejects {Ext}.

(** The module's state ([pluginsStore], [pluginApiInstances], [pkgStore],
    [currentPluginId]), the current working directory of the [cwd]
    connector, the progress ids in flight, the host state of the
    callbacks, and the trace (oldest event first). *)
Record World (Ext : Type) : Type := mkWorld {
  pluginsStore : gmap string (list Plugin);
  pluginApiInstances : gmap string (PluginApi Ext);
  pkgStore : gmap string (string * PackageJson);
  currentPluginId : option string;
  cwd : string;
  progress : gset string;
  ext : Ext;
  trace : list Event;
}.
Arguments mkWorld {Ext}.
Arguments pluginsStore {Ext}.
Arguments pluginApiInstances {Ext}.
Arguments pkgStore {Ext}.
Arguments currentPluginId {Ext}.
Arguments cwd {Ext}.
Arguments progress {Ext}.
Arguments ext {Ext}.
Arguments trace {Ext}.

(** *** Running the connector: state, exceptions, trace *)

Definition M (Ext A : Type) : Type := World Ext -> Completion A * World Ext.

Definition ret {Ext A} (a : A) : M Ext A := fun w => (Returns a, w).

Definition bind {Ext A B} (m : M Ext A) (k : A -> M Ext B) : M Ext B :=
  fun w =>
    match m w with
    | (Returns a, w') => k a w'
    | (Throws e, w') => (Throws e, w')
    | (Pending, w') => (Pending, w')
    end.

Notation "'let*' x ':=' m 'in' k" := (bind m (fun x => k))
  (at level 10, x name, m at level 100, k at level 200).

Definition throw {Ext A} (e : JSVal) : M Ext A := fun w => (Throws e, w).

Definition get_world {Ext} : M Ext (World Ext) := fun w => (Returns w, w).

Definition modify {Ext} (f : World Ext -> World Ext) : M Ext unit :=
  fun w => (Returns tt, f w).

Definition set_pluginsStore {Ext} (s : gmap string (list Plugin)) (w : World Ext) : World Ext :=
  mkWorld s (pluginApiInstances w) (pkgStore w) (currentPluginId w) (cwd w)
    (progress w) (ext w) (trace w).

Definition set_pluginApiInstances {Ext} (s : gmap string (PluginApi Ext)) (w : World Ext)
  : World Ext :=
  mkWorld (pluginsStore w) s (pkgStore w) (currentPluginId w) (cwd w)
    (progress w) (ext w) (trace w).

Definition set_pkgStore {Ext} (s : gmap string (string * PackageJson)) (w : World Ext)
  : World Ext :=
  mkWorld (pluginsStore w) (pluginApiInstances w) s (currentPluginId w) (cwd w)
    (progress w) (ext w) (trace w).

Definition set_currentPluginId {Ext} (id : option string) (w : World Ext) : World Ext :=
  mkWorld (pluginsStore w) (pluginApiInstances w) (pkgStore w) id (cwd w)
    (progress w) (ext w) (trace w).

Definition set_progress {Ext} (p : gset string) (w : World Ext) : World Ext :=
  mkWorld (pluginsStore w) (pluginApiInstances w) (pkgStore w) (currentPluginId w) (cwd w)
    p (ext w) (trace w).

Definition set_ext {Ext} (x : Ext) (w : World Ext) : World Ext :=
  mkWorld (pluginsStore w) (pluginApiInstances w) (pkgStore w) (currentPluginId w) (cwd w)
    (progress w) x (trace w).

Definition set_trace {Ext} (t : list Event) (w : World Ext) : World Ext :=
  mkWorld (pluginsStore w) (pluginApiInstances w) (pkgStore w) (currentPluginId w) (cwd w)
    (progress w) (ext w) t.

(** A call to a collaborator that cannot fail. *)
Definition emit {Ext} (e : Event) : M Ext unit :=
  modify (fun w => set_trace (trace w ++ [e]) w).

Fixpoint emit_all {Ext} (es : list Event) : M Ext unit :=
  match es with
  | [] => ret tt
  | e :: es' => let* _ := emit e in emit_all es'
  end.

(** An awaited call to a collaborator: it is made, and it may reject. *)
Definition await_call {Ext} (E : Env Ext) (e : Event) : M Ext unit :=
  let* _ := emit e in
  if rejects E e then throw (VError "rejected") else ret tt.

(** The body of a [setTimeout] callback inside [new Promise]: an
    exception in it reaches neither [resolve] nor [reject]. *)
Definition in_timeout {Ext A} (m : M Ext A) : M Ext A :=
  fun w =>
    match m w with
    | (Throws _, w') => (Pending, w')
    | r => r
    end.

Definition TypeError : JSVal := VError "TypeError".

(** *** Discovery *)

Definition getPlugins {Ext} (file : string) (w : World Ext) : list Plugin :=
  match pluginsStore w !! file with
  | Some plugins => plugins
  | None => []
  end.

Definition getLink {Ext} (E : Env Ext) (id : string) : option string :=
  if bool_decide (id = CLI_SERVICE) then Some "https://cli.vuejs.org/"
  else getPluginLink E id.

Definition findPlugins {Ext} (E : Env Ext) (deps : list (string * string)) (file : string)
  : list Plugin :=
  map (fun '(id, range) =>
         mkPlugin id range
           (isOfficialPlugin E id || bool_decide (id = CLI_SERVICE))
           (isInstalled E id file)
           (getLink E id)
           file
           false)
    (List.filter (fun '(id, _) => isPlugin E id || bool_decide (id = CLI_SERVICE)) deps).

Fixpoint findIndex {A} (p : A -> bool) (l : list A) : option nat :=
  match l with
  | [] => None
  | x :: l' => if p x then Some 0%nat else option_map S (findIndex p l')
  end.

(** "Put cli service at the top": [findIndex], [splice], [unshift]. *)
Definition service_first (plugins : list Plugin) : list Plugin :=
  match findIndex (fun p => bool_decide (plugin_id p = CLI_SERVICE)
                            || bool_decide (plugin_id p = VUEDESK_BUILD_BUNDLE)) plugins with
  | None => plugins
  | Some index =>
      match plugins !! index with
      | Some service => service :: delete index plugins
      | None => plugins
      end
  end.

(** The entries [list] adds for [pkg.vuedesk]. *)
Definition vuedesk_plugins_of (vd : Vuedesk) (file : string) : list Plugin :=
  mkPlugin VUEDESK_BUILD_BUNDLE (vuedesk_version vd) true true None file false
  :: map (fun id => mkPlugin ("@vue/cli-plugin-" +:+ id) (vuedesk_version vd)
                      true true None file true)
       (vuedesk_plugins vd).

(** The plugin list that [list] computes from a manifest, before it is
    compared with the stored one. *)
Definition discovered {Ext} (E : Env Ext) (pkg : PackageJson) (file : string) : list Plugin :=
  service_first
    (findPlugins E (default [] (devDependencies pkg)) file
     ++ findPlugins E (default [] (dependencies pkg)) file
     ++ match vuedesk pkg with
        | Some vd => vuedesk_plugins_of vd file
        | None => []
        end).

Definition read_manifest {Ext} (E : Env Ext) (file : string) : M Ext PackageJson :=
  match readPackage E file with
  | Some pkg => ret pkg
  | None => throw (VError "package.json not found")
  end.

(** The manifest and its context, after [vuePlugins.resolveFrom]. *)
Definition resolve_manifest {Ext} (E : Env Ext) (file : string)
  : M Ext (string * PackageJson) :=
  let* pkg := read_manifest E file in
  let* w := get_world in
  match vuePlugins pkg with
  | Some (mkVuePlugins (Some from) _) =>
      if truthy_string from then
        let pkgContext := path_resolve E [cwd w; from] in
        let* pkg' := read_manifest E pkgContext in
        ret (pkgContext, pkg')
      else ret (cwd w, pkg)
  | _ => ret (cwd w, pkg)
  end.

(** *** Plugin API *)

Definition getApi {Ext} (folder : string) (w : World Ext) : option (PluginApi Ext) :=
  pluginApiInstances w !! folder.

(** [fns.forEach(fn => fn(...args))]: the first handler that throws ends
    the loop. *)
Fixpoint run_hooks {Ext} (id : string) (fns : list (HookHandler Ext)) (args : list HookArg)
  : M Ext unit :=
  match fns with
  | [] => ret tt
  | fn :: fns' =>
      let* _ := emit (EHookHandler id (hh_name fn) args) in
      let* _ := (fun w => let '(c, x) := hh_run fn args (ext w) in (c, set_ext x w)) in
      run_hooks id fns' args
  end.

Definition callHook {Ext} (id : string) (args : list HookArg) (file : string) : M Ext unit :=
  let* w := get_world in
  match getApi file w with
  | None => ret tt
  | Some pluginApi =>
      match api_hooks pluginApi !! id with
      | None => throw TypeError            (* [fns.length] of [undefined] *)
      | Some fns =>
          let* _ := emit (ELog ("Hook " +:+ id)) in
          run_hooks id fns args
      end
  end.

(** [runPluginApi (id, file, pluginApi, cwd, context)].  The instance is
    an object shared with [pluginApiInstances]; [ref] is the key under
    which it is stored, and the registrations the module makes are written
    to that entry. *)
Definition runPluginApi {Ext} (E : Env Ext) (id file ref dir : string) : M Ext unit :=
  let* _ :=
    match loadModule E file dir with
    | ModuleThrows => if VUE_CLI_DEBUG E then emit EConsoleError else ret tt
    | ModuleMissing => ret tt
    | ModuleNotFunction =>
        let* _ := emit (ELog "ERROR while loading plugin API: no function exported") in
        emit (ELogsAdd "error"
                ("An error occured while loading " +:+ file +:+ ": no function exported"))
    | ModuleFunction module =>
        let* w := get_world in
        match pluginApiInstances w !! ref with
        | None => throw TypeError
        | Some pluginApi =>
            let '(c, (pluginApi', x)) := module (set_pluginId (Some id) pluginApi) (ext w) in
            let* _ := modify (fun w =>
              set_ext x (set_pluginApiInstances
                           (<[ref := pluginApi']> (pluginApiInstances w)) w)) in
            let* _ :=
              match c with
              | Returns _ => emit (ELog "Plugin API loaded for")
              | Throws _ =>
                  let* _ := emit (ELog "ERROR while loading plugin API") in
                  emit (ELogsAdd "error" ("An error occured while loading " +:+ file))
              | Pending => fun w => (Pending, w)
              end in
            modify (fun w =>
              set_pluginApiInstances
                (<[ref := set_pluginId None pluginApi']> (pluginApiInstances w)) w)
        end
    end in
  match localeFolder E id dir with
  | Some folder => emit (ELocalesLoad folder)
  | None => ret tt
  end.

Fixpoint run_all {Ext} (ms : list (M Ext unit)) : M Ext unit :=
  match ms with
  | [] => ret tt
  | m :: ms' => let* _ := m in run_all ms'
  end.

(** The callback that [resetPluginApi] defers with [setTimeout]. *)
Definition resetPluginApi_deferred {Ext} (E : Env Ext) (file : string) (lightApi : bool)
    (projectId : option string) : M Ext bool :=
  match findByPath E file with
  | None => ret false
  | Some project =>
      let* w := get_world in
      let plugins := getPlugins file w in
      if negb (bool_decide (getType E project = "vue")) then ret false
      else
        let pluginApi := new_PluginApi plugins file project lightApi in
        let* _ := modify (fun w =>
          set_pluginApiInstances (<[file := pluginApi]> (pluginApiInstances w)) w) in
        (* Run Plugin API *)
        let* _ := runPluginApi E "@guijs/builtin-plugin" "@guijs/builtin-plugin/ui"
                    file (dirname E) in
        let* _ := run_all (map (fun plugin =>
                    runPluginApi E (plugin_id plugin) (plugin_id plugin +:+ "/ui")
                      file (api_cwd pluginApi)) plugins) in
        (* Project package.json data *)
        let* w := get_world in
        match pkgStore w !! file with
        | None => throw TypeError
        | Some (pkgContext, pkg) =>
            (* Local plugins *)
            let* _ :=
              match vuePlugins pkg with
              | Some (mkVuePlugins _ (Some files)) =>
                  run_all (map (fun _ =>
                    runPluginApi E pkgContext (pkgContext +:+ "/ui")
                      file (api_cwd pluginApi)) files)
              | _ => ret tt
              end in
            let* w := get_world in
            match pluginApiInstances w !! file with
            | None => throw TypeError
            | Some pluginApi =>
                let* _ := emit_all (map EClientAddonsAdd (api_clientAddons pluginApi)) in
                let* _ := emit_all (map (fun view => EViewsAdd view project)
                                      (api_views pluginApi)) in
                let* _ := emit_all (map (fun d => EWidgetsRegister d project)
                                      (api_widgetDefs pluginApi)) in
                if lightApi then ret true
                else
                  let* _ :=
                    if negb (bool_decide (projectId = Some (project_id project))) then
                      callHook "projectOpen"
                        [ArgProject project;
                         match getLast E with
                         | Some p => ArgProject p
                         | None => ArgNoProject
                         end] file
                    else
                      let* _ := callHook "pluginReload" [ArgProject project] file in
                      match views_getCurrent E with
                      | Some currentView => emit (EViewsOpen currentView)
                      | None => ret tt
                      end in
                  let* _ := emit EWidgetsLoad in
                  ret true
            end
        end
  end.

(** [resetPluginApi ({ file, lightApi }, context)]: the clean-up runs at
    once, the rest on the next tick. *)
Definition resetPluginApi {Ext} (E : Env Ext) (file : string) (lightApi : bool) : M Ext bool :=
  let* _ := emit (ELog "Plugin API reloading...") in
  let* w := get_world in
  let pluginApi := pluginApiInstances w !! file in
  let projectId := option_map (fun api => project_id (api_project api)) pluginApi in
  (* Clean up *)
  let* _ :=
    match pluginApi with
    | Some api =>
        let* _ := emit_all (map EViewsRemove (api_views api)) in
        emit_all (map EIpcOff (api_ipcHandlers api))
    | None => ret tt
    end in
  let* _ :=
    if lightApi then ret tt
    else
      let* _ :=
        match projectId with
        | Some id => if truthy_string id then emit (EUnWatchAll id) else ret tt
        | None => ret tt
        end in
      let* _ := emit EClientAddonsClear in
      let* _ := emit ESuggestionsClear in
      emit EWidgetsReset in
  in_timeout (resetPluginApi_deferred E file lightApi projectId).

(** The options of [list], with their defaults. *)
Record ListOptions : Type := mkListOptions {
  resetApi : bool;
  lightApi : bool;
  autoLoadApi : bool;
}.

Definition default_ListOptions : ListOptions := mkListOptions true false true.

(** [list (file, context, options)] *)
Definition plugins_list {Ext} (E : Env Ext) (file : string) (opts : ListOptions)
  : M Ext (list Plugin) :=
  let* ctx_pkg := resolve_manifest E file in
  let '(pkgContext, pkg) := ctx_pkg in
  let* _ := modify (fun w => set_pkgStore (<[file := (pkgContext, pkg)]> (pkgStore w)) w) in
  let plugins := discovered E pkg file in
  let* w := get_world in
  let oldPlugins := getPlugins file w in
  if deepEqual plugins oldPlugins then ret oldPlugins
  else
    let* _ := modify (fun w => set_pluginsStore (<[file := plugins]> (pluginsStore w)) w) in
    let* _ := emit (ELog "Plugins found:") in
    let* _ :=
      if resetApi opts
         || (autoLoadApi opts && negb (bool_decide (is_Some (pluginApiInstances w !! file))))
      then let* _ := resetPluginApi E file (lightApi opts) in ret tt
      else ret tt in
    ret (List.filter (fun p => negb (plugin_hidden p)) plugins).

Definition findOne {Ext} (id file : string) : M Ext (option Plugin) :=
  let* w := get_world in
  let plugin := List.find (fun p => bool_decide (plugin_id p = id)) (getPlugins file w) in
  let* _ := match plugin with
            | None => emit (ELog "Plugin Not found")
            | Some _ => ret tt
            end in
  ret plugin.

(** *** Action dispatch *)

(** The value [callAction] resolves with. *)
Record ActionResult : Type := mkActionResult {
  ar_id : string;
  ar_params : JSVal;
  results : list JSVal;
  errors : list JSVal;
}.

(** The loop over the handlers of an action: [results] and [errors] grow
    by one entry per handler. *)
Fixpoint run_actions {Ext} (id : string) (handlers : list (ActionHandler Ext)) (params : JSVal)
    (results errors : list JSVal) : M Ext (list JSVal * list JSVal) :=
  match handlers with
  | [] => ret (results, errors)
  | cb :: list' =>
      let* _ := emit (EActionHandler id (ah_name cb) params) in
      let* w := get_world in
      let '(c, x) := ah_run cb params (ext w) in
      let* _ := modify (set_ext x) in
      match c with
      | Returns result => run_actions id list' params (results ++ [result]) (errors ++ [VNull])
      | Throws error => run_actions id list' params (results ++ [VNull]) (errors ++ [error])
      | Pending => fun w => (Pending, w)
      end
  end.

(** [callAction ({ id, params, file = cwd.get() }, context)] *)
Definition callAction {Ext} (id : string) (params : JSVal) (file : option string)
  : M Ext ActionResult :=
  let* w := get_world in
  let pluginApi := getApi (default (cwd w) file) w in
  let* _ := emit (EPublish PLUGIN_ACTION_CALLED (PluginActionCalled id params)) in
  let* _ := emit (ELog "PluginAction called") in
  match pluginApi with
  | None => throw TypeError              (* [pluginApi.actions] of [undefined] *)
  | Some pluginApi =>
      let* re :=
        match api_actions pluginApi !! id with
        | Some handlers => run_actions id handlers params [] []
        | None => ret ([], [])
        end in
      let '(results, errors) := re in
      let* _ := emit (EPublish PLUGIN_ACTION_RESOLVED
                        (PluginActionResolved id params results errors)) in
      let* _ := emit (ELog "PluginAction resolved") in
      ret (mkActionResult id params results errors)
  end.

(** *** Lifecycle operations *)

(** Modelled from the spec: the progress connector (connectors/progress.js)
    is not among the sources.  The channel is keyed by progress id and
    mutually exclusive: an operation is admitted under an id only while no
    other operation is in flight under that id, and releases the id when it
    ends; a call that is not admitted is rejected. *)
Definition progress_begin (id : string) (inflight : gset string) : option (gset string) :=
  if decide (id ∈ inflight) then None else Some ({[id]} ∪ inflight).

Definition progress_end (id : string) (inflight : gset string) : gset string :=
  inflight ∖ {[id]}.

(** Modelled from the spec: [progress.wrap (id, context, operation)] runs
    the operation under the progress id; a failure of the operation
    reaches the caller. *)
Definition progress_wrap {Ext A} (id : string) (operation : M Ext A) : M Ext A :=
  fun w =>
    match progress_begin id (progress w) with
    | None => (Throws (VError "operation in progress"), w)
    | Some p =>
        let '(c, w') := operation (set_progress p w) in
        (c, set_progress (progress_end id (progress w')) w')
    end.

(** The lifecycle operations the connector exports. *)
Inductive LifecycleOp : Type :=
| OpInstall | OpInstallLocal | OpUninstall | OpUpdate | OpUpdateAll | OpInvoke.

#[global] Instance LifecycleOp_eq_dec : EqDecision LifecycleOp.
Proof. solve_decision. Defined.








(** [updateLocalPackage ({ id, cwd, localPath, full = true }, context)] *)
Definition updateLocalPackage {Ext} (E : Env Ext) (id dir localPath : string)
    (full : option bool) : M Ext unit :=
  let from := path_resolve E [dir; localPath] in
  let to := path_resolve E (dir :: "node_modules" :: split_on "/"%char id) in
  if default true full then
    let* _ := await_call E (EFsRemove to) in
    await_call E (EFsCopy from to ExcludeGit)
  else
    await_call E (EFsCopy from to ExcludeGitAndNodeModules).


(** The operation [update] hands to [progress.wrap]. *)
Definition update_operation {Ext} (E : Env Ext) (id : string) (full : option bool)
  : M Ext (option Plugin) :=
  let* _ := emit (ESetProgress "plugin-update" "plugin-update" [id]) in
  let* _ := modify (set_currentPluginId (Some id)) in
  let* w := get_world in
  let* plugin := findOne id (cwd w) in
  match getVersion E plugin with
  | None => throw (VError "getVersion failed")
  | Some version =>
      let* _ :=
        match localPath version with
        | Some path =>
            if truthy_string path
            then updateLocalPackage E id (cwd w) path full
            else await_call E (EUpdatePackage (cwd w) (getCommand E (cwd w)) id)
        | None => await_call E (EUpdatePackage (cwd w) (getCommand E (cwd w)) id)
        end in
      let* _ := emit (ELogsAdd "info"
                        ("Plugin " +:+ id +:+ " updated from " +:+ current version
                         +:+ " to " +:+ wanted version)) in
      let* _ := emit (ENotify "Plugin updated") in
      let* _ := resetPluginApi E (cwd w) false in
      let* _ := emit (EInvalidatePackage id) in
      let* _ := modify (set_currentPluginId None) in
      findOne id (cwd w)
  end.

(** [update ({ id, full }, context)] *)
Definition update {Ext} (E : Env Ext) (id : string) (full : option bool)
  : M Ext (option Plugin) :=
  progress_wrap "plugin-update" (update_operation E id full).


(** [Array.prototype.join(separator)] on an array of strings. *)
Definition join (separator : string) (parts : list string) : string :=
  String.concat separator parts.

(** The [for ... of] loop of [updateAll]: the plugins whose current
    version differs from the wanted one are pushed to [updatedPlugins] and
    their package is invalidated; a rejected [getVersion] ends the loop. *)
Fixpoint updateAll_loop {Ext} (E : Env Ext) (plugins updatedPlugins : list Plugin)
  : M Ext (list Plugin) :=
  match plugins with
  | [] => ret updatedPlugins
  | plugin :: plugins' =>
      match getVersion E (Some plugin) with
      | None => throw (VError "getVersion failed")
      | Some version =>
          if negb (bool_decide (current version = wanted version))
          then
            let* _ := emit (EInvalidatePackage (plugin_id plugin)) in
            updateAll_loop E plugins' (updatedPlugins ++ [plugin])
          else updateAll_loop E plugins' updatedPlugins
      end
  end.

(** The operation [updateAll] hands to [progress.wrap].  The number given
    to [setProgress] is recorded by its decimal representation. *)
Definition updateAll_operation {Ext} (E : Env Ext) : M Ext (list Plugin) :=
  let* w := get_world in
  let* plugins := plugins_list E (cwd w) (mkListOptions false false true) in
  let* updatedPlugins := updateAll_loop E plugins [] in
  match updatedPlugins with
  | [] =>
      let* _ := emit (ENotify "No updates available") in
      ret []
  | _ :: _ =>
      let* _ := emit (ESetProgress "plugins-update" "plugins-update"
                        [pretty (length updatedPlugins)]) in
      let* w := get_world in
      let* _ := await_call E (EUpdatePackage (cwd w) (getCommand E (cwd w))
                                (join " " (map plugin_id updatedPlugins))) in
      let* _ := emit (ENotify "Plugins updated") in
      let* w := get_world in
      let* _ := resetPluginApi E (cwd w) false in
      ret updatedPlugins
  end.

(** [updateAll (context)] *)
Definition updateAll {Ext} (E : Env Ext) : M Ext (list Plugin) :=
  progress_wrap "plugins-update" (updateAll_operation E).


(** *** Installation operations

    [install], [uninstall], [runInvoke] and [finishInstall] use, besides
    the state above, the module variables [installationStep] and
    [eventsInstalled], and collaborators of their own: the package manager
    for installing and removing, the manifest writer, the prompts connector
    and the child process of the generator.  The calls to these are kept
    in a second trace. *)
Inductive InstallCall : Type :=
| CInstallPackage (cwd command id : string)
| CUninstallPackage (cwd command id : string)
| CWritePackage (file : string) (data : PackageJson)
| CPromptsReset
| CPromptsAdd (prompt : string)
| CPromptsStart
| CConsoleWarn (message : string)
| CClearModule (module cwd : string)
| CExeca (command : string) (args : list string) (cwd : string)
| CSetProgressInfo (id info : string).

(** What [require(path.join(..., 'prompts'))] gives: it throws, or it
    gives a value, which is an array of prompts ([Some]) or not, or a
    function, whose awaited result is such a value. *)
Inductive PromptsModule : Type :=
| PromptsThrows
| PromptsValue (data : option (list string))
| PromptsFunction (result : Completion (option (list string))).

(** The collaborators of the installation operations that are only
    read.  The state of the prompts connector is known to this connector
    only through [prompts.list()] and [prompts.getAnswers()], which are
    given as functions of the calls made so far. *)
Record InstallEnv (Ext : Type) : Type := mkInstallEnv {
  base : Env Ext;
  dependencies_getPath : string -> string -> string;   (* id, file *)
  path_join : list string -> string;
  require_prompts : string -> PromptsModule;
  resolveModule : string -> string -> bool;            (* request, cwd; truthiness *)
  prompts_list : list InstallCall -> list string;
  prompts_getAnswers : list InstallCall -> string;     (* as JSON *)
  child_stdout : string -> list string;                (* id; each chunk, trimmed *)
  call_rejects : InstallCall -> bool;                  (* awaited calls that fail *)
}.
Arguments base {Ext}.
Arguments dependencies_getPath {Ext}.
Arguments path_join {Ext}.
Arguments require_prompts {Ext}.
Arguments resolveModule {Ext}.
Arguments prompts_list {Ext}.
Arguments prompts_getAnswers {Ext}.
Arguments child_stdout {Ext}.
Arguments call_rejects {Ext}.

Record InstallState (Ext : Type) : Type := mkInstallState {
  world : World Ext;
  installationStep : option string;
  eventsInstalled : bool;
  calls : list InstallCall;
}.
Arguments mkInstallState {Ext}.
Arguments world {Ext}.
Arguments installationStep {Ext}.
Arguments eventsInstalled {Ext}.
Arguments calls {Ext}.

Definition MI (Ext A : Type) : Type := InstallState Ext -> Completion A * InstallState Ext.

Definition retI {Ext A} (a : A) : MI Ext A := fun s => (Returns a, s).

Definition bindI {Ext A B} (m : MI Ext A) (k : A -> MI Ext B) : MI Ext B :=
  fun s =>
    match m s with
    | (Returns a, s') => k a s'
    | (Throws e, s') => (Throws e, s')
    | (Pending, s') => (Pending, s')
    end.

Notation "'let+' x ':=' m 'in' k" := (bindI m (fun x => k))
  (at level 10, x name, m at level 100, k at level 200).

Definition throwI {Ext A} (e : JSVal) : MI Ext A := fun s => (Throws e, s).

Definition get_state {Ext} : MI Ext (InstallState Ext) := fun s => (Returns s, s).

Definition set_world {Ext} (w : World Ext) (s : InstallState Ext) : InstallState Ext :=
  mkInstallState w (installationStep s) (eventsInstalled s) (calls s).

Definition set_installationStep {Ext} (step : option string) (s : InstallState Ext)
  : InstallState Ext :=
  mkInstallState (world s) step (eventsInstalled s) (calls s).

Definition set_eventsInstalled {Ext} (b : bool) (s : InstallState Ext) : InstallState Ext :=
  mkInstallState (world s) (installationStep s) b (calls s).

Definition set_calls {Ext} (l : list InstallCall) (s : InstallState Ext) : InstallState Ext :=
  mkInstallState (world s) (installationStep s) (eventsInstalled s) l.

Definition modifyI {Ext} (f : InstallState Ext -> InstallState Ext) : MI Ext unit :=
  fun s => (Returns tt, f s).

(** A step of the connector proper, run on the [world] of the state. *)
Definition lift {Ext A} (m : M Ext A) : MI Ext A :=
  fun s => let '(c, w) := m (world s) in (c, set_world w s).

Definition call {Ext} (c : InstallCall) : MI Ext unit :=
  modifyI (fun s => set_calls (calls s ++ [c]) s).

Fixpoint call_all {Ext} (cs : list InstallCall) : MI Ext unit :=
  match cs with
  | [] => retI tt
  | c :: cs' => let+ _ := call c in call_all cs'
  end.

(** An awaited call: it is made, and it may reject. *)
Definition await_install_call {Ext} (E : InstallEnv Ext) (c : InstallCall) : MI Ext unit :=
  let+ _ := call c in
  if call_rejects E c then throwI (VError "rejected") else retI tt.

(** Modelled from the spec: [progress.wrap], as above, around an operation
    on the larger state. *)
Definition progress_wrap_install {Ext A} (id : string) (operation : MI Ext A) : MI Ext A :=
  fun s =>
    match progress_begin id (progress (world s)) with
    | None => (Throws (VError "operation in progress"), s)
    | Some p =>
        let '(c, s') := operation (set_world (set_progress p (world s)) s) in
        (c, set_world (set_progress (progress_end id (progress (world s'))) (world s')) s')
    end.

(** The object [getInstallation] returns. *)
Record Installation : Type := mkInstallation {
  installation_id : string;
  pluginId : option string;
  step : option string;
  prompts : list string;
}.

(** [getInstallation (context)] *)
Definition getInstallation {Ext} (E : InstallEnv Ext) : MI Ext Installation :=
  let+ s := get_state in
  let+ _ := if eventsInstalled s then retI tt else modifyI (set_eventsInstalled true) in
  let+ s := get_state in
  retI (mkInstallation "plugin-install" (currentPluginId (world s)) (installationStep s)
          (prompts_list E (calls s))).

(** [pkg.devDependencies[id] = value]: the value of a key that exists is
    replaced where it stands, a new key comes last. *)
Definition set_key (id value : string) (deps : list (string * string)) : list (string * string) :=
  if existsb (fun '(k, _) => String.eqb k id) deps
  then map (fun '(k, v) => if String.eqb k id then (k, value) else (k, v)) deps
  else deps ++ [(id, value)].

(** [delete pkg.devDependencies[id]] *)
Definition delete_key (id : string) (deps : list (string * string)) : list (string * string) :=
  List.filter (fun '(k, _) => negb (String.eqb k id)) deps.

Definition set_devDependencies (deps : list (string * string)) (pkg : PackageJson)
  : PackageJson :=
  mkPackageJson (Some deps) (dependencies pkg) (vuePlugins pkg) (vuedesk pkg).

(** [mockInstall (id, context)]: [pkg.devDependencies] of a manifest
    without development dependencies is [undefined], and the assignment
    throws. *)
Definition mockInstall {Ext} (E : InstallEnv Ext) (id : string) : MI Ext bool :=
  let+ s := get_state in
  let+ pkg := lift (read_manifest (base E) (cwd (world s))) in
  match devDependencies pkg with
  | None => throwI TypeError
  | Some deps =>
      let+ _ := call (CWritePackage (cwd (world s))
                        (set_devDependencies (set_key id "*" deps) pkg)) in
      retI true
  end.

(** [mockUninstall (id, context)] *)
Definition mockUninstall {Ext} (E : InstallEnv Ext) (id : string) : MI Ext bool :=
  let+ s := get_state in
  let+ pkg := lift (read_manifest (base E) (cwd (world s))) in
  match devDependencies pkg with
  | None => throwI TypeError
  | Some deps =>
      let+ _ := call (CWritePackage (cwd (world s))
                        (set_devDependencies (delete_key id deps) pkg)) in
      retI true
  end.

(** The [try] block of [initPrompts]: [Returns None] stands for an
    exception, which the [catch] turns into a warning. *)
Definition load_prompts {Ext} (E : InstallEnv Ext) (id : string) : MI Ext (option (list string)) :=
  let+ s := get_state in
  match require_prompts E
          (path_join E [dependencies_getPath E id (cwd (world s)); "prompts"]) with
  | PromptsThrows => retI None
  | PromptsValue data => retI data
  | PromptsFunction (Returns data) => retI data
  | PromptsFunction (Throws _) => retI None
  | PromptsFunction Pending => fun s => (Pending, s)
  end.

(** [initPrompts (id, context)] *)
Definition initPrompts {Ext} (E : InstallEnv Ext) (id : string) : MI Ext unit :=
  let+ _ := await_install_call E CPromptsReset in
  let+ data := load_prompts E id in
  let+ _ :=
    match data with
    | Some prompts => call_all (map CPromptsAdd prompts)
    | None => call (CConsoleWarn ("No prompts found for " +:+ id))
    end in
  await_install_call E CPromptsStart.

(** [process.env.VUE_CLI_DEBUG && isOfficialPlugin(id)] *)
Definition mocked {Ext} (E : InstallEnv Ext) (id : string) : bool :=
  VUE_CLI_DEBUG (base E) && isOfficialPlugin (base E) id.

(** The operation [install] hands to [progress.wrap]. *)
Definition install_operation {Ext} (E : InstallEnv Ext) (id : string) : MI Ext Installation :=
  let+ _ := lift (emit (ESetProgress PROGRESS_ID "plugin-install" [id])) in
  let+ _ := lift (modify (set_currentPluginId (Some id))) in
  let+ _ := modifyI (set_installationStep (Some "install")) in
  let+ _ :=
    if mocked E id then let+ _ := mockInstall E id in retI tt
    else
      let+ s := get_state in
      await_install_call E
        (CInstallPackage (cwd (world s)) (getCommand (base E) (cwd (world s))) id) in
  let+ _ := initPrompts E id in
  let+ _ := modifyI (set_installationStep (Some "config")) in
  let+ _ := lift (emit (ENotify "Plugin installed")) in
  getInstallation E.

(** [install (id, context)] *)
Definition install {Ext} (E : InstallEnv Ext) (id : string) : MI Ext Installation :=
  progress_wrap_install PROGRESS_ID (install_operation E id).

(** The operation [uninstall] hands to [progress.wrap]. *)
Definition uninstall_operation {Ext} (E : InstallEnv Ext) (id : string) : MI Ext Installation :=
  let+ _ := lift (emit (ESetProgress PROGRESS_ID "plugin-uninstall" [id])) in
  let+ _ := modifyI (set_installationStep (Some "uninstall")) in
  let+ _ := lift (modify (set_currentPluginId (Some id))) in
  let+ _ :=
    if mocked E id then let+ _ := mockUninstall E id in retI tt
    else
      let+ s := get_state in
      await_install_call E
        (CUninstallPackage (cwd (world s)) (getCommand (base E) (cwd (world s))) id) in
  let+ _ := lift (modify (set_currentPluginId None)) in
  let+ _ := modifyI (set_installationStep None) in
  let+ _ := lift (emit (ENotify "Plugin uninstalled")) in
  getInstallation E.

(** [uninstall (id, context)] *)
Definition uninstall {Ext} (E : InstallEnv Ext) (id : string) : MI Ext Installation :=
  progress_wrap_install PROGRESS_ID (uninstall_operation E id).

(** [onData], for the trimmed text of a chunk. *)
Definition onData {Ext} (text : string) : MI Ext unit :=
  if truthy_string text then
    let+ _ := call (CSetProgressInfo PROGRESS_ID text) in
    lift (emit (ELogsAdd "info" text))
  else retI tt.

Fixpoint onData_all {Ext} (texts : list string) : MI Ext unit :=
  match texts with
  | [] => retI tt
  | text :: texts' => let+ _ := @onData Ext text in onData_all texts'
  end.

(** The operation [runInvoke] hands to [progress.wrap].  The child
    process writes its output while it is awaited, and may fail. *)
Definition runInvoke_operation {Ext} (E : InstallEnv Ext) (id : string) : MI Ext Installation :=
  let+ _ := lift (emit (ESetProgress PROGRESS_ID "plugin-invoke" [id])) in
  let+ s := get_state in
  let+ _ := call (CClearModule "@vue/cli-service/webpack.config.js" (cwd (world s))) in
  let+ _ := lift (modify (set_currentPluginId (Some id))) in
  let+ _ :=
    if resolveModule E (id +:+ "/generator") (cwd (world s)) then
      let+ s := get_state in
      let child := CExeca "vue" ["invoke"; id; "--$inlineOptions"; prompts_getAnswers E (calls s)]
                     (cwd (world s)) in
      let+ _ := call child in
      let+ _ := onData_all (child_stdout E id) in
      if call_rejects E child then throwI (VError "rejected") else retI tt
    else retI tt in
  let+ s := get_state in
  match getApi (cwd (world s)) (world s) with
  | None => throwI TypeError                 (* [pluginApi.cwd] of [undefined] *)
  | Some pluginApi =>
      let+ _ := lift (runPluginApi (base E) id (id +:+ "/ui") (cwd (world s))
                        (api_cwd pluginApi)) in
      let+ _ := modifyI (set_installationStep (Some "diff")) in
      let+ _ := lift (emit (ENotify "Plugin invoked successfully")) in
      getInstallation E
  end.

(** [runInvoke (id, context)] *)
Definition runInvoke {Ext} (E : InstallEnv Ext) (id : string) : MI Ext Installation :=
  progress_wrap_install PROGRESS_ID (runInvoke_operation E id).

(** [finishInstall (context)] *)
Definition finishInstall {Ext} (E : InstallEnv Ext) : MI Ext Installation :=
  let+ _ := modifyI (set_installationStep None) in
  let+ _ := lift (modify (set_currentPluginId None)) in
  getInstallation E.

(** ** Vocabulary of the properties *)

(** [a] may stand before [b] in the recent list: a command with a
    timestamp before any command without one, and the later timestamp
    first. *)
Definition ranks_not_below {Ext} (a b : MetaCommand Ext) : Prop :=
  match cmd_lastUsed a, cmd_lastUsed b with
  | Some ta, Some tb => tb <= ta
  | Some _, None => True
  | None, Some _ => False
  | None, None => True
  end.

Definition no_lastUsed {Ext} (c : MetaCommand Ext) : bool :=
  match cmd_lastUsed c with
  | Some _ => false
  | None => true
  end.

(** The commands [getRecentCommands] chooses from, in the order of
    [commands]. *)
Definition recent_candidates {Ext} (type : option CommandType) (r : Registry Ext)
  : list (MetaCommand Ext) :=
  List.filter (recent_candidate type) (commands r).


(** The document [addDoc] stores for a command. *)
Definition doc_of {Ext} (c : MetaCommand Ext) : LunrDoc :=
  mkDoc (cmd_id c) (cmd_label c).


(** A small matcher and scorer to run searches with: a label matches a
    query that is a prefix of it, and shorter labels score higher. *)
Definition prefix_lunr : Lunr :=
  mkLunr string_prefix (fun _ label => - Z.of_nat (String.length label)).


(** A relation between the world before and after that every run of [m]
    establishes, however the run ends. *)
Definition respects {Ext A} (R : World Ext -> World Ext -> Prop) (m : M Ext A) : Prop :=
  forall w c w', m w = (c, w') -> R w w'.

Definition same_pluginsStore {Ext} (w w' : World Ext) : Prop :=
  pluginsStore w' = pluginsStore w.

(** The run only appended events, all of them satisfying [Q]. *)
Definition extends_trace {Ext} (Q : Event -> Prop) (w w' : World Ext) : Prop :=
  exists es, trace w' = trace w ++ es /\ Forall Q es.

(** Calls that move files or run the package manager. *)
Definition is_file_event (e : Event) : bool :=
  match e with
  | EFsRemove _ | EFsCopy _ _ _ => true
  | _ => false
  end.

Definition is_package_manager_event (e : Event) : bool :=
  match e with
  | EUpdatePackage _ _ _ => true
  | _ => false
  end.

Definition is_transfer_event (e : Event) : bool :=
  is_file_event e || is_package_manager_event e.

Definition no_transfer (e : Event) : Prop := is_transfer_event e = false.

(** The events of the clean-up phase of [resetPluginApi]. *)
Definition cleanup_events {Ext} (pluginApi : option (PluginApi Ext)) (lightApi : bool)
  : list Event :=
  match pluginApi with
  | Some api => map EViewsRemove (api_views api) ++ map EIpcOff (api_ipcHandlers api)
  | None => []
  end
  ++ (if lightApi then []
      else match pluginApi with
           | Some api =>
               if truthy_string (project_id (api_project api))
               then [EUnWatchAll (project_id (api_project api))]
               else []
           | None => []
           end
           ++ [EClientAddonsClear; ESuggestionsClear; EWidgetsReset]).


(** How the handlers of an action complete when they are called one after
    the other with [params], each in the host state its predecessor left;
    the sequence ends at a handler that never settles. *)
Fixpoint action_outcomes {Ext} (handlers : list (ActionHandler Ext)) (params : JSVal)
    (x : Ext) : list (Completion JSVal) :=
  match handlers with
  | [] => []
  | cb :: handlers' =>
      match ah_run cb params x with
      | (Pending, _) => [Pending]
      | (c, x') => c :: action_outcomes handlers' params x'
      end
  end.

(** The host state after these calls. *)
Fixpoint action_final_ext {Ext} (handlers : list (ActionHandler Ext)) (params : JSVal)
    (x : Ext) : Ext :=
  match handlers with
  | [] => x
  | cb :: handlers' =>
      match ah_run cb params x with
      | (Pending, x') => x'
      | (_, x') => action_final_ext handlers' params x'
      end
  end.

Definition settled {A} (c : Completion A) : Prop :=
  match c with
  | Pending => False
  | _ => True
  end.

(** The entries a settled handler contributes to [results] and [errors]. *)
Definition result_of (c : Completion JSVal) : JSVal :=
  match c with
  | Returns v => v
  | _ => VNull
  end.

Definition error_of (c : Completion JSVal) : JSVal :=
  match c with
  | Throws e => e
  | _ => VNull
  end.


(** The calls [update] makes to bring a plugin up to date: for a plugin
    linked from a local path, the removal of the destination (full resync
    only) and a filtered copy; otherwise one call of the package manager.
    An awaited call that fails ends the sequence. *)
Definition local_resync {Ext} (E : Env Ext) (dir id path : string) (full : option bool)
  : list Event :=
  let from := path_resolve E [dir; path] in
  let to := path_resolve E (dir :: "node_modules" :: split_on "/"%char id) in
  if default true full then
    EFsRemove to
    :: (if rejects E (EFsRemove to) then [] else [EFsCopy from to ExcludeGit])
  else [EFsCopy from to ExcludeGitAndNodeModules].

Definition registry_update {Ext} (E : Env Ext) (dir id : string) : list Event :=
  [EUpdatePackage dir (getCommand E dir) id].

Definition update_transfers {Ext} (E : Env Ext) (dir id : string) (version : Version)
    (full : option bool) : list Event :=
  match localPath version with
  | Some path =>
      if truthy_string path then local_resync E dir id path full
      else registry_update E dir id
  | None => registry_update E dir id
  end.




(** The part of the deferred callback of [resetPluginApi] that runs once
    the new instance has been stored: the plugin modules, the
    registrations, the hooks. *)
Definition reset_build {Ext} (E : Env Ext) (file : string) (lightApi : bool)
    (projectId : option string) (project : ProjectInfo) (plugins : list Plugin)
  : M Ext bool :=
  let* _ := runPluginApi E "@guijs/builtin-plugin" "@guijs/builtin-plugin/ui"
              file (dirname E) in
  let* _ := run_all (map (fun plugin =>
              runPluginApi E (plugin_id plugin) (plugin_id plugin +:+ "/ui")
                file file) plugins) in
  let* w := get_world in
  match pkgStore w !! file with
  | None => throw TypeError
  | Some (pkgContext, pkg) =>
      let* _ :=
        match vuePlugins pkg with
        | Some (mkVuePlugins _ (Some files)) =>
            run_all (map (fun _ =>
              runPluginApi E pkgContext (pkgContext +:+ "/ui") file file) files)
        | _ => ret tt
        end in
      let* w := get_world in
      match pluginApiInstances w !! file with
      | None => throw TypeError
      | Some pluginApi =>
          let* _ := emit_all (map EClientAddonsAdd (api_clientAddons pluginApi)) in
          let* _ := emit_all (map (fun view => EViewsAdd view project)
                                (api_views pluginApi)) in
          let* _ := emit_all (map (fun d => EWidgetsRegister d project)
                                (api_widgetDefs pluginApi)) in
          if lightApi then ret true
          else
            let* _ :=
              if negb (bool_decide (projectId = Some (project_id project))) then
                callHook "projectOpen"
                  [ArgProject project;
                   match getLast E with
                   | Some p => ArgProject p
                   | None => ArgNoProject
                   end] file
              else
                let* _ := callHook "pluginReload" [ArgProject project] file in
                match views_getCurrent E with
                | Some currentView => emit (EViewsOpen currentView)
                | None => ret tt
                end in
            let* _ := emit EWidgetsLoad in
            ret true
      end
  end.

(** The calls a reset in light mode may make: logging, the removal of the
    previous instance's views and IPC handlers, what loading a plugin
    module reports, and the registration of client addons, views and
    widget definitions. *)
Definition is_light_reset_event (e : Event) : bool :=
  match e with
  | ELog _ | EConsoleError | ELogsAdd _ _ | ELocalesLoad _
  | EViewsRemove _ | EIpcOff _
  | EClientAddonsAdd _ | EViewsAdd _ _ | EWidgetsRegister _ _ => true
  | _ => false
  end.

(** What a reset for [file] leaves alone: the plugin and package stores,
    the plugin being installed, the working directory, the progress ids,
    and the instances of the other workspaces. *)
Definition reset_frame {Ext} (file : string) (w w' : World Ext) : Prop :=
  pluginsStore w' = pluginsStore w
  /\ pkgStore w' = pkgStore w
  /\ currentPluginId w' = currentPluginId w
  /\ cwd w' = cwd w
  /\ progress w' = progress w
  /\ forall other, other <> file ->
       pluginApiInstances w' !! other = pluginApiInstances w !! other.

(** An instance is registered for [file], and stays so. *)
Definition keeps_instance {Ext} (file : string) (w w' : World Ext) : Prop :=
  is_Some (pluginApiInstances w !! file) -> is_Some (pluginApiInstances w' !! file).

(** The run never ends by returning a value outside [P]. *)
Definition returns_only {Ext A} (P : A -> Prop) (m : M Ext A) : Prop :=
  forall w a w', m w = (Returns a, w') -> P a.

(** The run never ends by throwing. *)
Definition never_throws {Ext A} (m : M Ext A) : Prop :=
  forall w e w', m w <> (Throws e, w').


(** The entries "put at the top" by [list]: the CLI service and the build
    bundle. *)
Definition is_service (p : Plugin) : bool :=
  bool_decide (plugin_id p = CLI_SERVICE) || bool_decide (plugin_id p = VUEDESK_BUILD_BUNDLE).

(** The plugin list of a manifest before the service is moved to the top:
    dev dependencies, dependencies, bundle entries. *)
Definition discovered_in_order {Ext} (E : Env Ext) (pkg : PackageJson) (file : string)
  : list Plugin :=
  findPlugins E (default [] (devDependencies pkg)) file
  ++ findPlugins E (default [] (dependencies pkg)) file
  ++ match vuedesk pkg with
     | Some vd => vuedesk_plugins_of vd file
     | None => []
     end.

(** [list] resets the plugin API after a change when asked to, or when
    it may load the API and none is there. *)
Definition list_resets {Ext} (opts : ListOptions) (file : string) (w : World Ext) : bool :=
  resetApi opts
  || (autoLoadApi opts && negb (bool_decide (is_Some (pluginApiInstances w !! file)))).


(** Every handler of the list returns when the handlers are called one
    after the other, each in the host state its predecessor left. *)
Fixpoint hooks_return {Ext} (fns : list (HookHandler Ext)) (args : list HookArg) (x : Ext)
  : Prop :=
  match fns with
  | [] => True
  | fn :: fns' =>
      exists x', hh_run fn args x = (Returns tt, x') /\ hooks_return fns' args x'
  end.

(** The host state after these calls. *)
Fixpoint hooks_final_ext {Ext} (fns : list (HookHandler Ext)) (args : list HookArg) (x : Ext)
  : Ext :=
  match fns with
  | [] => x
  | fn :: fns' => hooks_final_ext fns' args (snd (hh_run fn args x))
  end.


(** [updateAll] takes a plugin for outdated when its current version is
    not the wanted one. *)
Definition is_outdated {Ext} (E : Env Ext) (p : Plugin) : bool :=
  match getVersion E (Some p) with
  | Some version => negb (bool_decide (current version = wanted version))
  | None => false
  end.

(** The one call [updateAll] makes to the package manager. *)
Definition updateAll_call {Ext} (E : Env Ext) (dir : string) (outdated : list Plugin) : Event :=
  EUpdatePackage dir (getCommand E dir) (join " " (map plugin_id outdated)).


(** The command added last under an identifier. *)
Definition last_added {Ext} (cmds : list (MetaCommand Ext)) (id : string)
  : option (MetaCommand Ext) :=
  List.find (fun c => bool_decide (cmd_id c = id)) (rev cmds).


(** A relation between the installation state before and after that
    every run of [m] establishes, however the run ends. *)
Definition respectsI {Ext A} (R : InstallState Ext -> InstallState Ext -> Prop)
    (m : MI Ext A) : Prop :=
  forall s c s', m s = (c, s') -> R s s'.

(** The run made calls, all of them satisfying [Q], and changed nothing
    else. *)
Definition only_calls {Ext} (Q : InstallCall -> Prop) (s s' : InstallState Ext) : Prop :=
  world s' = world s
  /\ installationStep s' = installationStep s
  /\ eventsInstalled s' = eventsInstalled s
  /\ exists cs, calls s' = calls s ++ cs /\ Forall Q cs.

Definition is_package_manager_call (c : InstallCall) : bool :=
  match c with
  | CInstallPackage _ _ _ | CUninstallPackage _ _ _ => true
  | _ => false
  end.

Definition is_child_process_call (c : InstallCall) : bool :=
  match c with
  | CExeca _ _ _ | CSetProgressInfo _ _ => true
  | _ => false
  end.

(** What the [try] block of [initPrompts] has in [data] when it ends
    without an exception. *)
Definition loaded_prompts (m : PromptsModule) : option (list string) :=
  match m with
  | PromptsValue data => data
  | PromptsFunction (Returns data) => data
  | _ => None
  end.

(** The calls [initPrompts] makes between [prompts.reset] and
    [prompts.start]. *)
Definition prompts_calls (id : string) (data : option (list string)) : list InstallCall :=
  match data with
  | Some prompts => map CPromptsAdd prompts
  | None => [CConsoleWarn ("No prompts found for " +:+ id)]
  end.

(** The prompts module of a plugin, as [initPrompts] requires it. *)
Definition prompts_module_of {Ext} (E : InstallEnv Ext) (id dir : string) : PromptsModule :=
  require_prompts E (path_join E [dependencies_getPath E id dir; "prompts"]).

(** The object [getInstallation] builds in a state. *)
Definition installation_of {Ext} (E : InstallEnv Ext) (s : InstallState Ext) : Installation :=
  mkInstallation "plugin-install" (currentPluginId (world s)) (installationStep s)
    (prompts_list E (calls s)).


(** The child process [runInvoke] starts for a plugin with a generator,
    given the calls made before. *)
Definition invoke_child {Ext} (E : InstallEnv Ext) (id dir : string)
    (before : list InstallCall) : InstallCall :=
  CExeca "vue" ["invoke"; id; "--$inlineOptions"; prompts_getAnswers E before] dir.

(** The chunks of its output that are not empty once trimmed. *)
Definition child_texts {Ext} (E : InstallEnv Ext) (id : string) : list string :=
  List.filter truthy_string (child_stdout E id).

(** ** A small concrete setting to run the connector in

    Callbacks have no host state ([unit]).  The workspace is [/ws]; names
    containing [cli-plugin-] are plugins, those under [@vue/] official ones;
    every dependency is installed, no plugin module exists, no awaited call
    fails.  The project registry, the project type, the manifest and the
    local path reported by [getVersion] are the parameters. *)
Definition demo_env (project : option ProjectInfo) (type : string) (pkg : PackageJson)
    (local : option string) : Env unit :=
  mkEnv unit
    (fun _ => Some pkg)
    (fun parts => String.concat "/" parts)
    (string_contains "cli-plugin-")
    (string_prefix "@vue/")
    (fun _ => None)
    (fun _ _ => true)
    (fun _ => project)
    (fun _ => type)
    None
    None
    "/server"
    (fun _ _ => ModuleMissing)
    (fun _ _ => None)
    (fun _ => Some (mkVersion "1.0.0" "1.1.0" local))
    (fun _ => "yarn")
    false
    (fun _ => false).

Definition demo_project : ProjectInfo := mkProject "p1" "/ws".

Definition empty_manifest : PackageJson := mkPackageJson None None None None.

(** A manifest with the legacy bundle declaration and one sub-plugin. *)
Definition vuedesk_manifest : PackageJson :=
  mkPackageJson None (Some [("vue", "^2.6.0")]) None
    (Some (mkVuedesk "1.0.0" ["babel"])).

Definition demo_world : World unit := mkWorld ∅ ∅ ∅ None "/ws" ∅ tt [].

(** An instance for [/ws] with one view and one IPC handler registered. *)
Definition demo_instance : PluginApi unit :=
  mkPluginApi [] "/ws" demo_project false None
    (<["projectOpen" := []]> (<["pluginReload" := []]> ∅)) ∅ ["view-1"] ["ipc-1"] [] [].

Definition demo_world_with_instance : World unit :=
  set_pluginApiInstances (<["/ws" := demo_instance]> ∅) demo_world.


(** Three commands with the timestamps of the recency example, added on
    top of the built-in commands. *)
Definition demo_command (id : string) (type : CommandType) (label : string)
    (hidden : bool) (lastUsed : option Z) : MetaCommand unit :=
  mkCommand id type label None None hidden lastUsed None.

Definition cmd_a := demo_command "a" Action "alpha" false (Some 100).
Definition cmd_b := demo_command "b" Action "beta" false (Some 200).
Definition cmd_c := demo_command "c" Script "gamma" false None.

Definition recency_registry : Registry unit :=
  addCommands [cmd_a; cmd_b; cmd_c] initial_registry.



(** Two action handlers: the first throws, the second returns 5. *)
Definition handler_throws : ActionHandler unit :=
  mkActionHandler "h1" (fun _ x => (Throws (VError "boom"), x)).

Definition handler_five : ActionHandler unit :=
  mkActionHandler "h2" (fun _ x => (Returns (VNum 5), x)).

Definition demo_instance_with_action : PluginApi unit :=
  mkPluginApi [] "/ws" demo_project false None
    (<["projectOpen" := []]> (<["pluginReload" := []]> ∅))
    (<["build" := [handler_throws; handler_five]]> ∅) [] [] [] [].

Definition demo_world_with_action : World unit :=
  set_pluginApiInstances (<["/ws" := demo_instance_with_action]> ∅) demo_world.


(** The two entries discovered for [vuedesk_manifest]. *)
Definition bundle_plugin : Plugin :=
  mkPlugin VUEDESK_BUILD_BUNDLE "1.0.0" true true None "/ws" false.

Definition babel_plugin : Plugin :=
  mkPlugin "@vue/cli-plugin-babel" "1.0.0" true true None "/ws" true.

Definition vuedesk_env : Env unit := demo_env None "vue" vuedesk_manifest None.

(** The world after a first [list] of [/ws]. *)
Definition after_first_list : World unit :=
  snd (plugins_list vuedesk_env "/ws" default_ListOptions demo_world).

(** Two commands added under one identifier. *)
Definition cmd_dup_package := demo_command "dup" Package "foo-one" false None.
Definition cmd_dup_action := demo_command "dup" Action "bar" false None.





(** A manifest with the CLI service after two plugins. *)
Definition service_manifest : PackageJson :=
  mkPackageJson
    (Some [("@vue/cli-plugin-babel", "^4.0.0"); ("eslint", "^6.0.0");
           ("vue-cli-plugin-x", "^1.0.0"); ("@vue/cli-service", "^4.0.0")])
    (Some [("vue", "^2.6.0")]) None None.

(** The concrete setting without any readable manifest. *)
Definition no_manifest_env : Env unit :=
  mkEnv unit
    (fun _ => None) (fun parts => String.concat "/" parts)
    (string_contains "cli-plugin-") (string_prefix "@vue/") (fun _ => None)
    (fun _ _ => true) (fun _ => None) (fun _ => "vue") None None
    "/server" (fun _ _ => ModuleMissing) (fun _ _ => None)
    (fun _ => None) (fun _ => "yarn") false (fun _ => false).


(** Three hook handlers over a counter: the first two add to it, the one
    in between throws. *)
Definition hook_inc : HookHandler nat :=
  mkHookHandler "inc" (fun _ n => (Returns tt, S n)).

Definition hook_fail : HookHandler nat :=
  mkHookHandler "fail" (fun _ n => (Throws (VError "hook failed"), n)).

Definition counter_instance (fns : list (HookHandler nat)) : PluginApi nat :=
  mkPluginApi [] "/ws" demo_project false None
    (<["projectOpen" := fns]> ∅) ∅ [] [] [] [].

Definition counter_world (fns : list (HookHandler nat)) : World nat :=
  mkWorld ∅ (<["/ws" := counter_instance fns]> ∅) ∅ None "/ws" ∅ 0%nat [].


(** The concrete setting with a package manager that fails. *)
Definition failing_update_env : Env unit :=
  mkEnv unit
    (fun _ => Some empty_manifest) (fun parts => String.concat "/" parts)
    (string_contains "cli-plugin-") (string_prefix "@vue/") (fun _ => None)
    (fun _ _ => true) (fun _ => None) (fun _ => "vue") None None
    "/server" (fun _ _ => ModuleMissing) (fun _ _ => None)
    (fun _ => Some (mkVersion "1.0.0" "1.1.0" None)) (fun _ => "yarn") false
    is_package_manager_event.

(** A world whose store holds one plugin for [/ws]. *)
Definition plugin_x : Plugin :=
  mkPlugin "vue-cli-plugin-x" "^1.0.0" false true None "/ws" false.

Definition demo_world_with_plugin : World unit :=
  set_pluginsStore (<["/ws" := [plugin_x]]> ∅) demo_world.


(** The world after the listing that [updateAll] starts with. *)
Definition listed_for_update : World unit :=
  snd (plugins_list vuedesk_env "/ws" (mkListOptions false false true)
         (set_progress ({["plugins-update"]} ∪ ∅) demo_world)).


(** The bundle manifest again, with a registry that does not answer:
    every [getVersion] rejects. *)
Definition no_version_env : Env unit :=
  mkEnv unit
    (fun _ => Some vuedesk_manifest) (fun parts => String.concat "/" parts)
    (string_contains "cli-plugin-") (string_prefix "@vue/") (fun _ => None)
    (fun _ _ => true) (fun _ => None) (fun _ => "vue") None None
    "/server" (fun _ _ => ModuleMissing) (fun _ _ => None)
    (fun _ => None) (fun _ => "yarn") false (fun _ => false).

Definition listed_without_versions : World unit :=
  snd (plugins_list no_version_env "/ws" (mkListOptions false false true)
         (set_progress ({["plugins-update"]} ∪ ∅) demo_world)).


(** A setting for the installation operations: the prompts module and the
    presence of a generator are given, the prompts connector lists the
    prompts added, and the calls in [failing] reject. *)
Definition added_prompts (cs : list InstallCall) : list string :=
  omap (fun c => match c with CPromptsAdd p => Some p | _ => None end) cs.

Definition demo_install_env (E : Env unit) (module : PromptsModule) (generator : bool)
    (failing : InstallCall -> bool) : InstallEnv unit :=
  mkInstallEnv unit E
    (fun id file => file +:+ "/node_modules/" +:+ id)
    (fun parts => String.concat "/" parts)
    (fun _ => module)
    (fun _ _ => generator)
    added_prompts
    (fun _ => "{}")
    (fun _ => ["created src/main.js"; ""])
    failing.

Definition demo_install_state : InstallState unit := mkInstallState demo_world None false [].


(** * Properties *)

(** ** [Array.prototype.sort] *)

Section js_sort_facts.
Context {A : Type} (cmp : A -> A -> Z).

Lemma js_sort_insert_perm (x : A) (l : list A) :
  Permutation (js_sort_insert cmp x l) (x :: l).
Proof.
  induction l as [|y l IH]; simpl; [reflexivity|].
  destruct (0 <? cmp x y); [|reflexivity].
  rewrite IH. apply perm_swap.
Qed.

Lemma js_sort_perm (l : list A) : Permutation (js_sort cmp l) l.
Proof.
  induction l as [|x l IH]; simpl; [reflexivity|].
  rewrite js_sort_insert_perm. by constructor.
Qed.

Lemma js_sort_In (x : A) (l : list A) : In x (js_sort cmp l) <-> In x l.
Proof.
  split; apply Permutation_in; [apply js_sort_perm|].
  symmetry. apply js_sort_perm.
Qed.

Lemma js_sort_Forall (P : A -> Prop) (l : list A) :
  Forall P l -> Forall P (js_sort cmp l).
Proof. intros H. by rewrite js_sort_perm. Qed.

(** Stability: elements that the comparator never puts after one another
    keep their relative order. *)
Lemma js_sort_insert_filter (P : A -> bool) (x : A) (l : list A) :
  (forall a b, P a = true -> P b = true -> cmp a b <= 0) ->
  List.filter P (js_sort_insert cmp x l) = List.filter P (x :: l).
Proof.
  intros HP. induction l as [|y l IH]; [reflexivity|].
  simpl. destruct (0 <? cmp x y) eqn:Hc; [|reflexivity].
  apply Z.ltb_lt in Hc. simpl. rewrite IH. simpl.
  destruct (P x) eqn:Hx, (P y) eqn:Hy; try reflexivity.
  specialize (HP x y Hx Hy). lia.
Qed.

Lemma js_sort_filter (P : A -> bool) (l : list A) :
  (forall a b, P a = true -> P b = true -> cmp a b <= 0) ->
  List.filter P (js_sort cmp l) = List.filter P l.
Proof.
  intros HP. induction l as [|x l IH]; [reflexivity|].
  simpl js_sort. rewrite js_sort_insert_filter by done.
  simpl. by rewrite IH.
Qed.

(** Order: for a comparator that is total and transitive as a preorder,
    the result is sorted. *)
Hypothesis cmp_total : forall a b, 0 < cmp a b -> cmp b a <= 0.
Hypothesis cmp_trans : forall a b c, cmp a b <= 0 -> cmp b c <= 0 -> cmp a c <= 0.

Lemma js_sort_insert_sorted (x : A) (l : list A) :
  StronglySorted (fun a b => cmp a b <= 0) l ->
  StronglySorted (fun a b => cmp a b <= 0) (js_sort_insert cmp x l).
Proof.
  induction 1 as [|y l Hs IH Hy]; simpl.
  - repeat constructor.
  - destruct (0 <? cmp x y) eqn:Hc.
    + apply Z.ltb_lt in Hc. constructor; [done|].
      rewrite js_sort_insert_perm. constructor; [by apply cmp_total | done].
    + apply Z.ltb_ge in Hc. constructor; [by constructor|].
      constructor; [done|].
      eapply Forall_impl; [exact Hy|]. intros z Hz. by eapply cmp_trans.
Qed.

Lemma js_sort_sorted (l : list A) :
  StronglySorted (fun a b => cmp a b <= 0) (js_sort cmp l).
Proof.
  induction l as [|x l IH]; simpl; [constructor|].
  by apply js_sort_insert_sorted.
Qed.

End js_sort_facts.

Lemma StronglySorted_take {A} (R : A -> A -> Prop) (n : nat) (l : list A) :
  StronglySorted R l -> StronglySorted R (take n l).
Proof.
  intros H. rewrite <- (take_drop n l) in H.
  by apply StronglySorted_app_1_l in H.
Qed.

Lemma StronglySorted_lookup {A} (R : A -> A -> Prop) (l : list A) (i j : nat) (a b : A) :
  StronglySorted R l -> (i < j)%nat -> l !! i = Some a -> l !! j = Some b -> R a b.
Proof.
  intros Hs. revert i j a b.
  induction Hs as [|x l Hs IH Hx]; intros i j a b Hij Hi Hj.
  - by rewrite lookup_nil in Hi.
  - destruct j as [|j]; [lia|]. simpl in Hj. destruct i as [|i]; simpl in Hi.
    + injection Hi as <-. rewrite Forall_forall in Hx. apply Hx.
      by eapply list_elem_of_lookup_2.
    + apply (IH i j); [lia|done..].
Qed.

Lemma filter_take_prefix {A} (P : A -> bool) (n : nat) (l : list A) :
  exists rest, List.filter P l = List.filter P (take n l) ++ rest.
Proof.
  exists (List.filter P (drop n l)).
  rewrite <- List.filter_app. by rewrite take_drop.
Qed.

(** ** The command registry *)

Section commands_facts.
Context {Ext : Type}.
Implicit Types (c : MetaCommand Ext) (r : Registry Ext).

Lemma recent_cmp_total (a b : MetaCommand Ext) :
  0 < recent_cmp a b -> recent_cmp b a <= 0.
Proof. unfold recent_cmp. destruct (cmd_lastUsed a), (cmd_lastUsed b); lia. Qed.

Lemma recent_cmp_trans (a b c : MetaCommand Ext) :
  recent_cmp a b <= 0 -> recent_cmp b c <= 0 -> recent_cmp a c <= 0.
Proof.
  unfold recent_cmp.
  destruct (cmd_lastUsed a), (cmd_lastUsed b), (cmd_lastUsed c); lia.
Qed.

Lemma recent_cmp_ranks (a b : MetaCommand Ext) :
  recent_cmp a b <= 0 <-> ranks_not_below a b.
Proof.
  unfold recent_cmp, ranks_not_below.
  destruct (cmd_lastUsed a), (cmd_lastUsed b); intuition lia.
Qed.

Lemma recent_cmp_no_lastUsed (a b : MetaCommand Ext) :
  no_lastUsed a = true -> no_lastUsed b = true -> recent_cmp a b <= 0.
Proof.
  unfold no_lastUsed, recent_cmp.
  destruct (cmd_lastUsed a), (cmd_lastUsed b); intros; (done || lia).
Qed.

Lemma recent_candidate_spec (type : option CommandType) c :
  recent_candidate type c = true <->
  cmd_hidden c = false /\
  match type with
  | Some t => cmd_type c = t
  | None => cmd_type c <> Help
  end.
Proof.
  unfold recent_candidate. destruct type as [t|];
    rewrite andb_true_iff, negb_true_iff.
  - by rewrite bool_decide_eq_true.
  - by rewrite negb_true_iff, bool_decide_eq_false.
Qed.

Lemma getRecentCommands_Forall (P : MetaCommand Ext -> Prop) type r :
  Forall P (recent_candidates type r) -> Forall P (getRecentCommands type r).
Proof.
  intros H. unfold getRecentCommands. apply Forall_take.
  by apply js_sort_Forall.
Qed.

Lemma query_text_empty (text : string) :
  query_text text = "" ->
  match getSeachType text with
  | Some _ => substr1 text
  | None => text
  end = "".
Proof. done. Qed.

End commands_facts.

(** C5.  Searching with an empty query (after the type prefix has been
    taken off) gives the recent commands of the selected scope: at most 20
    of them, all taken from the command list and none hidden; none of type
    help when no prefix was given, and all of the prefix's type otherwise;
    in descending order of [lastUsed], every command with a timestamp
    before every command without one; the commands without a timestamp in
    the order they have in the command list.  For the list a (lastUsed
    T1), b (lastUsed T2 > T1), c (no lastUsed) the result is b, a, c. *)
Theorem recent_commands_on_empty_query {Ext} (L : Lunr) (r : Registry Ext) (text : string) :
  query_text text = "" ->
  let type := getSeachType text in
  let recent := getRecentCommands type r in
  searchCommands L text r = map Some recent
  /\ (length recent <= 20)%nat
  /\ Forall (fun c => In c (commands r) /\ cmd_hidden c = false) recent
  /\ (type = None -> Forall (fun c => cmd_type c <> Help) recent)
  /\ (forall t, type = Some t -> Forall (fun c => cmd_type c = t) recent)
  /\ (forall i j a b, (i < j)%nat -> recent !! i = Some a -> recent !! j = Some b ->
        ranks_not_below a b)
  /\ (exists rest, List.filter no_lastUsed (recent_candidates type r)
                   = List.filter no_lastUsed recent ++ rest)
  /\ (forall a b c T1 T2,
        recent_candidates type r = [a; b; c] ->
        cmd_lastUsed a = Some T1 -> cmd_lastUsed b = Some T2 -> T1 < T2 ->
        cmd_lastUsed c = None ->
        recent = [b; a; c]).
Proof.
  intros Hq type recent.
  assert (Hcand : Forall (fun c => In c (commands r) /\ recent_candidate type c = true)
                    (recent_candidates type r)).
  { apply List.Forall_forall. intros c Hc. by apply List.filter_In in Hc. }
  split.
  { unfold searchCommands. cbv zeta. rewrite (query_text_empty _ Hq). done. }
  split.
  { unfold recent, getRecentCommands. rewrite length_take. lia. }
  split.
  { apply getRecentCommands_Forall. eapply Forall_impl; [exact Hcand|].
    intros c [Hin Hc]. apply recent_candidate_spec in Hc. tauto. }
  split.
  { intros Ht. apply getRecentCommands_Forall. eapply Forall_impl; [exact Hcand|].
    intros c [_ Hc]. apply recent_candidate_spec in Hc. rewrite Ht in Hc. tauto. }
  split.
  { intros t Ht. apply getRecentCommands_Forall. eapply Forall_impl; [exact Hcand|].
    intros c [_ Hc]. apply recent_candidate_spec in Hc. rewrite Ht in Hc. tauto. }
  split.
  { intros i j a b Hij Hi Hj. apply recent_cmp_ranks.
    eapply (StronglySorted_lookup (fun a b => recent_cmp a b <= 0)); [|exact Hij|exact Hi|exact Hj].
    apply StronglySorted_take, js_sort_sorted.
    - apply recent_cmp_total.
    - apply recent_cmp_trans. }
  split.
  { unfold recent, getRecentCommands. fold (recent_candidates type r).
    rewrite <- (js_sort_filter recent_cmp no_lastUsed (recent_candidates type r))
      by apply recent_cmp_no_lastUsed.
    apply filter_take_prefix. }
  intros a b c T1 T2 Hc Ha Hb HT Hn.
  unfold recent, getRecentCommands. fold (recent_candidates type r). rewrite Hc.
  assert (Hbc : recent_cmp b c = -1) by (unfold recent_cmp; by rewrite Hb, Hn).
  assert (Hac : recent_cmp a c = -1) by (unfold recent_cmp; by rewrite Ha, Hn).
  assert (Hab : recent_cmp a b = T2 - T1) by (unfold recent_cmp; by rewrite Ha, Hb).
  cbn [js_sort js_sort_insert]. rewrite Hbc. cbn [Z.ltb Z.compare js_sort_insert].
  rewrite Hab. destruct (0 <? T2 - T1) eqn:Hlt.
  - cbn [js_sort_insert]. rewrite Hac. reflexivity.
  - apply Z.ltb_ge in Hlt. lia.
Qed.

Section registry_facts.
Context {Ext : Type}.
Implicit Types (c : MetaCommand Ext) (r : Registry Ext) (cmds : list (MetaCommand Ext)).

Lemma addCommands_cons c cmds r :
  addCommands (c :: cmds) r = addCommands cmds (addCommand c r).
Proof. reflexivity. Qed.

Lemma addCommands_commands cmds r :
  commands (addCommands cmds r) = commands r ++ cmds.
Proof.
  revert r. induction cmds as [|c cmds IH]; intros r.
  - simpl. by rewrite app_nil_r.
  - rewrite addCommands_cons, IH. simpl. by rewrite <- app_assoc.
Qed.

Lemma addCommands_globalSearchIndex cmds r :
  globalSearchIndex (addCommands cmds r)
  = globalSearchIndex r ++ map doc_of (List.filter (fun c => negb (cmd_hidden c)) cmds).
Proof.
  revert r. induction cmds as [|c cmds IH]; intros r.
  - simpl. by rewrite app_nil_r.
  - rewrite addCommands_cons, IH. simpl. destruct (cmd_hidden c); simpl; [done|].
    unfold addDoc. by rewrite <- app_assoc.
Qed.

Lemma addCommands_searchIndexes cmds r (t : CommandType) :
  searchIndexes (addCommands cmds r) t
  = searchIndexes r t
    ++ map doc_of (List.filter (fun c => negb (cmd_hidden c) && bool_decide (cmd_type c = t)) cmds).
Proof.
  revert r. induction cmds as [|c cmds IH]; intros r.
  - simpl. by rewrite app_nil_r.
  - rewrite addCommands_cons, IH. simpl. destruct (cmd_hidden c); simpl; [done|].
    destruct (decide (t = cmd_type c)) as [->|Hne].
    + rewrite bool_decide_eq_true_2 by done. unfold addDoc. simpl. by rewrite <- app_assoc.
    + rewrite bool_decide_eq_false_2 by done. done.
Qed.



Lemma lunr_search_In (L : Lunr) (idx : LunrIndex) (q ref : string) :
  In ref (lunr_search L idx q) <->
  exists d, In d idx /\ doc_ref d = ref /\ lunr_matches L q (doc_label d) = true.
Proof.
  unfold lunr_search. rewrite in_map_iff. split.
  - intros (d & Hd & Hin). apply js_sort_In in Hin.
    apply List.filter_In in Hin as [Hin Hm]. by exists d.
  - intros (d & Hin & Hd & Hm). exists d. split; [done|].
    apply js_sort_In. by apply List.filter_In.
Qed.



End registry_facts.

Section search_facts.
Context {Ext : Type}.
Implicit Types (c : MetaCommand Ext) (cmds : list (MetaCommand Ext)).

(** The index a query is looked up in. *)
Lemma scoped_index_docs cmds (scope : option CommandType) (d : LunrDoc) :
  In d match scope with
       | Some t => searchIndexes (addCommands cmds empty_registry) t
       | None => globalSearchIndex (addCommands cmds empty_registry)
       end
  <-> exists c, d = doc_of c /\ In c cmds /\ cmd_hidden c = false
                /\ (forall t, scope = Some t -> cmd_type c = t).
Proof.
  destruct scope as [t|].
  - rewrite addCommands_searchIndexes. simpl. rewrite in_map_iff. split.
    + intros (c & <- & Hc). apply List.filter_In in Hc as [Hin Hc].
      apply andb_true_iff in Hc as [Hh Ht]. apply negb_true_iff in Hh.
      apply bool_decide_eq_true in Ht. exists c. repeat split; try done.
      intros t' [= <-]. done.
    + intros (c & -> & Hin & Hh & Ht). exists c. split; [done|].
      apply List.filter_In. split; [done|]. rewrite Hh. simpl.
      apply bool_decide_eq_true. by apply Ht.
  - rewrite addCommands_globalSearchIndex. simpl. rewrite in_map_iff. split.
    + intros (c & <- & Hc). apply List.filter_In in Hc as [Hin Hh].
      apply negb_true_iff in Hh. exists c. repeat split; done.
    + intros (c & -> & Hin & Hh & _). exists c. split; [done|].
      apply List.filter_In. by rewrite Hh.
Qed.


End search_facts.


Section run_facts.
Context {Ext : Type}.
Implicit Types (c : MetaCommand Ext) (r : Registry Ext) (w : CmdWorld Ext).

Lemma find_by_id_None (id : string) (l : list (MetaCommand Ext)) :
  ~ In id (map cmd_id l) ->
  List.find (fun c => bool_decide (cmd_id c = id)) l = None.
Proof.
  induction l as [|c l IH]; [done|]. simpl. intros H.
  rewrite bool_decide_eq_false_2 by tauto. apply IH. tauto.
Qed.

Lemma find_by_id_Some (id : string) (l : list (MetaCommand Ext)) :
  In id (map cmd_id l) ->
  exists c, List.find (fun c => bool_decide (cmd_id c = id)) l = Some c
            /\ In c l /\ cmd_id c = id.
Proof.
  induction l as [|c l IH]; [done|]. simpl. intros H.
  destruct (decide (cmd_id c = id)) as [Heq|Hne].
  - exists c. rewrite bool_decide_eq_true_2 by done. tauto.
  - rewrite bool_decide_eq_false_2 by done.
    destruct IH as (c' & Hf & Hin & Hid); [tauto|]. exists c'. tauto.
Qed.

(** A handler that throws ends [runCommand]: the exception reaches the
    caller and nothing is published. *)
Lemma runCommand_handler_throws (id : string) (ctx : Context) r w c h e x :
  List.find (fun c => bool_decide (cmd_id c = id)) (commands r) = Some c ->
  cmd_handler c = Some h ->
  h (cw_ext w) = (Throws e, x) ->
  runCommand id ctx r w
  = (Throws e, mkCmdWorld x (cw_trace w ++ [CmdHandlerCalled (cmd_id c)])).
Proof. intros Hf Hh Hr. unfold runCommand. by rewrite Hf, Hh, Hr. Qed.

End run_facts.

(** C9.  [runCommand] with an identifier that no command has logs a
    warning and returns null, leaving everything else as it was.  With an
    identifier that a command has, it takes the first such command, hidden
    or not; when the command has no handler it publishes [commandRan] with
    the command and the client's identity and returns the command; when
    the command has a handler it first calls the handler, without
    arguments, and after the handler's return publishes and returns in the
    same way. *)
Theorem runCommand_behaviour {Ext} (id : string) (ctx : Context)
    (r : Registry Ext) (w : CmdWorld Ext) :
  (~ In id (map cmd_id (commands r)) ->
   runCommand id ctx r w
   = (Returns None,
      mkCmdWorld (cw_ext w) (cw_trace w ++ [CmdWarn ("Command " +:+ id +:+ " not found")])))
  /\ (In id (map cmd_id (commands r)) ->
      exists c,
        List.find (fun c => bool_decide (cmd_id c = id)) (commands r) = Some c
        /\ In c (commands r) /\ cmd_id c = id
        /\ (cmd_handler c = None ->
            runCommand id ctx r w
            = (Returns (Some c),
               mkCmdWorld (cw_ext w)
                 (cw_trace w ++ [CmdPublish "commandRan" c (getClientId ctx)])))
        /\ (forall h x, cmd_handler c = Some h -> h (cw_ext w) = (Returns tt, x) ->
            runCommand id ctx r w
            = (Returns (Some c),
               mkCmdWorld x
                 (cw_trace w ++ [CmdHandlerCalled id;
                                 CmdPublish "commandRan" c (getClientId ctx)])))).
Proof.
  split.
  - intros H. unfold runCommand. by rewrite find_by_id_None.
  - intros H. destruct (find_by_id_Some id (commands r) H) as (c & Hf & Hin & Hid).
    exists c. repeat split; try done.
    + intros Hh. unfold runCommand. by rewrite Hf, Hh.
    + intros h x Hh Hr. unfold runCommand. rewrite Hf, Hh, Hr. simpl.
      by rewrite Hid, <- app_assoc.
Qed.

(** ** The plugin connector *)

Section monad_facts.
Context {Ext : Type}.
Implicit Types (w : World Ext).

Lemma set_trace_trace w : set_trace (trace w) w = w.
Proof. by destruct w. Qed.

Lemma emit_run (e : Event) w :
  emit e w = (Returns tt, set_trace (trace w ++ [e]) w).
Proof. reflexivity. Qed.

Lemma emit_all_run (es : list Event) w :
  emit_all es w = (Returns tt, set_trace (trace w ++ es) w).
Proof.
  revert w. induction es as [|e es IH]; intros w; simpl.
  - by rewrite app_nil_r, set_trace_trace.
  - unfold bind. rewrite emit_run, IH. simpl. by rewrite <- app_assoc.
Qed.

Lemma bind_run {A B} (m : M Ext A) (k : A -> M Ext B) w a w1 :
  m w = (Returns a, w1) -> bind m k w = k a w1.
Proof. intros H. unfold bind. by rewrite H. Qed.

Section respects_facts.
Context (R : World Ext -> World Ext -> Prop).
Hypothesis R_refl : forall w, R w w.
Hypothesis R_trans : forall w1 w2 w3, R w1 w2 -> R w2 w3 -> R w1 w3.

Lemma respects_ret {A} (a : A) : respects R (ret a).
Proof. intros w c w' [= _ <-]. apply R_refl. Qed.

Lemma respects_throw {A} (e : JSVal) : respects R (@throw Ext A e).
Proof. intros w c w' [= _ <-]. apply R_refl. Qed.

Lemma respects_get_world : respects R get_world.
Proof. intros w c w' [= _ <-]. apply R_refl. Qed.

Lemma respects_pending {A} : respects R (fun w => (@Pending A, w)).
Proof. intros w c w' [= _ <-]. apply R_refl. Qed.

Lemma respects_modify (f : World Ext -> World Ext) :
  (forall w, R w (f w)) -> respects R (modify f).
Proof. intros Hf w c w' [= _ <-]. apply Hf. Qed.

Lemma respects_bind {A B} (m : M Ext A) (k : A -> M Ext B) :
  respects R m -> (forall a, respects R (k a)) -> respects R (bind m k).
Proof.
  intros Hm Hk w c w' H. unfold bind in H.
  destruct (m w) as [[a| |] w1] eqn:Hr.
  - eapply R_trans; [by eapply Hm | by eapply Hk].
  - injection H as _ <-. by eapply Hm.
  - injection H as _ <-. by eapply Hm.
Qed.

Lemma respects_in_timeout {A} (m : M Ext A) :
  respects R m -> respects R (in_timeout m).
Proof.
  intros Hm w c w' H. unfold in_timeout in H.
  destruct (m w) as [[a| |] w1] eqn:Hr; injection H as _ <-; by eapply Hm.
Qed.

Lemma respects_run_all (ms : list (M Ext unit)) :
  Forall (respects R) ms -> respects R (run_all ms).
Proof.
  induction 1 as [|m ms Hm _ IH]; simpl.
  - apply respects_ret.
  - apply respects_bind; [done|]. intros _. exact IH.
Qed.

(** Relations that hold across every step the reset protocol takes: an
    event other than a file or package-manager call, a change of the host
    state, a change of the instance map. *)
Hypothesis R_emit : forall e w,
  is_transfer_event e = false -> R w (set_trace (trace w ++ [e]) w).
Hypothesis R_ext : forall x w, R w (set_ext x w).
Hypothesis R_inst : forall s w, R w (set_pluginApiInstances s w).

Lemma respects_emit (e : Event) :
  is_transfer_event e = false -> respects R (emit e).
Proof. intros He. apply respects_modify. intros w. by apply R_emit. Qed.

Lemma respects_emit_all (es : list Event) :
  Forall (fun e => is_transfer_event e = false) es -> respects R (emit_all es).
Proof.
  induction 1 as [|e es He _ IH]; simpl.
  - apply respects_ret.
  - apply respects_bind; [by apply respects_emit|]. intros _. exact IH.
Qed.

Ltac respects_step :=
  first
    [ apply respects_ret
    | apply respects_throw
    | apply respects_get_world
    | apply respects_pending
    | apply respects_emit; reflexivity
    | apply respects_modify; intros ?;
      solve [ apply R_inst | apply R_ext
            | eapply R_trans; [apply R_inst | apply R_ext] ]
    | apply respects_bind; [|intros ?]
    | match goal with
      | |- respects _ (match ?x with _ => _ end) => destruct x
      | |- respects _ (if ?b then _ else _) => destruct b
      | |- respects _ (let '(_, _) := ?x in _) => destruct x
      end ].

Lemma respects_run_hooks (id : string) (fns : list (HookHandler Ext)) (args : list HookArg) :
  respects R (run_hooks id fns args).
Proof.
  induction fns as [|fn fns IH]; simpl.
  - apply respects_ret.
  - apply respects_bind; [by apply respects_emit|]. intros _.
    apply respects_bind; [|intros _; exact IH].
    intros w c w' H. destruct (hh_run fn args (ext w)) as [c0 x].
    injection H as _ <-. apply R_ext.
Qed.

Lemma respects_callHook (id : string) (args : list HookArg) (file : string) :
  respects R (callHook id args file).
Proof.
  unfold callHook. repeat respects_step. apply respects_run_hooks.
Qed.

Lemma respects_runPluginApi (E : Env Ext) (id file ref dir : string) :
  respects R (runPluginApi E id file ref dir).
Proof.
  unfold runPluginApi. apply respects_bind.
  - destruct (loadModule E file dir) as [| | |module]; repeat respects_step.
  - intros _. repeat respects_step.
Qed.

Lemma respects_resetPluginApi_deferred (E : Env Ext) (file : string) (lightApi : bool)
    (projectId : option string) :
  respects R (resetPluginApi_deferred E file lightApi projectId).
Proof.
  unfold resetPluginApi_deferred.
  destruct (findByPath E file) as [project|]; [|apply respects_ret].
  apply respects_bind; [apply respects_get_world|]. intros w0.
  destruct (negb _); [apply respects_ret|].
  apply respects_bind; [repeat respects_step|]. intros _.
  apply respects_bind; [apply respects_runPluginApi|]. intros _.
  apply respects_bind.
  { apply respects_run_all; [done..|]. apply Forall_map, Forall_true.
    intros p. apply respects_runPluginApi. }
  intros _. apply respects_bind; [apply respects_get_world|]. intros w1.
  destruct (pkgStore w1 !! file) as [[pkgContext pkg]|]; [|apply respects_throw].
  apply respects_bind.
  { destruct (vuePlugins pkg) as [[from [files|]]|]; try apply respects_ret.
    apply respects_run_all; [done..|]. apply Forall_map, Forall_true.
    intros p. apply respects_runPluginApi. }
  intros _. apply respects_bind; [apply respects_get_world|]. intros w2.
  destruct (pluginApiInstances w2 !! file) as [api|]; [|apply respects_throw].
  apply respects_bind; [apply respects_emit_all; by apply Forall_map, Forall_true|].
  intros _.
  apply respects_bind; [apply respects_emit_all; by apply Forall_map, Forall_true|].
  intros _.
  apply respects_bind; [apply respects_emit_all; by apply Forall_map, Forall_true|].
  intros _. destruct lightApi; [apply respects_ret|].
  apply respects_bind.
  { destruct (negb _).
    - apply respects_callHook.
    - apply respects_bind; [apply respects_callHook|]. intros _. repeat respects_step. }
  intros _. repeat respects_step.
Qed.

Lemma respects_resetPluginApi (E : Env Ext) (file : string) (lightApi : bool) :
  respects R (resetPluginApi E file lightApi).
Proof.
  unfold resetPluginApi.
  apply respects_bind; [by apply respects_emit|]. intros _.
  apply respects_bind; [apply respects_get_world|]. intros w0.
  apply respects_bind.
  { destruct (pluginApiInstances w0 !! file) as [api|]; [|apply respects_ret].
    apply respects_bind; [apply respects_emit_all; by apply Forall_map, Forall_true|].
    intros _. apply respects_emit_all. by apply Forall_map, Forall_true. }
  intros _. apply respects_bind.
  { destruct lightApi; repeat respects_step. }
  intros _. apply respects_in_timeout, respects_resetPluginApi_deferred.
Qed.


End respects_facts.
End monad_facts.

Section reset_facts.
Context {Ext : Type}.
Implicit Types (w : World Ext) (E : Env Ext).

Lemma extends_trace_refl (Q : Event -> Prop) w : extends_trace Q w w.
Proof. exists []. by rewrite app_nil_r. Qed.

Lemma extends_trace_trans (Q : Event -> Prop) w1 w2 w3 :
  extends_trace Q w1 w2 -> extends_trace Q w2 w3 -> extends_trace Q w1 w3.
Proof.
  intros (es1 & H1 & Q1) (es2 & H2 & Q2). exists (es1 ++ es2). split.
  - by rewrite H2, H1, <- app_assoc.
  - by apply Forall_app.
Qed.

(** The reset protocol never writes [pluginsStore]. *)
Lemma resetPluginApi_same_pluginsStore E (file : string) (lightApi : bool) :
  respects same_pluginsStore (resetPluginApi E file lightApi).
Proof.
  apply respects_resetPluginApi; unfold same_pluginsStore; try done.
  intros w1 w2 w3 H1 H2. by rewrite H2.
Qed.

(** The reset protocol moves no file and runs no package manager. *)
Lemma resetPluginApi_no_transfer E (file : string) (lightApi : bool) :
  respects (extends_trace (fun e => is_transfer_event e = false))
    (resetPluginApi E file lightApi).
Proof.
  apply respects_resetPluginApi.
  - apply extends_trace_refl.
  - apply extends_trace_trans.
  - intros e w He. exists [e]. split; [done|]. by constructor.
  - intros x w. exists []. simpl. by rewrite app_nil_r.
  - intros s w. exists []. simpl. by rewrite app_nil_r.
Qed.


Lemma set_trace_set_trace (t1 t2 : list Event) w :
  set_trace t2 (set_trace t1 w) = set_trace t2 w.
Proof. reflexivity. Qed.

(** A step that only appends the events [es]. *)
Lemma emits_then {B} (m : M Ext unit) (es : list Event) (k : M Ext B) w :
  (forall w, m w = (Returns tt, set_trace (trace w ++ es) w)) ->
  bind m (fun _ => k) w = k (set_trace (trace w ++ es) w).
Proof. intros Hm. unfold bind. by rewrite Hm. Qed.

Lemma cleanup_views_run (pluginApi : option (PluginApi Ext)) w :
  match pluginApi with
  | Some api =>
      let* _ := emit_all (map EViewsRemove (api_views api)) in
      emit_all (map EIpcOff (api_ipcHandlers api))
  | None => ret tt
  end w
  = (Returns tt,
     set_trace (trace w ++ match pluginApi with
                           | Some api => map EViewsRemove (api_views api)
                                         ++ map EIpcOff (api_ipcHandlers api)
                           | None => []
                           end) w).
Proof.
  destruct pluginApi as [api|].
  - rewrite (emits_then _ _ _ _ (emit_all_run _)), emit_all_run.
    rewrite set_trace_set_trace. simpl. by rewrite <- app_assoc.
  - unfold ret. by rewrite app_nil_r, set_trace_trace.
Qed.

Lemma cleanup_registries_run (lightApi : bool) (projectId : option string) w :
  (if lightApi then ret tt
   else
     let* _ :=
       match projectId with
       | Some id => if truthy_string id then emit (EUnWatchAll id) else ret tt
       | None => ret tt
       end in
     let* _ := emit EClientAddonsClear in
     let* _ := emit ESuggestionsClear in
     emit EWidgetsReset) w
  = (Returns tt,
     set_trace (trace w ++ if lightApi then []
                           else match projectId with
                                | Some id =>
                                    if truthy_string id then [EUnWatchAll id] else []
                                | None => []
                                end
                                ++ [EClientAddonsClear; ESuggestionsClear; EWidgetsReset]) w).
Proof.
  destruct lightApi.
  - unfold ret. by rewrite app_nil_r, set_trace_trace.
  - assert (Hwatch : forall w,
      match projectId with
      | Some id => if truthy_string id then emit (EUnWatchAll id) else ret tt
      | None => ret tt
      end w
      = (Returns tt,
         set_trace (trace w ++ match projectId with
                               | Some id =>
                                   if truthy_string id then [EUnWatchAll id] else []
                               | None => []
                               end) w)).
    { intros w0. destruct projectId as [id|]; [destruct (truthy_string id)|];
        try apply emit_run; unfold ret; by rewrite app_nil_r, set_trace_trace. }
    rewrite (emits_then _ _ _ _ Hwatch).
    rewrite (emits_then _ _ _ _ (emit_run _)), (emits_then _ _ _ _ (emit_run _)).
    rewrite emit_run, !set_trace_set_trace. cbn [trace set_trace].
    by rewrite <- !app_assoc.
Qed.

(** The clean-up phase: what it calls, and that it changes nothing but
    the trace before the deferred part runs. *)
Lemma resetPluginApi_cleanup E (file : string) (lightApi : bool) w :
  resetPluginApi E file lightApi w
  = in_timeout
      (resetPluginApi_deferred E file lightApi
         (option_map (fun api => project_id (api_project api))
            (pluginApiInstances w !! file)))
      (set_trace (trace w ++ ELog "Plugin API reloading..."
                    :: cleanup_events (pluginApiInstances w !! file) lightApi) w).
Proof.
  unfold resetPluginApi.
  rewrite (emits_then _ [ELog "Plugin API reloading..."] _ _ (emit_run _)).
  unfold bind at 1. unfold get_world at 1. cbv iota beta.
  change (pluginApiInstances (set_trace _ w)) with (pluginApiInstances w).
  rewrite (emits_then _ _ _ _ (cleanup_views_run _)).
  rewrite (emits_then _ _ _ _ (cleanup_registries_run _ _)).
  rewrite !set_trace_set_trace. cbn [trace set_trace].
  f_equal. f_equal. unfold cleanup_events. rewrite <- !app_assoc. simpl.
  destruct (pluginApiInstances w !! file); reflexivity.
Qed.

End reset_facts.

(** C1, as amended.  When no project resolves for the workspace path, or
    the project is not of type vue, [resetPluginApi] resolves with false
    after the clean-up calls and creates no instance; it leaves the
    instance map as it was: a workspace without an instance still has
    none, and an instance registered before the call is still registered
    under its key. *)
Theorem resetPluginApi_false_keeps_instances {Ext} (E : Env Ext) (file : string)
    (lightApi : bool) (w : World Ext) :
  (findByPath E file = None
   \/ exists project, findByPath E file = Some project /\ getType E project <> "vue") ->
  exists w',
    resetPluginApi E file lightApi w = (Returns false, w')
    /\ pluginApiInstances w' = pluginApiInstances w
    /\ pluginsStore w' = pluginsStore w
    /\ trace w' = trace w ++ ELog "Plugin API reloading..."
                    :: cleanup_events (pluginApiInstances w !! file) lightApi.
Proof.
  intros H. rewrite resetPluginApi_cleanup. unfold in_timeout, resetPluginApi_deferred.
  destruct H as [-> | (project & -> & Ht)].
  - eexists. split; [reflexivity|]. done.
  - unfold bind, get_world. rewrite bool_decide_eq_false_2 by done. simpl.
    eexists. split; [reflexivity|]. done.
Qed.

(** C1, witness: a workspace with a registered instance and no project. *)
Lemma resetPluginApi_false_keeps_instances_witness :
  exists w',
    resetPluginApi (demo_env None "vue" empty_manifest None) "/ws" false
      demo_world_with_instance = (Returns false, w')
    /\ pluginApiInstances w' !! "/ws" = Some demo_instance
    /\ trace w' = [ELog "Plugin API reloading..."; EViewsRemove "view-1"; EIpcOff "ipc-1";
                   EUnWatchAll "p1"; EClientAddonsClear; ESuggestionsClear; EWidgetsReset].
Proof.
  destruct (resetPluginApi_false_keeps_instances
              (demo_env None "vue" empty_manifest None) "/ws" false
              demo_world_with_instance (or_introl eq_refl))
    as (w' & Hrun & Hinst & _ & Htrace).
  exists w'. split; [exact Hrun|]. split.
  - rewrite Hinst. reflexivity.
  - rewrite Htrace. reflexivity.
Defined.

(** C1, counterexample to the claim as stated: the reset resolves with
    false for a workspace without a project, and the instance that was
    registered before the call is still registered after it. *)
Lemma resetPluginApi_false_instance_remains :
  ~ (forall (E : Env unit) (file : string) (lightApi : bool) (w w' : World unit),
       findByPath E file = None ->
       resetPluginApi E file lightApi w = (Returns false, w') ->
       pluginApiInstances w' !! file = None).
Proof.
  intros H.
  specialize (H (demo_env None "vue" empty_manifest None) "/ws" false
                demo_world_with_instance
                (snd (resetPluginApi (demo_env None "vue" empty_manifest None) "/ws" false
                        demo_world_with_instance))
                eq_refl eq_refl).
  vm_compute in H. discriminate H.
Qed.

Section action_facts.
Context {Ext : Type}.
Implicit Types (w : World Ext) (handlers : list (ActionHandler Ext)).

Lemma action_outcomes_length handlers (params : JSVal) (x : Ext) :
  Forall settled (action_outcomes handlers params x) ->
  length (action_outcomes handlers params x) = length handlers.
Proof.
  revert x. induction handlers as [|cb handlers IH]; intros x; [done|].
  simpl. destruct (ah_run cb params x) as [[v|e|] x'] eqn:Hr; simpl.
  - intros H. apply Forall_cons in H as [_ H]. by rewrite IH.
  - intros H. apply Forall_cons in H as [_ H]. by rewrite IH.
  - intros H. by apply Forall_cons in H as [[] _].
Qed.

(** The loop of [callAction], when every handler settles. *)
Lemma run_actions_settled (id : string) handlers (params : JSVal) (rs es : list JSVal) w :
  Forall settled (action_outcomes handlers params (ext w)) ->
  exists w',
    run_actions id handlers params rs es w
    = (Returns (rs ++ map result_of (action_outcomes handlers params (ext w)),
                es ++ map error_of (action_outcomes handlers params (ext w))), w')
    /\ trace w' = trace w ++ map (fun cb => EActionHandler id (ah_name cb) params) handlers
    /\ ext w' = action_final_ext handlers params (ext w)
    /\ pluginApiInstances w' = pluginApiInstances w
    /\ pluginsStore w' = pluginsStore w.
Proof.
  revert rs es w. induction handlers as [|cb handlers IH]; intros rs es w Hs.
  - exists w. simpl. by rewrite !app_nil_r.
  - simpl in Hs |- *. unfold bind at 1. rewrite emit_run.
    unfold bind at 1. unfold get_world at 1. cbv iota beta.
    cbn [ext set_trace].
    destruct (ah_run cb params (ext w)) as [[v|e|] x'] eqn:Hr.
    + apply Forall_cons in Hs as [_ Hs]. unfold bind at 1. unfold modify at 1.
      cbv iota beta.
      destruct (IH (rs ++ [v]) (es ++ [VNull])
                  (set_ext x' (set_trace (trace w ++ [EActionHandler id (ah_name cb) params]) w)))
        as (w' & Hrun & Htr & Hx & Hi & Hp); [exact Hs|].
      exists w'. rewrite Hrun. cbn [ext set_ext] in *.
      rewrite <- !app_assoc. repeat split; try done.
      rewrite Htr. cbn. by rewrite <- app_assoc.
    + apply Forall_cons in Hs as [_ Hs]. unfold bind at 1. unfold modify at 1.
      cbv iota beta.
      destruct (IH (rs ++ [VNull]) (es ++ [e])
                  (set_ext x' (set_trace (trace w ++ [EActionHandler id (ah_name cb) params]) w)))
        as (w' & Hrun & Htr & Hx & Hi & Hp); [exact Hs|].
      exists w'. rewrite Hrun. cbn [ext set_ext] in *.
      rewrite <- !app_assoc. repeat split; try done.
      rewrite Htr. cbn. by rewrite <- app_assoc.
    + by apply Forall_cons in Hs as [[] _].
Qed.

End action_facts.

(** C4.  For an action with registered handlers, all of which settle,
    [callAction] calls every handler, one after the other in registration
    order, whatever the earlier ones did; it resolves with [results] and
    [errors] of the length of the handler list, where position [i] holds
    the value handler [i] returned and null, or null and the value it
    threw.  The "called" event is published before the first handler and
    the "resolved" event, carrying both arrays, after the last.  For a
    first handler that throws [e] and a second that returns 5, [results]
    is null, 5 and [errors] is [e], null. *)
Theorem callAction_dispatch {Ext} (id : string) (params : JSVal) (file : option string)
    (w : World Ext) (pluginApi : PluginApi Ext) (handlers : list (ActionHandler Ext)) :
  getApi (default (cwd w) file) w = Some pluginApi ->
  api_actions pluginApi !! id = Some handlers ->
  Forall settled (action_outcomes handlers params (ext w)) ->
  exists res w',
    callAction id params file w = (Returns res, w')
    /\ ar_id res = id /\ ar_params res = params
    /\ results res = map result_of (action_outcomes handlers params (ext w))
    /\ errors res = map error_of (action_outcomes handlers params (ext w))
    /\ length (results res) = length handlers
    /\ length (errors res) = length handlers
    /\ (forall i r e, results res !! i = Some r -> errors res !! i = Some e ->
          r = VNull \/ e = VNull)
    /\ trace w'
       = trace w
         ++ [EPublish PLUGIN_ACTION_CALLED (PluginActionCalled id params);
             ELog "PluginAction called"]
         ++ map (fun cb => EActionHandler id (ah_name cb) params) handlers
         ++ [EPublish PLUGIN_ACTION_RESOLVED
               (PluginActionResolved id params (results res) (errors res));
             ELog "PluginAction resolved"]
    /\ (forall h1 h2 e x1 x2,
          handlers = [h1; h2] ->
          ah_run h1 params (ext w) = (Throws e, x1) ->
          ah_run h2 params x1 = (Returns (VNum 5), x2) ->
          results res = [VNull; VNum 5] /\ errors res = [e; VNull]).
Proof.
  intros Hapi Hact Hs.
  set (w1 := set_trace (trace w ++ [EPublish PLUGIN_ACTION_CALLED (PluginActionCalled id params);
                                    ELog "PluginAction called"]) w).
  destruct (run_actions_settled id handlers params [] [] w1 Hs)
    as (w2 & Hrun & Htr & Hx & _ & _).
  exists (mkActionResult id params
            (map result_of (action_outcomes handlers params (ext w)))
            (map error_of (action_outcomes handlers params (ext w)))).
  eexists. split.
  { unfold callAction. unfold bind at 1. unfold get_world at 1. cbv iota beta.
    rewrite Hapi.
    rewrite (emits_then _ _ _ _ (emit_run _)), (emits_then _ _ _ _ (emit_run _)).
    rewrite set_trace_set_trace. cbn [trace set_trace]. rewrite <- app_assoc.
    cbn [app]. fold w1. rewrite Hact. unfold bind at 1. rewrite Hrun.
    cbn [app ext set_trace w1].
    rewrite (emits_then _ _ _ _ (emit_run _)), (emits_then _ _ _ _ (emit_run _)).
    reflexivity. }
  cbn [ar_id ar_params results errors].
  split; [done|]. split; [done|]. split; [done|]. split; [done|].
  split; [by rewrite length_map, action_outcomes_length|].
  split; [by rewrite length_map, action_outcomes_length|].
  split.
  { intros i r e Hr He. rewrite list_lookup_fmap in Hr, He.
    destruct (action_outcomes handlers params (ext w) !! i) as [[v|e'|]|];
      simpl in Hr, He; simplify_eq; auto. }
  split.
  { cbn [trace set_trace]. rewrite Htr. unfold w1. cbn [trace set_trace].
    by rewrite <- !app_assoc. }
  intros h1 h2 e x1 x2 -> H1 H2. simpl. rewrite H1, H2. done.
Qed.

(** C10.  For a workspace without a registered instance (the one given,
    or the current working directory when none is given), [callHook] does
    nothing and returns, whereas [callAction] publishes the "called"
    event, logs, and then fails with a [TypeError]: no handler is called
    and no "resolved" event is published. *)
Theorem callAction_without_instance {Ext} (id : string) (params : JSVal)
    (file : option string) (args : list HookArg) (w : World Ext) :
  getApi (default (cwd w) file) w = None ->
  callHook id args (default (cwd w) file) w = (Returns tt, w)
  /\ callAction id params file w
     = (Throws TypeError,
        set_trace (trace w ++ [EPublish PLUGIN_ACTION_CALLED (PluginActionCalled id params);
                               ELog "PluginAction called"]) w)
  /\ (forall c w', callAction id params file w = (c, w') ->
        forall results errors,
          ~ In (EPublish PLUGIN_ACTION_RESOLVED
                  (PluginActionResolved id params results errors))
               (drop (length (trace w)) (trace w'))).
Proof.
  intros Hapi.
  assert (Hcall : callAction id params file w
     = (Throws TypeError,
        set_trace (trace w ++ [EPublish PLUGIN_ACTION_CALLED (PluginActionCalled id params);
                               ELog "PluginAction called"]) w)).
  { unfold callAction. unfold bind at 1. unfold get_world at 1. cbv iota beta.
    rewrite Hapi.
    rewrite (emits_then _ _ _ _ (emit_run _)), (emits_then _ _ _ _ (emit_run _)).
    rewrite set_trace_set_trace. cbn [trace set_trace]. by rewrite <- app_assoc. }
  split.
  { unfold callHook. unfold bind, get_world. by rewrite Hapi. }
  split; [exact Hcall|].
  intros c w' Hrun results errors. rewrite Hcall in Hrun. injection Hrun as _ <-.
  cbn [trace set_trace]. rewrite drop_app_length. simpl. intros [H|[H|[]]]; discriminate H.
Qed.

(** C10, witness: the workspace [/ws] with nothing registered. *)
Lemma callAction_without_instance_witness :
  callHook "projectOpen" [ArgProject demo_project] "/ws" demo_world = (Returns tt, demo_world)
  /\ fst (callAction "build" VNull (Some "/ws") demo_world) = Throws TypeError.
Proof.
  destruct (callAction_without_instance "build" VNull (Some "/ws") [ArgProject demo_project]
              demo_world eq_refl) as (Hhook & Hcall & _).
  split; [exact Hhook|]. rewrite Hcall. reflexivity.
Defined.

Section update_facts.
Context {Ext : Type}.
Implicit Types (w : World Ext) (E : Env Ext).

Lemma await_call_run E (e : Event) w :
  await_call E e w
  = (if rejects E e then Throws (VError "rejected") else Returns tt,
     set_trace (trace w ++ [e]) w).
Proof.
  unfold await_call. rewrite (emits_then _ _ _ _ (emit_run _)).
  by destruct (rejects E e).
Qed.


Lemma findOne_run (id file : string) w :
  findOne id file w
  = (Returns (List.find (fun p => bool_decide (plugin_id p = id)) (getPlugins file w)),
     set_trace (trace w ++ match List.find (fun p => bool_decide (plugin_id p = id))
                                   (getPlugins file w) with
                           | None => [ELog "Plugin Not found"]
                           | Some _ => []
                           end) w).
Proof.
  unfold findOne. unfold bind at 1. unfold get_world at 1. cbv iota beta.
  destruct (List.find _ _).
  - unfold bind, ret. by rewrite app_nil_r, set_trace_trace.
  - by rewrite (emits_then _ _ _ _ (emit_run _)).
Qed.

End update_facts.

Section update_run.
Context {Ext : Type}.
Implicit Types (w : World Ext) (E : Env Ext).




End update_run.

Section update_claims.
Context {Ext : Type}.
Implicit Types (w : World Ext) (E : Env Ext).




(** An [update] that the progress channel does not admit does nothing. *)
Lemma update_not_admitted E (id : string) (full : option bool) w :
  "plugin-update" ∈ progress w ->
  update E id full w = (Throws (VError "operation in progress"), w).
Proof.
  intros H. unfold update, progress_wrap, progress_begin. by rewrite decide_True.
Qed.

End update_claims.


Section discovery_facts.
Context {Ext : Type}.
Implicit Types (w : World Ext) (E : Env Ext).

(** Reading the manifest changes nothing, and depends on the world only
    through the working directory. *)
Lemma resolve_manifest_run E (file : string) w :
  exists c, resolve_manifest E file w = (c, w)
            /\ forall w0, cwd w0 = cwd w -> resolve_manifest E file w0 = (c, w0).
Proof.
  unfold resolve_manifest, read_manifest, bind, get_world, ret, throw.
  destruct (readPackage E file) as [pkg|];
    [|eexists; split; [reflexivity|by intros w0 Hw; rewrite ?Hw]].
  destruct (vuePlugins pkg) as [[[from|] files]|];
    try (eexists; split; [reflexivity|by intros w0 Hw; rewrite ?Hw]).
  destruct (truthy_string from);
    [|eexists; split; [reflexivity|by intros w0 Hw; rewrite ?Hw]].
  destruct (readPackage E _) as [pkg'|] eqn:Hr.
  - eexists; split; [reflexivity|]. intros w0 Hw. by rewrite Hw, Hr.
  - eexists; split; [reflexivity|]. intros w0 Hw. by rewrite Hw, Hr.
Qed.

(** The path of [list] on which the computed list equals the stored
    one: the stored list is returned as it is, and only [pkgStore] is
    written (no write to [pluginsStore], no reset, no event). *)
Lemma plugins_list_cached E (file : string) (opts : ListOptions) w
    (pkgContext : string) (pkg : PackageJson) :
  resolve_manifest E file w = (Returns (pkgContext, pkg), w) ->
  getPlugins file w = discovered E pkg file ->
  plugins_list E file opts w
  = (Returns (getPlugins file w),
     set_pkgStore (<[file := (pkgContext, pkg)]> (pkgStore w)) w).
Proof.
  intros Hm Hd. unfold plugins_list. unfold bind at 1. rewrite Hm. cbv iota beta.
  unfold bind at 1. unfold modify at 1. cbv iota beta.
  unfold bind at 1. unfold get_world at 1. cbv iota beta.
  change (getPlugins file (set_pkgStore _ w)) with (getPlugins file w).
  unfold deepEqual. rewrite bool_decide_eq_true_2 by done. reflexivity.
Qed.

(** The other path: the computed list is stored whole, and what is
    returned is the part of it that is not hidden. *)
Lemma plugins_list_changed E (file : string) (opts : ListOptions) w
    (pkgContext : string) (pkg : PackageJson) (l : list Plugin) w' :
  resolve_manifest E file w = (Returns (pkgContext, pkg), w) ->
  getPlugins file w <> discovered E pkg file ->
  plugins_list E file opts w = (Returns l, w') ->
  l = List.filter (fun p => negb (plugin_hidden p)) (discovered E pkg file)
  /\ Forall (fun p => plugin_hidden p = false) l
  /\ pluginsStore w' !! file = Some (discovered E pkg file)
  /\ cwd w' = cwd w.
Proof.
  intros Hm Hd. unfold plugins_list. unfold bind at 1. rewrite Hm. cbv iota beta.
  unfold bind at 1. unfold modify at 1. cbv iota beta.
  unfold bind at 1. unfold get_world at 1. cbv iota beta.
  change (getPlugins file (set_pkgStore _ w)) with (getPlugins file w).
  unfold deepEqual. rewrite bool_decide_eq_false_2 by (intros Heq; by apply Hd).
  unfold bind at 1. unfold modify at 1. cbv iota beta.
  rewrite (emits_then _ _ _ _ (emit_run _)).
  match goal with
  | |- context [bind ?m _ ?w0] =>
      assert (Hframe : respects (fun w1 w2 => pluginsStore w2 = pluginsStore w1
                                              /\ cwd w2 = cwd w1) m)
  end.
  { destruct (_ || _); [|intros ? ? ? [= _ <-]; done].
    apply respects_bind; [by intros ??? [-> ->] [-> ->]| |intros b ? ? ? [= _ <-]; done].
    apply respects_resetPluginApi; try done. by intros ??? [-> ->] [-> ->]. }
  unfold bind at 1.
  match goal with
  | |- context [match ?m ?w0 with _ => _ end] =>
      destruct (m w0) as [[[]| |] w1] eqn:Hrun; try discriminate;
      apply Hframe in Hrun as [Hs Hc]
  end.
  intros [= <- <-]. split; [done|]. split.
  - apply List.Forall_forall. intros p Hp. apply List.filter_In in Hp as [_ Hp].
    by apply negb_true_iff.
  - split; [|by rewrite Hc]. rewrite Hs. cbn. apply lookup_insert_eq.
Qed.

(** Two calls in a row with the same environment: the second takes the
    path of the stored list, so it writes nothing to [pluginsStore],
    triggers no reset, and returns the whole stored list. *)
Lemma plugins_list_second_call E (file : string) (opts opts' : ListOptions) w
    (pkgContext : string) (pkg : PackageJson) (l1 : list Plugin) w1 :
  resolve_manifest E file w = (Returns (pkgContext, pkg), w) ->
  getPlugins file w <> discovered E pkg file ->
  plugins_list E file opts w = (Returns l1, w1) ->
  exists w2,
    plugins_list E file opts' w1 = (Returns (discovered E pkg file), w2)
    /\ pluginsStore w2 = pluginsStore w1
    /\ pluginApiInstances w2 = pluginApiInstances w1
    /\ trace w2 = trace w1
    /\ l1 = List.filter (fun p => negb (plugin_hidden p)) (discovered E pkg file).
Proof.
  intros Hm Hd Hrun.
  destruct (plugins_list_changed E file opts w pkgContext pkg l1 w1 Hm Hd Hrun)
    as (Hl & _ & Hs & Hc).
  destruct (resolve_manifest_run E file w) as (c & Hc1 & Hc2).
  rewrite Hm in Hc1. injection Hc1 as <-.
  assert (Hg : getPlugins file w1 = discovered E pkg file).
  { unfold getPlugins. by rewrite Hs. }
  eexists. split.
  - rewrite (plugins_list_cached E file opts' w1 pkgContext pkg (Hc2 w1 Hc) Hg).
    by rewrite Hg.
  - done.
Qed.

End discovery_facts.

(** ** The progress channel and the lifecycle operations *)

Section channel_facts.








End channel_facts.



(** ** The properties at concrete inputs *)

(** C4, witness: a handler that throws followed by one that returns 5. *)
Lemma callAction_dispatch_witness :
  exists w',
    callAction "build" VNull (Some "/ws") demo_world_with_action
    = (Returns (mkActionResult "build" VNull [VNull; VNum 5] [VError "boom"; VNull]), w')
    /\ trace w'
       = [EPublish PLUGIN_ACTION_CALLED (PluginActionCalled "build" VNull);
          ELog "PluginAction called";
          EActionHandler "build" "h1" VNull;
          EActionHandler "build" "h2" VNull;
          EPublish PLUGIN_ACTION_RESOLVED
            (PluginActionResolved "build" VNull [VNull; VNum 5] [VError "boom"; VNull]);
          ELog "PluginAction resolved"].
Proof.
  destruct (callAction_dispatch "build" VNull (Some "/ws") demo_world_with_action
              demo_instance_with_action [handler_throws; handler_five]
              eq_refl eq_refl ltac:(repeat constructor))
    as (res & w' & Hrun & Hid & Hparams & Hres & Herr & _ & _ & _ & Htrace & _).
  exists w'. destruct res as [i p rs es]. simpl in *. subst.
  split; [exact Hrun | exact Htrace].
Defined.

(** C5, witness: the empty query on the registry of the recency example;
    the built-in help commands and hidden actions are left out. *)
Lemma recent_commands_on_empty_query_witness :
  searchCommands prefix_lunr "" recency_registry = [Some cmd_b; Some cmd_a; Some cmd_c]
  /\ searchCommands prefix_lunr ">" recency_registry = [Some cmd_b; Some cmd_a].
Proof.
  destruct (recent_commands_on_empty_query prefix_lunr recency_registry "" eq_refl)
    as (H1 & _).
  destruct (recent_commands_on_empty_query prefix_lunr recency_registry ">" eq_refl)
    as (H2 & _).
  split; [rewrite H1 | rewrite H2]; reflexivity.
Defined.



(** C2, at the failing input.  The manifest declares the legacy bundle
    with the sub-plugin [babel].  The first [list] stores both entries and
    returns the one that is not hidden; the second [list], with nothing
    changed, takes the path of the stored list and returns it whole, the
    hidden entry included. *)
Lemma list_cached_path_returns_hidden :
  plugins_list vuedesk_env "/ws" default_ListOptions demo_world
  = (Returns [bundle_plugin], after_first_list)
  /\ pluginsStore after_first_list !! "/ws" = Some [bundle_plugin; babel_plugin]
  /\ fst (plugins_list vuedesk_env "/ws" default_ListOptions after_first_list)
     = Returns [bundle_plugin; babel_plugin]
  /\ plugin_hidden babel_plugin = true.
Proof.
  split; [|split; [|split]].
  - unfold after_first_list.
    destruct (plugins_list vuedesk_env "/ws" default_ListOptions demo_world) as [c w1] eqn:H.
    simpl. f_equal. apply (f_equal fst) in H. simpl in H. rewrite <- H.
    vm_compute. reflexivity.
  - vm_compute. reflexivity.
  - vm_compute. reflexivity.
  - reflexivity.
Qed.

(** C3, at the failing input.  The second of two [list] calls with an
    unchanged manifest writes nothing to [pluginsStore], triggers no reset
    and calls no collaborator, but its result is not the result of the
    first call: it has the hidden entry that the first call left out. *)
Lemma list_second_call_differs :
  let first := plugins_list vuedesk_env "/ws" default_ListOptions demo_world in
  let second := plugins_list vuedesk_env "/ws" default_ListOptions (snd first) in
  fst first = Returns [bundle_plugin]
  /\ fst second = Returns [bundle_plugin; babel_plugin]
  /\ fst second <> fst first
  /\ pluginsStore (snd second) = pluginsStore (snd first)
  /\ pluginApiInstances (snd second) = pluginApiInstances (snd first)
  /\ trace (snd second) = trace (snd first).
Proof.
  intros first second.
  assert (H1 : fst first = Returns [bundle_plugin]) by (vm_compute; reflexivity).
  assert (H2 : fst second = Returns [bundle_plugin; babel_plugin])
    by (vm_compute; reflexivity).
  split; [exact H1|]. split; [exact H2|]. split; [rewrite H1, H2; discriminate|].
  destruct first as [c1 w1] eqn:Hfirst. simpl in H1. subst c1.
  assert (Hm : resolve_manifest vuedesk_env "/ws" demo_world
               = (Returns ("/ws", vuedesk_manifest), demo_world)) by reflexivity.
  destruct (plugins_list_second_call vuedesk_env "/ws" default_ListOptions
              default_ListOptions demo_world "/ws" vuedesk_manifest [bundle_plugin] w1 Hm)
    as (w2 & Hrun & Hs & Hi & Ht & _); [discriminate|exact Hfirst|].
  unfold second. simpl. rewrite Hrun. done.
Qed.

(** Without the uniqueness of identifiers the scope of a prefix is not
    respected: the package index still refers to the identifier, and
    [commandsMap] gives the command added last under it. *)
Example duplicate_ids_escape_scope :
  searchCommands prefix_lunr "&foo"
    (addCommands [cmd_dup_package; cmd_dup_action] empty_registry)
  = [Some cmd_dup_action].
Proof. vm_compute. reflexivity. Qed.

(** The two copy filters on paths of a plugin folder. *)
Example copy_filter_examples :
  copy_filter_accepts ExcludeGit "/p/.git/config" = false
  /\ copy_filter_accepts ExcludeGit "/p/node_modules/x/index.js" = true
  /\ copy_filter_accepts ExcludeGitAndNodeModules "/p/node_modules/x/index.js" = false
  /\ copy_filter_accepts ExcludeGitAndNodeModules "/p/index.js" = true
  /\ copy_filter_accepts ExcludeGit "/p/.gitignore" = false.
Proof. repeat split. Qed.

(** A hidden command is run like any other. *)
Example runCommand_hidden :
  runCommand "find" (mkContext "client-1") (@initial_registry unit) (mkCmdWorld tt [])
  = (Returns (Some (mkCommand "find" Action "Find" None None true None None)),
     mkCmdWorld tt
       [CmdPublish "commandRan" (mkCommand "find" Action "Find" None None true None None)
          "client-1"]).
Proof. reflexivity. Qed.

(** An unknown identifier. *)
Example runCommand_unknown :
  runCommand "nope" (mkContext "client-1") (@initial_registry unit) (mkCmdWorld tt [])
  = (Returns None, mkCmdWorld tt [CmdWarn "Command nope not found"]).
Proof. reflexivity. Qed.

(** * Further properties of the plugin connector *)

Section reset_steps.
Context {Ext : Type}.
Implicit Types (w : World Ext) (E : Env Ext).

Lemma resetPluginApi_deferred_build E (file : string) (lightApi : bool)
    (projectId : option string) :
  resetPluginApi_deferred E file lightApi projectId
  = match findByPath E file with
    | None => ret false
    | Some project =>
        let* w := get_world in
        if negb (bool_decide (getType E project = "vue")) then ret false
        else
          let* _ := modify (fun w0 =>
            set_pluginApiInstances
              (<[file := new_PluginApi (getPlugins file w) file project lightApi]>
                 (pluginApiInstances w0)) w0) in
          reset_build E file lightApi projectId project (getPlugins file w)
    end.
Proof. reflexivity. Qed.

(** Relations kept by every step of a reset for the workspace [ref]: an
    event that is allowed, a change of the host state, a write of the
    instance of [ref]. *)
Context (ref : string) (R : World Ext -> World Ext -> Prop) (ok : Event -> bool).
Hypothesis R_refl : forall w, R w w.
Hypothesis R_trans : forall w1 w2 w3, R w1 w2 -> R w2 w3 -> R w1 w3.
Hypothesis R_emit : forall e w, ok e = true -> R w (set_trace (trace w ++ [e]) w).
Hypothesis R_ext : forall x w, R w (set_ext x w).
Hypothesis R_insert : forall api w,
  R w (set_pluginApiInstances (<[ref := api]> (pluginApiInstances w)) w).
Hypothesis ok_light : forall e, is_light_reset_event e = true -> ok e = true.

Lemma step_emit (e : Event) : ok e = true -> respects R (emit e).
Proof. intros He. apply respects_modify. intros w. by apply R_emit. Qed.

Lemma step_emit_all (es : list Event) :
  Forall (fun e => ok e = true) es -> respects R (emit_all es).
Proof.
  induction 1 as [|e es He _ IH]; simpl.
  - by apply respects_ret.
  - apply respects_bind; [done|by apply step_emit|]. intros _. exact IH.
Qed.

Ltac step :=
  first
    [ apply respects_ret; exact R_refl
    | apply respects_throw; exact R_refl
    | apply respects_get_world; exact R_refl
    | apply respects_pending; exact R_refl
    | apply step_emit; solve [apply ok_light; reflexivity | auto]
    | apply respects_modify; intros ?;
      solve [ apply R_insert | apply R_ext
            | eapply R_trans; [apply R_insert | apply R_ext] ]
    | apply respects_bind; [exact R_trans| |intros ?]
    | match goal with
      | |- respects _ (match ?x with _ => _ end) => destruct x
      | |- respects _ (if ?b then _ else _) => destruct b
      | |- respects _ (let '(_, _) := ?x in _) => destruct x
      end ].

Lemma step_runPluginApi E (id file dir : string) :
  respects R (runPluginApi E id file ref dir).
Proof.
  unfold runPluginApi. apply respects_bind; [exact R_trans| |intros _; repeat step].
  destruct (loadModule E file dir) as [| | |module]; repeat step.
Qed.

Lemma step_run_all (ms : list (M Ext unit)) :
  Forall (respects R) ms -> respects R (run_all ms).
Proof. by apply respects_run_all. Qed.

Lemma step_run_hooks (id : string) (fns : list (HookHandler Ext)) (args : list HookArg) :
  (forall e, ok e = true) -> respects R (run_hooks id fns args).
Proof.
  intros Hall. induction fns as [|fn fns IH]; simpl; [step|].
  apply respects_bind; [exact R_trans|by apply step_emit|]. intros _.
  apply respects_bind; [exact R_trans| |intros _; exact IH].
  intros w c w' H. destruct (hh_run fn args (ext w)) as [c0 x].
  injection H as _ <-. apply R_ext.
Qed.

Lemma step_callHook (id : string) (args : list HookArg) (file : string) :
  (forall e, ok e = true) -> respects R (callHook id args file).
Proof.
  intros Hall. unfold callHook. repeat step. by apply step_run_hooks.
Qed.

Lemma step_reset_build E (lightApi : bool) (projectId : option string)
    (project : ProjectInfo) (plugins : list Plugin) :
  (lightApi = false -> forall e, ok e = true) ->
  respects R (reset_build E ref lightApi projectId project plugins).
Proof.
  intros Hfull. unfold reset_build.
  apply respects_bind; [exact R_trans|apply step_runPluginApi|intros _].
  apply respects_bind; [exact R_trans| |intros _].
  { apply step_run_all, Forall_map, Forall_true. intros p. apply step_runPluginApi. }
  apply respects_bind; [exact R_trans|step|intros w1].
  destruct (pkgStore w1 !! ref) as [[pkgContext pkg]|]; [|step].
  apply respects_bind; [exact R_trans| |intros _].
  { destruct (vuePlugins pkg) as [[from [files|]]|]; try step.
    apply step_run_all, Forall_map, Forall_true. intros p. apply step_runPluginApi. }
  apply respects_bind; [exact R_trans|step|intros w2].
  destruct (pluginApiInstances w2 !! ref) as [api|]; [|step].
  apply respects_bind; [exact R_trans| |intros _].
  { apply step_emit_all, Forall_map, Forall_true. intros x. by apply ok_light. }
  apply respects_bind; [exact R_trans| |intros _].
  { apply step_emit_all, Forall_map, Forall_true. intros x. by apply ok_light. }
  apply respects_bind; [exact R_trans| |intros _].
  { apply step_emit_all, Forall_map, Forall_true. intros x. by apply ok_light. }
  destruct lightApi; [step|]. specialize (Hfull eq_refl).
  apply respects_bind; [exact R_trans| |intros _].
  { destruct (negb _); [by apply step_callHook|].
    apply respects_bind; [exact R_trans|by apply step_callHook|intros _].
    repeat step. }
  repeat step.
Qed.

Lemma step_resetPluginApi_deferred E (lightApi : bool) (projectId : option string) :
  (lightApi = false -> forall e, ok e = true) ->
  respects R (resetPluginApi_deferred E ref lightApi projectId).
Proof.
  intros Hfull. rewrite resetPluginApi_deferred_build.
  destruct (findByPath E ref) as [project|]; [|step].
  apply respects_bind; [exact R_trans|step|intros w0].
  destruct (negb _); [step|].
  apply respects_bind; [exact R_trans|step|intros _].
  by apply step_reset_build.
Qed.

Lemma step_resetPluginApi E (lightApi : bool) :
  (lightApi = false -> forall e, ok e = true) ->
  respects R (resetPluginApi E ref lightApi).
Proof.
  intros Hfull w c w' Hrun. rewrite resetPluginApi_cleanup in Hrun.
  eapply R_trans.
  2: { eapply respects_in_timeout; [|exact Hrun].
       by apply step_resetPluginApi_deferred. }
  unfold cleanup_events. set (w0 := w) at 1 2.
  assert (Hevents : Forall (fun e => ok e = true)
            (ELog "Plugin API reloading..."
             :: cleanup_events (pluginApiInstances w !! ref) lightApi)).
  { constructor; [by apply ok_light|]. unfold cleanup_events.
    apply Forall_app. split.
    - destruct (pluginApiInstances w !! ref); [|constructor].
      apply Forall_app. split; apply Forall_map, Forall_true; intros x; by apply ok_light.
    - destruct lightApi; [constructor|]. specialize (Hfull eq_refl).
      apply Forall_true. intros e. apply Hfull. }
  pose proof (step_emit_all _ Hevents w (Returns tt) _ (emit_all_run _ w)) as H.
  exact H.
Qed.

End reset_steps.

Section reset_outcomes.
Context {Ext : Type}.
Implicit Types (w : World Ext) (E : Env Ext).

Lemma reset_frame_refl (file : string) w : reset_frame file w w.
Proof. by repeat split. Qed.

Lemma reset_frame_trans (file : string) w1 w2 w3 :
  reset_frame file w1 w2 -> reset_frame file w2 w3 -> reset_frame file w1 w3.
Proof.
  intros (A1 & A2 & A3 & A4 & A5 & A6) (B1 & B2 & B3 & B4 & B5 & B6).
  repeat split; try congruence. intros other Ho. by rewrite B6, A6.
Qed.

Lemma reset_frame_insert (file : string) (api : PluginApi Ext) w :
  reset_frame file w
    (set_pluginApiInstances (<[file := api]> (pluginApiInstances w)) w).
Proof.
  repeat split. intros other Ho. simpl. by apply lookup_insert_ne.
Qed.

Lemma resetPluginApi_reset_frame E (file : string) (lightApi : bool) :
  respects (reset_frame file) (resetPluginApi E file lightApi).
Proof.
  apply (step_resetPluginApi file (reset_frame file) (fun _ => true));
    solve [done | apply reset_frame_refl | apply reset_frame_trans
          | apply reset_frame_insert].
Qed.

Lemma reset_build_reset_frame E (file : string) (lightApi : bool)
    (projectId : option string) (project : ProjectInfo) (plugins : list Plugin) :
  respects (reset_frame file) (reset_build E file lightApi projectId project plugins).
Proof.
  apply (step_reset_build file (reset_frame file) (fun _ => true));
    solve [done | apply reset_frame_refl | apply reset_frame_trans
          | apply reset_frame_insert].
Qed.

Lemma reset_build_keeps_instance E (file : string) (lightApi : bool)
    (projectId : option string) (project : ProjectInfo) (plugins : list Plugin) :
  respects (keeps_instance file) (reset_build E file lightApi projectId project plugins).
Proof.
  apply (step_reset_build file (keeps_instance file) (fun _ => true));
    unfold keeps_instance; try done; auto.
  intros api w _. simpl. rewrite lookup_insert_eq. by eexists.
Qed.

Lemma returns_only_bind {A B} (P : B -> Prop) (m : M Ext A) (k : A -> M Ext B) :
  (forall a, returns_only P (k a)) -> returns_only P (bind m k).
Proof.
  intros Hk w b w' H. unfold bind in H.
  destruct (m w) as [[a| |] w1]; try discriminate. by eapply Hk.
Qed.

Lemma returns_only_throw {A} (P : A -> Prop) (e : JSVal) :
  returns_only P (@throw Ext A e).
Proof. intros w a w' H. discriminate H. Qed.

Lemma returns_only_ret {A} (P : A -> Prop) (a : A) : P a -> returns_only P (@ret Ext A a).
Proof. intros Ha w b w' [= <- _]. exact Ha. Qed.

(** Once the new instance is stored, the deferred part resolves with
    [true] or not at all. *)
Lemma reset_build_returns_true E (file : string) (lightApi : bool)
    (projectId : option string) (project : ProjectInfo) (plugins : list Plugin) :
  returns_only (fun b => b = true)
    (reset_build E file lightApi projectId project plugins).
Proof.
  unfold reset_build.
  apply returns_only_bind. intros _. apply returns_only_bind. intros _.
  apply returns_only_bind. intros w1.
  destruct (pkgStore w1 !! file) as [[pkgContext pkg]|]; [|apply returns_only_throw].
  apply returns_only_bind. intros _. apply returns_only_bind. intros w2.
  destruct (pluginApiInstances w2 !! file); [|apply returns_only_throw].
  do 3 (apply returns_only_bind; intros _).
  destruct lightApi; [by apply returns_only_ret|].
  do 2 (apply returns_only_bind; intros _). by apply returns_only_ret.
Qed.

(** Without a [pkgStore] entry for the workspace the deferred part never
    resolves. *)
Lemma reset_build_unlisted E (file : string) (lightApi : bool)
    (projectId : option string) (project : ProjectInfo) (plugins : list Plugin) w :
  pkgStore w !! file = None ->
  forall b w', reset_build E file lightApi projectId project plugins w <> (Returns b, w').
Proof.
  intros Hpk b w' H. unfold reset_build in H. unfold bind at 1 in H.
  destruct (runPluginApi _ _ _ _ _ w) as [[[]| |] w1] eqn:H1; try discriminate.
  apply (step_runPluginApi file (reset_frame file) (fun _ => true)
           (reset_frame_refl file) (reset_frame_trans file)
           ltac:(done) ltac:(done) (reset_frame_insert file) ltac:(done)) in H1
    as (_ & Hpk1 & _).
  unfold bind at 1 in H.
  destruct (run_all _ w1) as [[[]| |] w2] eqn:H2; try discriminate.
  assert (Hpk2 : pkgStore w2 = pkgStore w1).
  { eapply (respects_run_all (reset_frame file) (reset_frame_refl file)
              (reset_frame_trans file)) in H2; [apply H2|].
    apply Forall_map, Forall_true. intros p.
    apply (step_runPluginApi file (reset_frame file) (fun _ => true));
      solve [done | apply reset_frame_refl | apply reset_frame_trans
            | apply reset_frame_insert]. }
  unfold bind at 1 in H. unfold get_world at 1 in H. cbv iota beta in H.
  rewrite Hpk2, Hpk1, Hpk in H. discriminate H.
Qed.

(** The three ways a reset can go. *)
Lemma resetPluginApi_run_cases E (file : string) (lightApi : bool) w
    (c : Completion bool) w' :
  resetPluginApi E file lightApi w = (c, w') ->
  (findByPath E file = None /\ c = Returns false)
  \/ (exists project, findByPath E file = Some project
                      /\ getType E project <> "vue" /\ c = Returns false)
  \/ (exists project, findByPath E file = Some project
                      /\ getType E project = "vue"
                      /\ (c = Returns true \/ c = Pending)
                      /\ is_Some (pluginApiInstances w' !! file)).
Proof.
  rewrite resetPluginApi_cleanup.
  set (w1 := set_trace _ w). set (pid := option_map _ _).
  unfold in_timeout. rewrite resetPluginApi_deferred_build.
  destruct (findByPath E file) as [project|] eqn:Hfind.
  2: { intros [= <- <-]. by left. }
  unfold bind at 1. unfold get_world at 1. cbv iota beta.
  destruct (decide (getType E project = "vue")) as [Hvue|Hvue].
  2: { rewrite bool_decide_eq_false_2 by done. intros [= <- <-].
       right. left. by exists project. }
  rewrite bool_decide_eq_true_2 by done. cbn [negb].
  unfold bind at 1. unfold modify at 1. cbv iota beta.
  set (w2 := set_pluginApiInstances _ w1).
  assert (Hinst : is_Some (pluginApiInstances w2 !! file)).
  { unfold w2. simpl. rewrite lookup_insert_eq. by eexists. }
  destruct (reset_build E file lightApi pid project (getPlugins file w1) w2)
    as [[b|e|] w3] eqn:Hrun; intros [= <- <-]; right; right; exists project;
    (split; [done|]); (split; [done|]);
    (split; [|by eapply reset_build_keeps_instance]).
  - left. f_equal. by eapply reset_build_returns_true.
  - by right.
  - by right.
Qed.

End reset_outcomes.

(** X1.  [resetPluginApi] never rejects.  It resolves with [false] only
    when no project resolves for the path or the project is not of type
    vue; when a vue project resolves it never resolves with [false], and
    however the call ends an instance is registered for the workspace. *)
Theorem resetPluginApi_outcomes {Ext} (E : Env Ext) (file : string) (lightApi : bool)
    (w : World Ext) :
  let c := fst (resetPluginApi E file lightApi w) in
  let w' := snd (resetPluginApi E file lightApi w) in
  (forall e, c <> Throws e)
  /\ (c = Returns false ->
      findByPath E file = None
      \/ exists project, findByPath E file = Some project /\ getType E project <> "vue")
  /\ (c = Returns true -> is_Some (pluginApiInstances w' !! file))
  /\ ((exists project, findByPath E file = Some project /\ getType E project = "vue") ->
      c <> Returns false /\ is_Some (pluginApiInstances w' !! file)).
Proof.
  intros c w'. subst c w'.
  destruct (resetPluginApi E file lightApi w) as [c w'] eqn:Hrun. simpl.
  apply resetPluginApi_run_cases in Hrun
    as [[Hfind ->]|[(p & Hfind & Hvue & ->)|(p & Hfind & Hvue & Hc & Hinst)]].
  - split; [done|]. split; [by left|]. split; [done|].
    intros (q & Hq & _). congruence.
  - split; [done|]. split; [right; by exists p|]. split; [done|].
    intros (q & Hq & Hq'). congruence.
  - split; [intros e ->; by destruct Hc|].
    split; [intros ->; by destruct Hc|]. split; [done|].
    intros _. split; [intros ->; by destruct Hc|done].
Qed.

(** X2.  A reset for a workspace writes neither [pluginsStore] nor
    [pkgStore], leaves the plugin being installed, the working directory
    and the progress ids alone, and does not touch the instance of any
    other workspace. *)
Theorem resetPluginApi_frame {Ext} (E : Env Ext) (file : string) (lightApi : bool)
    (w : World Ext) :
  reset_frame file w (snd (resetPluginApi E file lightApi w)).
Proof.
  destruct (resetPluginApi E file lightApi w) as [c w'] eqn:Hrun.
  by apply resetPluginApi_reset_frame in Hrun.
Qed.

(** X3.  A reset for a workspace that was never listed (no [pkgStore]
    entry), with a vue project resolving for the path, never settles: the
    deferred callback fails on the missing entry after the new instance
    has been stored, so the instance stays registered and the promise is
    neither resolved nor rejected. *)
Theorem resetPluginApi_unlisted_never_settles {Ext} (E : Env Ext) (file : string)
    (lightApi : bool) (w : World Ext) (project : ProjectInfo) :
  findByPath E file = Some project ->
  getType E project = "vue" ->
  pkgStore w !! file = None ->
  fst (resetPluginApi E file lightApi w) = Pending
  /\ is_Some (pluginApiInstances (snd (resetPluginApi E file lightApi w)) !! file).
Proof.
  intros Hfind Hvue Hpk.
  destruct (resetPluginApi E file lightApi w) as [c w'] eqn:Hrun. simpl.
  pose proof (resetPluginApi_run_cases E file lightApi w c w' Hrun)
    as [[Hf _]|[(p & Hf & Hv & _)|(p & Hf & Hv & Hc & Hinst)]]; try congruence.
  split; [|exact Hinst]. destruct Hc as [-> | ->]; [|done]. exfalso.
  revert Hrun. rewrite resetPluginApi_cleanup. unfold in_timeout.
  rewrite resetPluginApi_deferred_build, Hfind.
  unfold bind at 1. unfold get_world at 1. cbv iota beta.
  rewrite bool_decide_eq_true_2 by done. cbn [negb].
  unfold bind at 1. unfold modify at 1. cbv iota beta.
  match goal with
  | |- context [reset_build ?a ?b ?c ?d ?e ?f ?w2] =>
      destruct (reset_build a b c d e f w2) as [[b0|e0|] w3] eqn:Hb; try discriminate;
      exfalso; by eapply (reset_build_unlisted a b c d e f w2)
  end.
Qed.

(** X3, witness: a vue project for [/ws], nothing listed yet. *)
Lemma resetPluginApi_unlisted_never_settles_witness :
  fst (resetPluginApi (demo_env (Some demo_project) "vue" empty_manifest None) "/ws" false
         demo_world) = Pending.
Proof.
  exact (proj1 (resetPluginApi_unlisted_never_settles
                  (demo_env (Some demo_project) "vue" empty_manifest None) "/ws" false
                  demo_world demo_project eq_refl eq_refl eq_refl)).
Defined.

(** X4.  In light mode a reset only logs, removes the previous instance's
    views and IPC handlers, loads the plugin modules and registers client
    addons, views and widget definitions: it stops no shared-data watcher,
    clears no registry, calls no hook, re-opens no view and loads no
    widget. *)
Theorem resetPluginApi_light_calls {Ext} (E : Env Ext) (file : string) (w : World Ext) :
  extends_trace (fun e => is_light_reset_event e = true) w
    (snd (resetPluginApi E file true w)).
Proof.
  destruct (resetPluginApi E file true w) as [c w'] eqn:Hrun. simpl.
  revert Hrun. apply (step_resetPluginApi file _ is_light_reset_event);
    first [ done | apply extends_trace_refl | apply extends_trace_trans
          | by (intros e w0 He; exists [e]; split; [done|]; by constructor)
          | by (intros x w0; exists []; simpl; by rewrite app_nil_r) ].
Qed.





Section list_facts.
Context {Ext : Type}.
Implicit Types (w : World Ext) (E : Env Ext).

Lemma findIndex_first {A} (p : A -> bool) (before : list A) (s : A) (after : list A) :
  Forall (fun x => p x = false) before -> p s = true ->
  findIndex p (before ++ s :: after) = Some (length before).
Proof.
  induction 1 as [|x before Hx _ IH]; intros Hs; simpl.
  - by rewrite Hs.
  - rewrite Hx, IH by done. reflexivity.
Qed.

Lemma findIndex_none {A} (p : A -> bool) (l : list A) :
  Forall (fun x => p x = false) l -> findIndex p l = None.
Proof.
  induction 1 as [|x l Hx _ IH]; simpl; [done|]. by rewrite Hx, IH.
Qed.

Lemma service_first_none (plugins : list Plugin) :
  Forall (fun p => is_service p = false) plugins -> service_first plugins = plugins.
Proof.
  intros H. unfold service_first.
  change (findIndex _ plugins) with (findIndex is_service plugins).
  by rewrite (findIndex_none is_service plugins H).
Qed.

Lemma service_first_some (before : list Plugin) (s : Plugin) (after : list Plugin) :
  Forall (fun p => is_service p = false) before -> is_service s = true ->
  service_first (before ++ s :: after) = s :: before ++ after.
Proof.
  intros Hb Hs. unfold service_first.
  change (findIndex _ (before ++ s :: after))
    with (findIndex is_service (before ++ s :: after)).
  rewrite (findIndex_first is_service before s after Hb Hs).
  rewrite list_lookup_middle by done. f_equal.
  rewrite delete_middle. reflexivity.
Qed.

Lemma find_plugin_some (id : string) (l : list Plugin) :
  In id (map plugin_id l) ->
  exists p, List.find (fun p => bool_decide (plugin_id p = id)) l = Some p
            /\ plugin_id p = id /\ In p l.
Proof.
  induction l as [|q l IH]; [done|]. simpl. intros H.
  destruct (decide (plugin_id q = id)) as [Heq|Hne].
  - exists q. rewrite bool_decide_eq_true_2 by done. tauto.
  - rewrite bool_decide_eq_false_2 by done.
    destruct IH as (p & Hf & Hid & Hin); [tauto|]. exists p. tauto.
Qed.

Lemma find_plugin_none (id : string) (l : list Plugin) :
  ~ In id (map plugin_id l) ->
  List.find (fun p => bool_decide (plugin_id p = id)) l = None.
Proof.
  induction l as [|q l IH]; [done|]. simpl. intros H.
  rewrite bool_decide_eq_false_2 by tauto. apply IH. tauto.
Qed.

(** After a [list] that returns, the store holds the discovered list. *)
Lemma plugins_list_stores_discovered E (file : string) (opts : ListOptions) w
    (pkgContext : string) (pkg : PackageJson) (l : list Plugin) w' :
  resolve_manifest E file w = (Returns (pkgContext, pkg), w) ->
  plugins_list E file opts w = (Returns l, w') ->
  getPlugins file w' = discovered E pkg file.
Proof.
  intros Hm Hrun.
  destruct (decide (getPlugins file w = discovered E pkg file)) as [Heq|Hne].
  - rewrite (plugins_list_cached E file opts w pkgContext pkg Hm Heq) in Hrun.
    injection Hrun as _ <-. exact Heq.
  - destruct (plugins_list_changed E file opts w pkgContext pkg l w' Hm Hne Hrun)
      as (_ & _ & Hs & _).
    unfold getPlugins. by rewrite Hs.
Qed.

(** The run of [list] when the computed list differs from the stored
    one. *)
Lemma plugins_list_changed_run E (file : string) (opts : ListOptions) w
    (pkgContext : string) (pkg : PackageJson) :
  resolve_manifest E file w = (Returns (pkgContext, pkg), w) ->
  getPlugins file w <> discovered E pkg file ->
  plugins_list E file opts w
  = (let w1 := set_trace (trace w ++ [ELog "Plugins found:"])
                 (set_pluginsStore (<[file := discovered E pkg file]> (pluginsStore w))
                    (set_pkgStore (<[file := (pkgContext, pkg)]> (pkgStore w)) w)) in
     if list_resets opts file w then
       match resetPluginApi E file (lightApi opts) w1 with
       | (Returns _, w2) =>
           (Returns (List.filter (fun p => negb (plugin_hidden p)) (discovered E pkg file)),
            w2)
       | (Throws e, w2) => (Throws e, w2)
       | (Pending, w2) => (Pending, w2)
       end
     else (Returns (List.filter (fun p => negb (plugin_hidden p)) (discovered E pkg file)),
           w1)).
Proof.
  intros Hm Hd. unfold plugins_list. unfold bind at 1. rewrite Hm. cbv iota beta.
  unfold bind at 1. unfold modify at 1. cbv iota beta.
  unfold bind at 1. unfold get_world at 1. cbv iota beta.
  change (getPlugins file (set_pkgStore _ w)) with (getPlugins file w).
  unfold deepEqual. rewrite bool_decide_eq_false_2 by (intros Heq; by apply Hd).
  unfold bind at 1. unfold modify at 1. cbv iota beta.
  rewrite (emits_then _ _ _ _ (emit_run _)).
  cbv zeta. unfold list_resets.
  change (pluginApiInstances (set_pkgStore _ w)) with (pluginApiInstances w).
  destruct (resetApi opts || _); [|reflexivity].
  unfold bind.
  cbn [trace set_trace set_pluginsStore set_pkgStore pluginsStore pkgStore
       pluginApiInstances currentPluginId cwd progress ext].
  match goal with
  | |- context [resetPluginApi E file ?l ?w0] =>
      destruct (resetPluginApi E file l w0) as [[b|e|] w2]; reflexivity
  end.
Qed.

(** Whatever a reset does, its first call is the log of the reload. *)
Lemma resetPluginApi_trace_prefix E (file : string) (lightApi : bool) w
    (c : Completion bool) w' :
  resetPluginApi E file lightApi w = (c, w') ->
  exists rest, trace w' = trace w ++ ELog "Plugin API reloading..." :: rest.
Proof.
  rewrite resetPluginApi_cleanup. intros Hrun.
  eapply respects_in_timeout in Hrun.
  2: { apply (step_resetPluginApi_deferred file (extends_trace (fun _ => True))
                (fun _ => true));
         first [ done | apply extends_trace_refl | apply extends_trace_trans
               | by (intros e w0 He; exists [e]; split; [done|]; by constructor)
               | by (intros x w0; exists []; simpl; by rewrite app_nil_r) ]. }
  destruct Hrun as (es & Htr & _). cbn [trace set_trace] in Htr.
  rewrite Htr, <- app_assoc. simpl. by eexists.
Qed.

End list_facts.

(** X7.  When the manifest of the workspace cannot be read, or the
    manifest it redirects to with [vuePlugins.resolveFrom] cannot, [list]
    fails with the reader's error before it has written any store or
    called anything. *)
Theorem plugins_list_unreadable_manifest {Ext} (E : Env Ext) (file : string)
    (opts : ListOptions) (w : World Ext) :
  (readPackage E file = None
   \/ exists pkg files from,
        readPackage E file = Some pkg
        /\ vuePlugins pkg = Some (mkVuePlugins (Some from) files)
        /\ truthy_string from = true
        /\ readPackage E (path_resolve E [cwd w; from]) = None) ->
  plugins_list E file opts w = (Throws (VError "package.json not found"), w).
Proof.
  intros [H|(pkg & files & from & H1 & H2 & H3 & H4)];
    unfold plugins_list, resolve_manifest, read_manifest.
  - rewrite H. reflexivity.
  - rewrite H1. unfold bind, ret, get_world. rewrite H2, H3, H4. reflexivity.
Qed.

(** X7, witness: no manifest can be read. *)
Lemma plugins_list_unreadable_manifest_witness :
  plugins_list no_manifest_env "/ws" default_ListOptions demo_world
  = (Throws (VError "package.json not found"), demo_world).
Proof.
  exact (plugins_list_unreadable_manifest no_manifest_env "/ws" default_ListOptions
           demo_world (or_introl eq_refl)).
Defined.

(** X8.  When the list computed from the manifest differs from the stored
    one, [list] stores the computed list whole under the workspace and the
    manifest with its context in [pkgStore], leaves the entries of other
    workspaces alone, never fails, and what it returns is the computed
    list without its hidden entries.  It resets the plugin API exactly
    when [resetApi] is set or [autoLoadApi] is set and no instance is
    registered; otherwise it only logs and leaves the instances as they
    are. *)
Theorem plugins_list_reports_change {Ext} (E : Env Ext) (file : string)
    (opts : ListOptions) (w : World Ext) (pkgContext : string) (pkg : PackageJson) :
  resolve_manifest E file w = (Returns (pkgContext, pkg), w) ->
  getPlugins file w <> discovered E pkg file ->
  let c := fst (plugins_list E file opts w) in
  let w' := snd (plugins_list E file opts w) in
  (forall e, c <> Throws e)
  /\ (forall l, c = Returns l ->
        l = List.filter (fun p => negb (plugin_hidden p)) (discovered E pkg file))
  /\ pluginsStore w' = <[file := discovered E pkg file]> (pluginsStore w)
  /\ pkgStore w' = <[file := (pkgContext, pkg)]> (pkgStore w)
  /\ (if list_resets opts file w
      then exists rest,
             trace w' = trace w ++ [ELog "Plugins found:"; ELog "Plugin API reloading..."]
                          ++ rest
      else c = Returns (List.filter (fun p => negb (plugin_hidden p))
                          (discovered E pkg file))
           /\ pluginApiInstances w' = pluginApiInstances w
           /\ trace w' = trace w ++ [ELog "Plugins found:"]).
Proof.
  intros Hm Hd c w'. subst c w'.
  rewrite (plugins_list_changed_run E file opts w pkgContext pkg Hm Hd). cbv zeta.
  destruct (list_resets opts file w).
  2: { cbn [fst snd]. split; [done|]. split; [by intros l [= <-]|].
       split; [done|]. split; [done|]. by split. }
  match goal with
  | |- context [resetPluginApi E file ?l ?w0] =>
      pose proof (resetPluginApi_reset_frame E file l w0) as Hframe;
      pose proof (resetPluginApi_run_cases E file l w0) as Hcases;
      pose proof (resetPluginApi_trace_prefix E file l w0) as Hprefix;
      destruct (resetPluginApi E file l w0) as [[b|e|] w2] eqn:Hrun
  end.
  all: destruct (Hframe _ _ eq_refl) as (Hs & Hp & _).
  all: destruct (Hprefix _ _ eq_refl) as (rest & Htr).
  all: cbn [fst snd trace set_trace set_pluginsStore set_pkgStore pluginsStore pkgStore]
         in *.
  all: split; [first [done | by destruct (Hcases _ _ eq_refl)
                             as [[_ ?]|[(? & _ & _ & ?)|(? & _ & _ & [?|?] & _)]]]|].
  all: split; [by intros l [= <-]|].
  all: split; [exact Hs|]; split; [exact Hp|].
  all: exists rest; rewrite Htr, <- app_assoc; reflexivity.
Qed.

(** X8, witness: the first [list] of the workspace with the bundle
    manifest. *)
Lemma plugins_list_reports_change_witness :
  pluginsStore (snd (plugins_list vuedesk_env "/ws" default_ListOptions demo_world))
  = <["/ws" := [bundle_plugin; babel_plugin]]> ∅
  /\ fst (plugins_list vuedesk_env "/ws" (mkListOptions false false false) demo_world)
     = Returns [bundle_plugin].
Proof.
  destruct (plugins_list_reports_change vuedesk_env "/ws" default_ListOptions demo_world
              "/ws" vuedesk_manifest eq_refl ltac:(discriminate))
    as (_ & _ & Hstore & _).
  destruct (plugins_list_reports_change vuedesk_env "/ws" (mkListOptions false false false)
              demo_world "/ws" vuedesk_manifest eq_refl ltac:(discriminate))
    as (_ & _ & _ & _ & Hquiet & _).
  split; [exact Hstore | exact Hquiet].
Defined.

(** X9.  The list that [list] computes holds the plugins found in the dev
    dependencies, the dependencies and the bundle declaration, in that
    order, except that the first entry that is the CLI service or the build
    bundle is moved to the top; the other entries keep their order, and a
    list without such an entry is left as it is. *)
Theorem discovered_service_first {Ext} (E : Env Ext) (pkg : PackageJson) (file : string) :
  (Forall (fun p => is_service p = false) (discovered_in_order E pkg file) ->
   discovered E pkg file = discovered_in_order E pkg file)
  /\ (forall before s after,
        discovered_in_order E pkg file = before ++ s :: after ->
        Forall (fun p => is_service p = false) before ->
        is_service s = true ->
        discovered E pkg file = s :: before ++ after)
  /\ Permutation (discovered E pkg file) (discovered_in_order E pkg file).
Proof.
  change (discovered E pkg file) with (service_first (discovered_in_order E pkg file)).
  generalize (discovered_in_order E pkg file). intros all.
  split; [apply service_first_none|].
  split; [intros before s after -> Hb Hs; by apply service_first_some|].
  assert (Hcases : Forall (fun p => is_service p = false) all
                   \/ exists before s after,
                        all = before ++ s :: after
                        /\ Forall (fun p => is_service p = false) before
                        /\ is_service s = true).
  { induction all as [|p all IH]; [by left|].
    destruct (is_service p) eqn:Hp.
    - right. exists [], p, all. by repeat split.
    - destruct IH as [IH|(before & s & after & -> & Hb & Hs)].
      + left. by constructor.
      + right. exists (p :: before), s, after. repeat split; [|done]. by constructor. }
  destruct Hcases as [Hnone|(before & s & after & -> & Hb & Hs)].
  - by rewrite service_first_none.
  - rewrite service_first_some by done. apply Permutation_middle.
Qed.

(** X10.  After a [list] that returns, on either of its paths, the store
    holds the computed list for the workspace, hidden entries included:
    [findOne] finds a plugin for the id of every computed entry without
    logging, and for any other id it logs and returns nothing. *)
Theorem list_then_findOne {Ext} (E : Env Ext) (file : string) (opts : ListOptions)
    (w w' : World Ext) (pkgContext : string) (pkg : PackageJson) (l : list Plugin) :
  resolve_manifest E file w = (Returns (pkgContext, pkg), w) ->
  plugins_list E file opts w = (Returns l, w') ->
  getPlugins file w' = discovered E pkg file
  /\ (forall p, In p (discovered E pkg file) ->
        exists p', findOne (plugin_id p) file w' = (Returns (Some p'), w')
                   /\ plugin_id p' = plugin_id p /\ In p' (discovered E pkg file))
  /\ (forall id, ~ In id (map plugin_id (discovered E pkg file)) ->
        findOne id file w'
        = (Returns None, set_trace (trace w' ++ [ELog "Plugin Not found"]) w')).
Proof.
  intros Hm Hrun.
  pose proof (plugins_list_stores_discovered E file opts w pkgContext pkg l w' Hm Hrun)
    as Hstore.
  split; [exact Hstore|]. split.
  - intros p Hp.
    destruct (find_plugin_some (plugin_id p) (discovered E pkg file))
      as (p' & Hfind & Hid & Hin); [by apply in_map|].
    exists p'. rewrite findOne_run, Hstore, Hfind.
    by rewrite app_nil_r, set_trace_trace.
  - intros id Hid. by rewrite findOne_run, Hstore, find_plugin_none.
Qed.

(** X10, witness: after the first [list] of the bundle manifest the
    hidden sub-plugin is found, and an unknown id is not. *)
Lemma list_then_findOne_witness :
  (exists p', fst (findOne "@vue/cli-plugin-babel" "/ws" after_first_list)
              = Returns (Some p')
              /\ plugin_id p' = "@vue/cli-plugin-babel")
  /\ fst (findOne "vue-cli-plugin-x" "/ws" after_first_list) = Returns None.
Proof.
  assert (Hrun : plugins_list vuedesk_env "/ws" default_ListOptions demo_world
                 = (Returns [bundle_plugin], after_first_list)).
  { unfold after_first_list.
    destruct (plugins_list vuedesk_env "/ws" default_ListOptions demo_world)
      as [c w1] eqn:H.
    simpl. f_equal. apply (f_equal fst) in H. simpl in H. rewrite <- H.
    vm_compute. reflexivity. }
  destruct (list_then_findOne vuedesk_env "/ws" default_ListOptions demo_world
              after_first_list "/ws" vuedesk_manifest [bundle_plugin] eq_refl Hrun)
    as (_ & Hfound & Hnone).
  split.
  - destruct (Hfound babel_plugin ltac:(right; left; reflexivity))
      as (p' & Hfind & Hid & _). exists p'.
    change (plugin_id babel_plugin) with "@vue/cli-plugin-babel" in Hfind, Hid.
    rewrite Hfind. by split.
  - rewrite (Hnone "vue-cli-plugin-x"); [reflexivity|].
    vm_compute. intros [H|[H|[]]]; discriminate H.
Defined.

Example discovered_service_first_example :
  map plugin_id (discovered (demo_env None "vue" service_manifest None) service_manifest "/ws")
  = ["@vue/cli-service"; "@vue/cli-plugin-babel"; "vue-cli-plugin-x"].
Proof. vm_compute. reflexivity. Qed.

Section hook_facts.
Context {Ext : Type}.
Implicit Types (w : World Ext) (fns : list (HookHandler Ext)).

Lemma run_hooks_return (id : string) fns (args : list HookArg) w :
  hooks_return fns args (ext w) ->
  run_hooks id fns args w
  = (Returns tt,
     set_ext (hooks_final_ext fns args (ext w))
       (set_trace (trace w ++ map (fun fn => EHookHandler id (hh_name fn) args) fns) w)).
Proof.
  revert w. induction fns as [|fn fns IH]; intros w Hr.
  - simpl. rewrite app_nil_r. by destruct w.
  - destruct Hr as (x' & Hfn & Hr). simpl.
    rewrite (emits_then _ _ _ _ (emit_run _)). unfold bind at 1.
    cbn [ext set_trace]. rewrite Hfn. rewrite IH by exact Hr.
    cbn [ext trace set_ext set_trace snd]. by rewrite <- app_assoc.
Qed.

Lemma run_hooks_app (id : string) (before rest : list (HookHandler Ext))
    (args : list HookArg) w :
  hooks_return before args (ext w) ->
  run_hooks id (before ++ rest) args w
  = run_hooks id rest args
      (set_ext (hooks_final_ext before args (ext w))
         (set_trace (trace w ++ map (fun fn => EHookHandler id (hh_name fn) args) before)
            w)).
Proof.
  revert w. induction before as [|fn before IH]; intros w Hr.
  - simpl. rewrite app_nil_r. by destruct w.
  - destruct Hr as (x' & Hfn & Hr). simpl.
    rewrite (emits_then _ _ _ _ (emit_run _)). unfold bind at 1.
    cbn [ext set_trace]. rewrite Hfn. rewrite IH by exact Hr.
    cbn [ext trace set_ext set_trace snd]. by rewrite <- app_assoc.
Qed.

End hook_facts.

(** X11.  For a workspace with an instance, [callHook] with a hook id the
    instance does not know fails with a [TypeError] before anything is
    logged or called; with a known hook whose handlers all return it logs
    once and calls every handler, in registration order, with the given
    arguments, each in the host state its predecessor left. *)
Theorem callHook_dispatch {Ext} (id : string) (args : list HookArg) (file : string)
    (w : World Ext) (pluginApi : PluginApi Ext) :
  getApi file w = Some pluginApi ->
  (api_hooks pluginApi !! id = None -> callHook id args file w = (Throws TypeError, w))
  /\ (forall fns,
        api_hooks pluginApi !! id = Some fns ->
        hooks_return fns args (ext w) ->
        callHook id args file w
        = (Returns tt,
           set_ext (hooks_final_ext fns args (ext w))
             (set_trace (trace w ++ ELog ("Hook " +:+ id)
                           :: map (fun fn => EHookHandler id (hh_name fn) args) fns) w))).
Proof.
  intros Hapi. split.
  - intros Hid. unfold callHook, bind, get_world. by rewrite Hapi, Hid.
  - intros fns Hid Hr. unfold callHook. unfold bind at 1. unfold get_world at 1.
    cbv iota beta. rewrite Hapi, Hid.
    rewrite (emits_then _ _ _ _ (emit_run _)), run_hooks_return by exact Hr.
    cbn [ext trace set_ext set_trace]. by rewrite <- app_assoc.
Qed.

(** X11, witness: two counting handlers, and a hook id that is not
    there. *)
Lemma callHook_dispatch_witness :
  (exists w', callHook "projectOpen" [ArgNoProject] "/ws" (counter_world [hook_inc; hook_inc])
              = (Returns tt, w')
              /\ ext w' = 2%nat
              /\ trace w' = [ELog "Hook projectOpen";
                             EHookHandler "projectOpen" "inc" [ArgNoProject];
                             EHookHandler "projectOpen" "inc" [ArgNoProject]])
  /\ callHook "taskRun" [] "/ws" (counter_world [hook_inc])
     = (Throws TypeError, counter_world [hook_inc]).
Proof.
  split.
  - destruct (callHook_dispatch "projectOpen" [ArgNoProject] "/ws"
                (counter_world [hook_inc; hook_inc]) (counter_instance [hook_inc; hook_inc])
                eq_refl) as [_ Hall].
    eexists. split; [apply (Hall [hook_inc; hook_inc] eq_refl)|].
    + simpl. eexists. split; [reflexivity|]. eexists. split; [reflexivity|exact I].
    + split; reflexivity.
  - destruct (callHook_dispatch "taskRun" [] "/ws" (counter_world [hook_inc])
                (counter_instance [hook_inc]) eq_refl) as [Hnone _].
    apply Hnone. reflexivity.
Defined.

(** X12.  A hook handler that throws ends the dispatch: the handlers
    registered before it have run, the exception reaches the caller of
    [callHook], and no handler registered after it is called. *)
Theorem callHook_aborts_on_throw {Ext} (id : string) (args : list HookArg) (file : string)
    (w : World Ext) (pluginApi : PluginApi Ext)
    (before : list (HookHandler Ext)) (fn : HookHandler Ext)
    (after : list (HookHandler Ext)) (e : JSVal) (x : Ext) :
  getApi file w = Some pluginApi ->
  api_hooks pluginApi !! id = Some (before ++ fn :: after) ->
  hooks_return before args (ext w) ->
  hh_run fn args (hooks_final_ext before args (ext w)) = (Throws e, x) ->
  callHook id args file w
  = (Throws e,
     set_ext x
       (set_trace (trace w ++ ELog ("Hook " +:+ id)
                     :: map (fun fn => EHookHandler id (hh_name fn) args) (before ++ [fn]))
          w)).
Proof.
  intros Hapi Hid Hr Hfn. unfold callHook. unfold bind at 1. unfold get_world at 1.
  cbv iota beta. rewrite Hapi, Hid.
  rewrite (emits_then _ _ _ _ (emit_run _)), run_hooks_app by exact Hr.
  cbn [run_hooks]. rewrite (emits_then _ _ _ _ (emit_run _)).
  unfold bind at 1. cbn [ext trace set_ext set_trace]. rewrite Hfn.
  cbn [set_ext set_trace]. rewrite map_app, <- !app_assoc. reflexivity.
Qed.

(** X12, witness: the failing handler between two counting ones. *)
Lemma callHook_aborts_on_throw_witness :
  exists w',
    callHook "projectOpen" [] "/ws" (counter_world [hook_inc; hook_fail; hook_inc])
    = (Throws (VError "hook failed"), w')
    /\ ext w' = 1%nat
    /\ trace w' = [ELog "Hook projectOpen";
                   EHookHandler "projectOpen" "inc" [];
                   EHookHandler "projectOpen" "fail" []].
Proof.
  eexists. split.
  - apply (callHook_aborts_on_throw "projectOpen" [] "/ws"
             (counter_world [hook_inc; hook_fail; hook_inc])
             (counter_instance [hook_inc; hook_fail; hook_inc])
             [hook_inc] hook_fail [hook_inc] (VError "hook failed") 1%nat
             eq_refl eq_refl).
    + simpl. eexists. split; [reflexivity|exact I].
    + reflexivity.
  - split; reflexivity.
Defined.

Section action_more.
Context {Ext : Type}.
Implicit Types (w : World Ext) (handlers : list (ActionHandler Ext)).

(** The loop of [callAction] never throws, and adds one entry per handler
    to both arrays when it completes. *)
Lemma run_actions_never_throws (id : string) handlers (params : JSVal)
    (rs es : list JSVal) w (c : Completion (list JSVal * list JSVal)) w' :
  run_actions id handlers params rs es w = (c, w') ->
  (forall e, c <> Throws e)
  /\ (forall rs' es', c = Returns (rs', es') ->
        length rs' = (length rs + length handlers)%nat
        /\ length es' = (length es + length handlers)%nat).
Proof.
  revert rs es w. induction handlers as [|cb handlers IH]; intros rs es w.
  - intros [= <- <-]. split; [done|]. intros rs' es' [= <- <-]. simpl. lia.
  - simpl. rewrite (emits_then _ _ _ _ (emit_run _)).
    unfold bind at 1. unfold get_world at 1. cbv iota beta. cbn [ext set_trace].
    destruct (ah_run cb params (ext w)) as [[v|e|] x'].
    + unfold bind at 1. unfold modify at 1. cbv iota beta. intros Hrun.
      apply IH in Hrun as [H1 H2]. split; [done|]. intros rs' es' Hc.
      destruct (H2 rs' es' Hc) as [Hr He]. rewrite length_app in Hr, He. simpl in *. lia.
    + unfold bind at 1. unfold modify at 1. cbv iota beta. intros Hrun.
      apply IH in Hrun as [H1 H2]. split; [done|]. intros rs' es' Hc.
      destruct (H2 rs' es' Hc) as [Hr He]. rewrite length_app in Hr, He. simpl in *. lia.
    + unfold bind at 1. unfold modify at 1. cbv iota beta. intros [= <- <-].
      split; [done|]. intros rs' es' Hc. discriminate Hc.
Qed.

(** The run of [callAction] for a workspace with an instance. *)
Lemma callAction_run (id : string) (params : JSVal) (file : option string) w
    (pluginApi : PluginApi Ext) :
  getApi (default (cwd w) file) w = Some pluginApi ->
  callAction id params file w
  = match match api_actions pluginApi !! id with
          | Some handlers => run_actions id handlers params [] []
          | None => ret ([], [])
          end (set_trace (trace w
                          ++ [EPublish PLUGIN_ACTION_CALLED (PluginActionCalled id params);
                              ELog "PluginAction called"]) w) with
    | (Returns (rs, es), w1) =>
        (Returns (mkActionResult id params rs es),
         set_trace (trace w1
                    ++ [EPublish PLUGIN_ACTION_RESOLVED
                          (PluginActionResolved id params rs es);
                        ELog "PluginAction resolved"]) w1)
    | (Throws e, w1) => (Throws e, w1)
    | (Pending, w1) => (Pending, w1)
    end.
Proof.
  intros Hapi. unfold callAction. unfold bind at 1. unfold get_world at 1.
  cbv iota beta. rewrite Hapi.
  rewrite (emits_then _ _ _ _ (emit_run _)), (emits_then _ _ _ _ (emit_run _)).
  rewrite set_trace_set_trace. cbn [trace set_trace]. rewrite <- app_assoc. cbn [app].
  unfold bind at 1.
  match goal with
  | |- context [match ?m ?w0 with _ => _ end] =>
      destruct (m w0) as [[[rs es]|e|] w1]; [|reflexivity..]
  end.
  rewrite (emits_then _ _ _ _ (emit_run _)), (emits_then _ _ _ _ (emit_run _)).
  rewrite set_trace_set_trace. cbn [trace set_trace]. by rewrite <- app_assoc.
Qed.

End action_more.

(** X13.  For a workspace with an instance [callAction] never rejects,
    whatever the handlers do: when it resolves, [results] and [errors]
    have the same length, the number of handlers registered for the id;
    and for an id without handlers it resolves with two empty arrays after
    publishing the "called" and the "resolved" event. *)
Theorem callAction_never_rejects {Ext} (id : string) (params : JSVal)
    (file : option string) (w : World Ext) (pluginApi : PluginApi Ext) :
  getApi (default (cwd w) file) w = Some pluginApi ->
  let c := fst (callAction id params file w) in
  (forall e, c <> Throws e)
  /\ (forall res, c = Returns res ->
        length (results res) = length (default [] (api_actions pluginApi !! id))
        /\ length (errors res) = length (default [] (api_actions pluginApi !! id)))
  /\ (api_actions pluginApi !! id = None ->
      callAction id params file w
      = (Returns (mkActionResult id params [] []),
         set_trace (trace w
                    ++ [EPublish PLUGIN_ACTION_CALLED (PluginActionCalled id params);
                        ELog "PluginAction called";
                        EPublish PLUGIN_ACTION_RESOLVED
                          (PluginActionResolved id params [] []);
                        ELog "PluginAction resolved"]) w)).
Proof.
  intros Hapi c. subst c.
  rewrite (callAction_run id params file w pluginApi Hapi).
  destruct (api_actions pluginApi !! id) as [handlers|].
  - match goal with
    | |- context [run_actions id handlers params [] [] ?w0] =>
        pose proof (run_actions_never_throws id handlers params [] [] w0) as Hloop;
        destruct (run_actions id handlers params [] [] w0) as [[[rs es]|e|] w1]
    end;
      destruct (Hloop _ _ eq_refl) as [Hnever Hlen].
    + destruct (Hlen rs es eq_refl) as [Hr He]. simpl in Hr, He. cbn.
      split; [done|]. split; [|done]. intros res [= <-]. simpl. by split.
    + by destruct (Hnever e).
    + cbn. split; [done|]. split; [|done]. intros res Hres. discriminate Hres.
  - cbn [ret fst]. split; [done|]. split; [by intros res [= <-]|].
    intros _. cbn [trace set_trace]. rewrite set_trace_set_trace.
    by rewrite <- !app_assoc.
Qed.

(** X13, witness: the instance of [/ws] has handlers for [build] only. *)
Lemma callAction_never_rejects_witness :
  fst (callAction "lint" VNull None demo_world_with_action)
  = Returns (mkActionResult "lint" VNull [] []).
Proof.
  destruct (callAction_never_rejects "lint" VNull None demo_world_with_action
              demo_instance_with_action eq_refl) as (_ & _ & Hnone).
  rewrite Hnone; reflexivity.
Defined.

Section update_more.
Context {Ext : Type}.
Implicit Types (w : World Ext) (E : Env Ext).

(** How the branch of [update] on [localPath] ends: it fails exactly when
    one of its awaited calls does. *)
Lemma update_branch_outcome E (id : string) (full : option bool) (version : Version) w :
  match localPath version with
  | Some path =>
      if truthy_string path
      then updateLocalPackage E id (cwd w) path full
      else await_call E (EUpdatePackage (cwd w) (getCommand E (cwd w)) id)
  | None => await_call E (EUpdatePackage (cwd w) (getCommand E (cwd w)) id)
  end w
  = (if existsb (rejects E) (update_transfers E (cwd w) id version full)
     then Throws (VError "rejected") else Returns tt,
     set_trace (trace w ++ update_transfers E (cwd w) id version full) w).
Proof.
  unfold update_transfers, registry_update, local_resync, updateLocalPackage.
  destruct (localPath version) as [path|];
    [destruct (truthy_string path)|];
    try (rewrite await_call_run; cbn [existsb]; by rewrite orb_false_r).
  destruct (default true full).
  - unfold bind. rewrite await_call_run.
    destruct (rejects E (EFsRemove _)) eqn:Hrm; cbn [existsb]; rewrite Hrm; [done|].
    rewrite await_call_run, set_trace_set_trace. cbn [trace set_trace orb].
    by rewrite orb_false_r, <- app_assoc.
  - rewrite await_call_run. cbn [existsb]. by rewrite orb_false_r.
Qed.

(** The run of the operation of [update] up to the end of its branch. *)
Lemma update_operation_prefix E (id : string) (full : option bool) w (version : Version) :
  getVersion E (List.find (fun p => bool_decide (plugin_id p = id)) (getPlugins (cwd w) w))
  = Some version ->
  let before := ESetProgress "plugin-update" "plugin-update" [id]
                :: match List.find (fun p => bool_decide (plugin_id p = id))
                           (getPlugins (cwd w) w) with
                   | None => [ELog "Plugin Not found"]
                   | Some _ => []
                   end in
  let w3 := set_trace (trace w ++ before ++ update_transfers E (cwd w) id version full)
              (set_currentPluginId (Some id) w) in
  update_operation E id full w
  = if existsb (rejects E) (update_transfers E (cwd w) id version full)
    then (Throws (VError "rejected"), w3)
    else (let* _ := emit (ELogsAdd "info"
                            ("Plugin " +:+ id +:+ " updated from " +:+ current version
                             +:+ " to " +:+ wanted version)) in
          let* _ := emit (ENotify "Plugin updated") in
          let* _ := resetPluginApi E (cwd w) false in
          let* _ := emit (EInvalidatePackage id) in
          let* _ := modify (set_currentPluginId None) in
          findOne id (cwd w)) w3.
Proof.
  intros Hv before w3. unfold update_operation.
  rewrite (emits_then _ _ _ _ (emit_run _)).
  unfold bind at 1. unfold modify at 1. cbv iota beta.
  unfold bind at 1. unfold get_world at 1. cbv iota beta.
  unfold bind at 1. rewrite findOne_run. cbv iota beta.
  cbn [cwd set_currentPluginId set_trace].
  change (getPlugins (cwd w) (set_currentPluginId _ _)) with (getPlugins (cwd w) w).
  rewrite Hv. unfold bind at 1.
  match goal with
  | |- context [match ?br ?w0 with _ => _ end] =>
      pose proof (update_branch_outcome E id full version w0) as Hb
  end.
  cbn [cwd set_trace set_currentPluginId] in Hb. rewrite Hb.
  cbn [trace set_trace set_currentPluginId].
  replace (set_trace _ _) with w3.
  2: { unfold w3, before. unfold set_trace, set_currentPluginId. cbn. f_equal.
       by rewrite <- !app_assoc. }
  by destruct (existsb _ _).
Qed.

End update_more.

(** X14.  When an awaited call of the update itself fails (the package
    manager, or the removal or the copy of a local resync), an admitted
    [update] rejects right after that call: nothing is logged as updated,
    no notification is sent, the plugin API is not reset, the stores and
    instances are as before, and the plugin stays marked as the one being
    updated. *)
Theorem update_failed_transfer {Ext} (E : Env Ext) (id : string) (full : option bool)
    (w : World Ext) (version : Version) :
  getVersion E (List.find (fun p => bool_decide (plugin_id p = id)) (getPlugins (cwd w) w))
  = Some version ->
  "plugin-update" ∉ progress w ->
  existsb (rejects E) (update_transfers E (cwd w) id version full) = true ->
  exists w',
    update E id full w = (Throws (VError "rejected"), w')
    /\ currentPluginId w' = Some id
    /\ pluginsStore w' = pluginsStore w
    /\ pluginApiInstances w' = pluginApiInstances w
    /\ trace w'
       = trace w
         ++ ESetProgress "plugin-update" "plugin-update" [id]
            :: match List.find (fun p => bool_decide (plugin_id p = id))
                       (getPlugins (cwd w) w) with
               | None => [ELog "Plugin Not found"]
               | Some _ => []
               end
         ++ update_transfers E (cwd w) id version full.
Proof.
  intros Hv Hadm Hrej. unfold update, progress_wrap, progress_begin.
  rewrite decide_False by done.
  pose proof (update_operation_prefix E id full
                (set_progress ({["plugin-update"]} ∪ progress w) w) version Hv) as Hrun.
  cbv zeta in Hrun. cbn [cwd set_progress] in Hrun.
  change (getPlugins (cwd w) (set_progress _ w)) with (getPlugins (cwd w) w) in Hrun.
  rewrite Hrej in Hrun. rewrite Hrun. eexists. split; [reflexivity|].
  cbn. repeat split; by rewrite <- ?app_assoc.
Qed.

(** X14, witness: the package manager fails for a registry plugin. *)
Lemma update_failed_transfer_witness :
  exists w',
    update failing_update_env "vue-cli-plugin-x" None demo_world_with_plugin
    = (Throws (VError "rejected"), w')
    /\ currentPluginId w' = Some "vue-cli-plugin-x"
    /\ trace w' = [ESetProgress "plugin-update" "plugin-update" ["vue-cli-plugin-x"];
                   EUpdatePackage "/ws" "yarn" "vue-cli-plugin-x"].
Proof.
  destruct (update_failed_transfer failing_update_env "vue-cli-plugin-x" None
              demo_world_with_plugin (mkVersion "1.0.0" "1.1.0" None) eq_refl
              ltac:(apply not_elem_of_empty) eq_refl)
    as (w' & Hrun & Hcur & _ & _ & Htrace).
  exists w'. split; [exact Hrun|]. split; [exact Hcur|]. rewrite Htrace. reflexivity.
Defined.



(** ** [updateAll] *)

Section updateAll_facts.
Context {Ext : Type}.
Implicit Types (w : World Ext) (E : Env Ext).

(** The loop, when every [getVersion] resolves: the outdated plugins in
    the order listed, one invalidation for each. *)
Lemma updateAll_loop_run E (plugins updatedPlugins : list Plugin) w :
  Forall (fun p => is_Some (getVersion E (Some p))) plugins ->
  updateAll_loop E plugins updatedPlugins w
  = (Returns (updatedPlugins ++ List.filter (is_outdated E) plugins),
     set_trace (trace w ++ map (fun p => EInvalidatePackage (plugin_id p))
                             (List.filter (is_outdated E) plugins)) w).
Proof.
  intros Hall. revert updatedPlugins w.
  induction Hall as [|p plugins [version Hv] _ IH]; intros updatedPlugins w.
  - simpl. by rewrite !app_nil_r, set_trace_trace.
  - assert (Ho : is_outdated E p = negb (bool_decide (current version = wanted version)))
      by (unfold is_outdated; by rewrite Hv).
    cbn [updateAll_loop List.filter]. rewrite Hv, Ho. destruct (negb _).
    + rewrite (emits_then _ _ _ _ (emit_run _)), IH.
      cbn [trace set_trace map]. rewrite set_trace_set_trace.
      by rewrite <- !app_assoc.
    + apply IH.
Qed.

(** The loop stops at the first plugin whose [getVersion] rejects. *)
Lemma updateAll_loop_rejected E (before : list Plugin) (p : Plugin) (rest : list Plugin)
    (updatedPlugins : list Plugin) w :
  Forall (fun p => is_Some (getVersion E (Some p))) before ->
  getVersion E (Some p) = None ->
  updateAll_loop E (before ++ p :: rest) updatedPlugins w
  = (Throws (VError "getVersion failed"),
     set_trace (trace w ++ map (fun p => EInvalidatePackage (plugin_id p))
                             (List.filter (is_outdated E) before)) w).
Proof.
  intros Hall Hp. revert updatedPlugins w.
  induction Hall as [|q before [version Hv] _ IH]; intros updatedPlugins w.
  - simpl. rewrite Hp. by rewrite app_nil_r, set_trace_trace.
  - assert (Ho : is_outdated E q = negb (bool_decide (current version = wanted version)))
      by (unfold is_outdated; by rewrite Hv).
    cbn [app updateAll_loop List.filter]. rewrite Hv, Ho. destruct (negb _).
    + rewrite (emits_then _ _ _ _ (emit_run _)), IH.
      cbn [trace set_trace map]. rewrite set_trace_set_trace.
      by rewrite <- !app_assoc.
    + apply IH.
Qed.

(** [list] moves no file, runs no package manager, and leaves the working
    directory where it is. *)
Lemma plugins_list_quiet E (file : string) (opts : ListOptions) :
  respects (fun w w' => extends_trace no_transfer w w' /\ cwd w' = cwd w)
    (plugins_list E file opts).
Proof.
  set (R := fun w w' : World Ext => extends_trace no_transfer w w' /\ cwd w' = cwd w).
  assert (R_refl : forall w, R w w).
  { intros w. split; [apply extends_trace_refl|done]. }
  assert (R_trans : forall w1 w2 w3, R w1 w2 -> R w2 w3 -> R w1 w3).
  { intros w1 w2 w3 [H1 C1] [H2 C2]. split; [by eapply extends_trace_trans|].
    by rewrite C2. }
  assert (R_same : forall w w', trace w' = trace w -> cwd w' = cwd w -> R w w').
  { intros w w' Ht Hc. split; [|done]. exists []. by rewrite app_nil_r. }
  assert (R_emit : forall e w, is_transfer_event e = false ->
                               R w (set_trace (trace w ++ [e]) w)).
  { intros e w He. split; [|done]. exists [e]. split; [done|]. by constructor. }
  unfold plugins_list.
  apply respects_bind; [exact R_trans| |].
  { intros w c w' Hrun. destruct (resolve_manifest_run E file w) as (c0 & Hc0 & _).
    rewrite Hc0 in Hrun. injection Hrun as _ <-. apply R_refl. }
  intros [pkgContext pkg].
  apply respects_bind; [exact R_trans| |].
  { apply respects_modify. intros w. by apply R_same. }
  intros _. apply respects_bind; [exact R_trans|by apply respects_get_world|].
  intros w0. destruct (deepEqual _ _); [by apply respects_ret|].
  apply respects_bind; [exact R_trans| |].
  { apply respects_modify. intros w. by apply R_same. }
  intros _. apply respects_bind; [exact R_trans| |].
  { apply respects_modify. intros w. by apply R_emit. }
  intros _. apply respects_bind; [exact R_trans| |intros _; by apply respects_ret].
  destruct (_ || _); [|by apply respects_ret].
  apply respects_bind; [exact R_trans| |intros _; by apply respects_ret].
  apply respects_resetPluginApi; solve [done | intros; by apply R_same].
Qed.

(** A run of [updateAll] that is admitted, whose listing resolves and
    whose [getVersion] calls all resolve. *)
Lemma updateAll_run E w (plugins : list Plugin) w1 :
  "plugins-update" ∉ progress w ->
  plugins_list E (cwd w) (mkListOptions false false true)
    (set_progress ({["plugins-update"]} ∪ progress w) w) = (Returns plugins, w1) ->
  Forall (fun p => is_Some (getVersion E (Some p))) plugins ->
  let outdated := List.filter (is_outdated E) plugins in
  exists c w',
    updateAll E w = (c, w')
    /\ (forall r, c = Returns r -> r = outdated)
    /\ (outdated = [] ->
          c = Returns [] /\ trace w' = trace w1 ++ [ENotify "No updates available"])
    /\ (outdated <> [] ->
          exists tail,
            trace w'
            = trace w1
              ++ map (fun p => EInvalidatePackage (plugin_id p)) outdated
              ++ [ESetProgress "plugins-update" "plugins-update" [pretty (length outdated)];
                  updateAll_call E (cwd w) outdated]
              ++ tail
            /\ Forall no_transfer tail
            /\ (rejects E (updateAll_call E (cwd w) outdated) = true ->
                  c = Throws (VError "rejected") /\ tail = [])).
Proof.
  intros Hadm Hlist Hall outdated.
  destruct (plugins_list_quiet E _ _ _ _ _ Hlist) as [_ Hcwd].
  cbn [cwd set_progress] in Hcwd.
  unfold updateAll, progress_wrap, progress_begin. rewrite decide_False by done.
  unfold updateAll_operation. unfold bind at 1. unfold get_world at 1. cbv iota beta.
  cbn [cwd set_progress]. rewrite (bind_run _ _ _ _ _ Hlist).
  rewrite (bind_run _ _ _ _ _ (updateAll_loop_run E plugins [] w1 Hall)).
  cbn [app]. fold outdated. destruct outdated as [|p0 outdated0] eqn:Hout.
  - rewrite (emits_then _ _ _ _ (emit_run _)). unfold ret.
    eexists _, _. split; [reflexivity|]. split; [by intros r [= <-]|].
    split; [|done]. intros _. split; [done|].
    cbn. by rewrite app_nil_r.
  - rewrite (emits_then _ _ _ _ (emit_run _)).
    unfold bind at 1. unfold get_world at 1. cbv iota beta.
    cbn [cwd set_trace]. rewrite Hcwd.
    fold (updateAll_call E (cwd w) (p0 :: outdated0)).
    unfold bind at 1. rewrite await_call_run.
    destruct (rejects E (updateAll_call E (cwd w) (p0 :: outdated0))) eqn:Hrej.
    { eexists _, _. split; [reflexivity|]. split; [by intros r [=]|].
      split; [done|]. intros _. exists []. split; [|split; [constructor|done]].
      cbn. by rewrite <- !app_assoc. }
    rewrite (emits_then _ _ _ _ (emit_run _)).
    unfold bind at 1. unfold get_world at 1. cbv iota beta.
    cbn [cwd set_trace]. rewrite Hcwd.
    match goal with
    | |- context [bind (resetPluginApi E (cwd w) false) _ ?w0] =>
        pose proof (resetPluginApi_no_transfer E (cwd w) false w0) as Hquiet;
        unfold bind at 1;
        destruct (resetPluginApi E (cwd w) false w0) as [[b|e|] w5] eqn:Hreset
    end.
    all: destruct (Hquiet _ _ eq_refl) as (es & Hes & Hno).
    all: cbn [trace set_trace] in Hes.
    all: eexists _, _; (split; [reflexivity|]).
    all: split; [try (by intros r [= <-]); by intros r [=]|].
    all: split; [done|]; intros _.
    all: exists (ENotify "Plugins updated" :: es).
    all: split; [|split; [by constructor|done]].
    all: cbn [trace set_progress]; rewrite Hes; cbn; by rewrite <- !app_assoc.
Qed.

End updateAll_facts.

(** X16.  An admitted [updateAll] whose listing resolves and whose
    [getVersion] calls all resolve.  It can only resolve with the listed
    plugins whose current version is not the wanted one, in the order
    listed.  When there is none, it resolves with the empty list after the
    single notification that no update is available: the package manager
    is not run and the plugin API is not reset.  Otherwise every outdated
    plugin is invalidated first, then progress is set to their number and
    the package manager is run once, with the identifiers joined by a
    space; no other call to the package manager or to the file system
    follows, and when that one call fails [updateAll] rejects right after
    it, the invalidations having been made already. *)
Theorem updateAll_outcome {Ext} (E : Env Ext) (w : World Ext) (plugins : list Plugin)
    (w1 : World Ext) :
  "plugins-update" ∉ progress w ->
  plugins_list E (cwd w) (mkListOptions false false true)
    (set_progress ({["plugins-update"]} ∪ progress w) w) = (Returns plugins, w1) ->
  Forall (fun p => is_Some (getVersion E (Some p))) plugins ->
  let outdated := List.filter (is_outdated E) plugins in
  let c := fst (updateAll E w) in
  let w' := snd (updateAll E w) in
  (forall r, c = Returns r -> r = outdated)
  /\ (outdated = [] ->
        c = Returns [] /\ trace w' = trace w1 ++ [ENotify "No updates available"])
  /\ (outdated <> [] ->
        exists tail,
          trace w'
          = trace w1
            ++ map (fun p => EInvalidatePackage (plugin_id p)) outdated
            ++ [ESetProgress "plugins-update" "plugins-update" [pretty (length outdated)];
                updateAll_call E (cwd w) outdated]
            ++ tail
          /\ Forall no_transfer tail
          /\ (rejects E (updateAll_call E (cwd w) outdated) = true ->
                c = Throws (VError "rejected") /\ tail = []))
  /\ extends_trace no_transfer w w1.
Proof.
  intros Hadm Hlist Hall outdated c w'. subst c w'.
  destruct (updateAll_run E w plugins w1 Hadm Hlist Hall) as (c & w' & Hrun & H1 & H2 & H3).
  rewrite Hrun. cbn [fst snd]. split; [exact H1|]. split; [exact H2|].
  split; [exact H3|]. by destruct (plugins_list_quiet E _ _ _ _ _ Hlist).
Qed.

(** X16, witness: the one listed plugin of the bundle manifest is
    outdated. *)
Lemma updateAll_outcome_witness :
  exists tail,
    trace (snd (updateAll vuedesk_env demo_world))
    = trace listed_for_update
      ++ [EInvalidatePackage "vuedesk-build-bundle";
          ESetProgress "plugins-update" "plugins-update" ["1"];
          EUpdatePackage "/ws" "yarn" "vuedesk-build-bundle"]
      ++ tail
    /\ Forall no_transfer tail.
Proof.
  assert (Hrun : plugins_list vuedesk_env (cwd demo_world) (mkListOptions false false true)
                   (set_progress ({["plugins-update"]} ∪ progress demo_world) demo_world)
                 = (Returns [bundle_plugin], listed_for_update)).
  { unfold listed_for_update. cbn [cwd progress demo_world].
    destruct (plugins_list vuedesk_env "/ws" (mkListOptions false false true) _)
      as [c w1] eqn:H.
    simpl. f_equal. apply (f_equal fst) in H. simpl in H. rewrite <- H.
    vm_compute. reflexivity. }
  destruct (updateAll_outcome vuedesk_env demo_world [bundle_plugin] listed_for_update
              ltac:(apply not_elem_of_empty) Hrun
              ltac:(repeat constructor; by eexists))
    as (_ & _ & Hsome & _).
  destruct (Hsome ltac:(discriminate)) as (tail & Htrace & Hquiet & _).
  exists tail. split; [exact Htrace | exact Hquiet].
Defined.

(** X17.  When [getVersion] rejects for a listed plugin, an admitted
    [updateAll] rejects at that plugin: the plugins listed before it that
    were outdated have been invalidated already, the plugins after it are
    not looked at, nothing is notified, the package manager is not run and
    the plugin API is not reset. *)
Theorem updateAll_getVersion_rejected {Ext} (E : Env Ext) (w : World Ext)
    (before : list Plugin) (p : Plugin) (rest : list Plugin) (w1 : World Ext) :
  "plugins-update" ∉ progress w ->
  plugins_list E (cwd w) (mkListOptions false false true)
    (set_progress ({["plugins-update"]} ∪ progress w) w)
  = (Returns (before ++ p :: rest), w1) ->
  Forall (fun p => is_Some (getVersion E (Some p))) before ->
  getVersion E (Some p) = None ->
  let c := fst (updateAll E w) in
  let w' := snd (updateAll E w) in
  c = Throws (VError "getVersion failed")
  /\ trace w'
     = trace w1 ++ map (fun p => EInvalidatePackage (plugin_id p))
                       (List.filter (is_outdated E) before)
  /\ pluginApiInstances w' = pluginApiInstances w1
  /\ pluginsStore w' = pluginsStore w1.
Proof.
  intros Hadm Hlist Hall Hp c w'. subst c w'.
  assert (Hrun : exists w2,
             updateAll E w = (Throws (VError "getVersion failed"), w2)
             /\ trace w2 = trace w1 ++ map (fun p => EInvalidatePackage (plugin_id p))
                                           (List.filter (is_outdated E) before)
             /\ pluginApiInstances w2 = pluginApiInstances w1
             /\ pluginsStore w2 = pluginsStore w1).
  { unfold updateAll, progress_wrap, progress_begin. rewrite decide_False by done.
    unfold updateAll_operation. unfold bind at 1. unfold get_world at 1. cbv iota beta.
    cbn [cwd set_progress]. rewrite (bind_run _ _ _ _ _ Hlist).
    unfold bind. rewrite (updateAll_loop_rejected E before p rest [] w1 Hall Hp).
    eexists. split; [reflexivity|]. done. }
  destruct Hrun as (w2 & -> & Hrest). exact (conj eq_refl Hrest).
Qed.

(** X17, witness: the registry does not answer for the first plugin
    listed. *)
Lemma updateAll_getVersion_rejected_witness :
  fst (updateAll no_version_env demo_world) = Throws (VError "getVersion failed")
  /\ trace (snd (updateAll no_version_env demo_world)) = trace listed_without_versions.
Proof.
  assert (Hrun : plugins_list no_version_env (cwd demo_world) (mkListOptions false false true)
                   (set_progress ({["plugins-update"]} ∪ progress demo_world) demo_world)
                 = (Returns ([] ++ bundle_plugin :: []), listed_without_versions)).
  { unfold listed_without_versions. cbn [cwd progress demo_world].
    destruct (plugins_list no_version_env "/ws" (mkListOptions false false true) _)
      as [c w1] eqn:H.
    simpl. f_equal. apply (f_equal fst) in H. simpl in H. rewrite <- H.
    vm_compute. reflexivity. }
  destruct (updateAll_getVersion_rejected no_version_env demo_world [] bundle_plugin []
              listed_without_versions ltac:(apply not_elem_of_empty) Hrun
              ltac:(constructor) eq_refl)
    as (Hc & Htrace & _).
  split; [exact Hc|]. rewrite Htrace. cbn. by rewrite app_nil_r.
Defined.

(** * Further properties of the command registry *)

Section registry_more.
Context {Ext : Type}.
Implicit Types (c : MetaCommand Ext) (r : Registry Ext) (cmds : list (MetaCommand Ext)).

Lemma addCommands_snoc cmds c r :
  addCommands (cmds ++ [c]) r = addCommand c (addCommands cmds r).
Proof. unfold addCommands. by rewrite fold_left_app. Qed.

(** [commandsMap.set] overwrites: the map holds, under every identifier,
    the command added last. *)
Lemma addCommands_commandsMap_last cmds (i : string) :
  commandsMap (addCommands cmds (@empty_registry Ext)) !! i = last_added cmds i.
Proof.
  unfold last_added. induction cmds as [|c cmds IH] using rev_ind; [done|].
  rewrite addCommands_snoc, rev_unit. cbn [commandsMap addCommand List.find].
  destruct (decide (cmd_id c = i)) as [<-|Hne].
  - by rewrite lookup_insert_eq, bool_decide_eq_true_2.
  - by rewrite lookup_insert_ne, bool_decide_eq_false_2.
Qed.

Lemma last_added_Some cmds (i : string) c :
  last_added cmds i = Some c -> In c cmds /\ cmd_id c = i.
Proof.
  unfold last_added. intros H. apply find_some in H as [Hin Hid].
  split; [by apply in_rev|]. by apply bool_decide_eq_true in Hid.
Qed.

Lemma last_added_is_Some cmds c :
  In c cmds -> exists c', last_added cmds (cmd_id c) = Some c'.
Proof.
  intros Hin. unfold last_added.
  destruct (List.find _ (rev cmds)) as [c'|] eqn:Hf; [by exists c'|].
  apply in_rev in Hin. pose proof (find_none _ _ Hf c Hin) as Hc. cbv beta in Hc.
  by rewrite bool_decide_eq_true_2 in Hc.
Qed.

(** A hidden command takes no part in the recent list. *)
Lemma recent_candidate_hidden (type : option CommandType) c :
  cmd_hidden c = true -> recent_candidate type c = false.
Proof. intros H. unfold recent_candidate. rewrite H. by destruct type. Qed.

(** The recent list is the front of the sorted candidates, the rest of
    which ranks behind. *)
Lemma getRecentCommands_split (type : option CommandType) r :
  exists behind,
    Permutation (getRecentCommands type r ++ behind) (recent_candidates type r)
    /\ (forall a c, In a (getRecentCommands type r) -> In c behind -> ranks_not_below a c).
Proof.
  exists (drop 20 (js_sort recent_cmp (recent_candidates type r))).
  unfold getRecentCommands. fold (recent_candidates type r). split.
  - rewrite take_drop. apply js_sort_perm.
  - intros a c Ha Hc. apply recent_cmp_ranks.
    eapply (StronglySorted_app_1_elem_of (fun a b => recent_cmp a b <= 0));
      [|by apply list_elem_of_In; exact Ha|by apply list_elem_of_In; exact Hc].
    rewrite take_drop. apply js_sort_sorted.
    + apply recent_cmp_total.
    + apply recent_cmp_trans.
Qed.

End registry_more.

(** X18.  In a registry built by [addCommand] calls, hidden or not and
    with identifiers reused or not, [searchCommands] never yields
    [undefined]: every entry of a result is a command that was added, and
    for a query that is not empty it is the command added last under its
    identifier, since [commandsMap.set] overwrites the earlier ones. *)
Theorem searchCommands_gives_last_added {Ext} (L : Lunr) (cmds : list (MetaCommand Ext))
    (text : string) :
  Forall (fun oc => exists c, oc = Some c /\ In c cmds
                              /\ (query_text text <> "" ->
                                  last_added cmds (cmd_id c) = Some c))
    (searchCommands L text (addCommands cmds empty_registry)).
Proof.
  apply List.Forall_forall. intros oc Hoc.
  unfold searchCommands in Hoc. cbv zeta in Hoc. fold (query_text text) in Hoc.
  destruct (truthy_string (query_text text)) eqn:Hq; cbn [negb] in Hoc.
  - apply in_map_iff in Hoc as (ref & <- & Href).
    apply lunr_search_In in Href as (d & Hd & Href & _).
    apply scoped_index_docs in Hd as (c0 & -> & Hin & _).
    cbn [doc_of doc_ref] in Href. subst ref.
    rewrite addCommands_commandsMap_last.
    destruct (last_added_is_Some cmds c0 Hin) as (c & Hc).
    destruct (last_added_Some _ _ _ Hc) as [Hin' Hid].
    exists c. split; [done|]. split; [done|]. intros _. by rewrite Hid.
  - apply in_map_iff in Hoc as (c & <- & Hc). exists c. split; [done|]. split.
    + revert c Hc. apply List.Forall_forall, getRecentCommands_Forall, List.Forall_forall.
      intros c Hc. apply List.filter_In in Hc as [Hc _].
      by rewrite addCommands_commands in Hc.
    + intros Hne. by destruct (query_text text).
Qed.

(** X19.  The recent list holds the best ranked candidates: a candidate
    that was cut off at the limit of 20 never ranks before a command of the
    list (the candidates are the list together with those cut off), and
    when there are no more than 20 candidates none is cut off. *)
Theorem recent_commands_are_best_ranked {Ext} (type : option CommandType) (r : Registry Ext) :
  (exists behind,
     Permutation (getRecentCommands type r ++ behind) (recent_candidates type r)
     /\ (forall a c, In a (getRecentCommands type r) -> In c behind -> ranks_not_below a c))
  /\ ((length (recent_candidates type r) <= 20)%nat ->
      Permutation (getRecentCommands type r) (recent_candidates type r))
  /\ length (getRecentCommands type r) = Nat.min 20 (length (recent_candidates type r)).
Proof.
  split; [apply getRecentCommands_split|]. split.
  - intros Hlen. unfold getRecentCommands. fold (recent_candidates type r).
    rewrite take_ge; [apply js_sort_perm|].
    by rewrite (Permutation_length (js_sort_perm recent_cmp _)).
  - unfold getRecentCommands. fold (recent_candidates type r).
    by rewrite length_take, (Permutation_length (js_sort_perm recent_cmp _)).
Qed.

(** X20.  Adding a hidden command under an identifier that is not in use
    changes the result of no search, with or without a type prefix, empty
    query or not. *)
Theorem hidden_command_changes_no_search {Ext} (L : Lunr) (cmds : list (MetaCommand Ext))
    (c : MetaCommand Ext) (text : string) :
  cmd_hidden c = true ->
  ~ In (cmd_id c) (map cmd_id cmds) ->
  searchCommands L text (addCommand c (addCommands cmds empty_registry))
  = searchCommands L text (addCommands cmds empty_registry).
Proof.
  intros Hh Hfresh. unfold searchCommands. cbv zeta.
  set (r := addCommands cmds empty_registry).
  assert (Hrecent : forall type, getRecentCommands type (addCommand c r)
                                 = getRecentCommands type r).
  { intros type. unfold getRecentCommands. cbn [commands addCommand].
    rewrite List.filter_app. cbn [List.filter].
    by rewrite (recent_candidate_hidden type c Hh), app_nil_r. }
  assert (Hidx : forall scope : option CommandType,
             match scope with
             | Some t => searchIndexes (addCommand c r) t
             | None => globalSearchIndex (addCommand c r)
             end
             = match scope with
               | Some t => searchIndexes r t
               | None => globalSearchIndex r
               end).
  { intros [t|]; cbn [searchIndexes globalSearchIndex addCommand]; by rewrite Hh. }
  rewrite Hrecent, Hidx. destruct (negb _); [done|].
  apply map_ext_in. intros ref Href. cbn [commandsMap addCommand].
  apply lookup_insert_ne. intros <-. apply Hfresh.
  apply lunr_search_In in Href as (d & Hd & Href & _).
  apply scoped_index_docs in Hd as (c0 & -> & Hin & _).
  cbn [doc_of doc_ref] in Href. rewrite <- Href. by apply in_map.
Qed.

(** X20, witness: a hidden command added to the recency example. *)
Lemma hidden_command_changes_no_search_witness :
  searchCommands prefix_lunr ">al"
    (addCommand (demo_command "secret" Action "alarm" true None)
       (addCommands [cmd_a; cmd_b] empty_registry))
  = [Some cmd_a].
Proof.
  rewrite (hidden_command_changes_no_search prefix_lunr [cmd_a; cmd_b]
             (demo_command "secret" Action "alarm" true None) ">al" eq_refl).
  - vm_compute. reflexivity.
  - vm_compute. intros [H|[H|[]]]; discriminate H.
Defined.

(** * Properties of the installation operations *)

Section install_facts.
Context {Ext : Type}.
Implicit Types (s : InstallState Ext) (E : InstallEnv Ext) (w : World Ext).

Lemma bindI_run {A B} (m : MI Ext A) (k : A -> MI Ext B) s a s1 :
  m s = (Returns a, s1) -> bindI m k s = k a s1.
Proof. intros H. unfold bindI. by rewrite H. Qed.

Lemma lift_emit_run (e : Event) s :
  lift (emit e) s
  = (Returns tt, set_world (set_trace (trace (world s) ++ [e]) (world s)) s).
Proof. reflexivity. Qed.

Lemma call_run (c : InstallCall) s :
  call c s = (Returns tt, set_calls (calls s ++ [c]) s).
Proof. reflexivity. Qed.

Lemma set_calls_calls s : set_calls (calls s) s = s.
Proof. by destruct s. Qed.

Lemma set_calls_set_calls (l1 l2 : list InstallCall) s :
  set_calls l2 (set_calls l1 s) = set_calls l2 s.
Proof. reflexivity. Qed.

Lemma call_all_run (cs : list InstallCall) s :
  call_all cs s = (Returns tt, set_calls (calls s ++ cs) s).
Proof.
  revert s. induction cs as [|c cs IH]; intros s; simpl.
  - by rewrite app_nil_r, set_calls_calls.
  - unfold bindI. rewrite call_run, IH. simpl. by rewrite <- app_assoc.
Qed.

Lemma await_install_call_run E (c : InstallCall) s :
  await_install_call E c s
  = (if call_rejects E c then Throws (VError "rejected") else Returns tt,
     set_calls (calls s ++ [c]) s).
Proof.
  unfold await_install_call, bindI. rewrite call_run. by destruct (call_rejects E c).
Qed.

Lemma getInstallation_run E s :
  getInstallation E s = (Returns (installation_of E s), set_eventsInstalled true s).
Proof.
  unfold getInstallation, bindI, get_state, installation_of.
  destruct s as [w st [] cs]; reflexivity.
Qed.

Lemma read_manifest_same (E0 : Env Ext) (file : string) w :
  exists c, read_manifest E0 file w = (c, w).
Proof. unfold read_manifest. destruct (readPackage E0 file); by eexists. Qed.

(** *** Frames *)

Lemma only_calls_refl (Q : InstallCall -> Prop) s : only_calls Q s s.
Proof. repeat split. exists []. by rewrite app_nil_r. Qed.

Lemma only_calls_trans (Q : InstallCall -> Prop) s1 s2 s3 :
  only_calls Q s1 s2 -> only_calls Q s2 s3 -> only_calls Q s1 s3.
Proof.
  intros (W1 & I1 & V1 & cs1 & C1 & Q1) (W2 & I2 & V2 & cs2 & C2 & Q2).
  split; [by rewrite W2|]. split; [by rewrite I2|]. split; [by rewrite V2|].
  exists (cs1 ++ cs2). split; [by rewrite C2, C1, <- app_assoc|]. by apply Forall_app.
Qed.

Lemma only_calls_added (Q : InstallCall -> Prop) (cs : list InstallCall) s :
  Forall Q cs -> only_calls Q s (set_calls (calls s ++ cs) s).
Proof. intros H. repeat split. by exists cs. Qed.

Lemma only_calls_weaken (Q Q' : InstallCall -> Prop) s s' :
  (forall c, Q c -> Q' c) -> only_calls Q s s' -> only_calls Q' s s'.
Proof.
  intros HQ (W & I & V & cs & C & HF). repeat split; try done.
  exists cs. split; [done|]. eapply Forall_impl; [exact HF|done].
Qed.

Lemma respectsI_bind {A B} (R : InstallState Ext -> InstallState Ext -> Prop)
    (m : MI Ext A) (k : A -> MI Ext B) :
  (forall s1 s2 s3, R s1 s2 -> R s2 s3 -> R s1 s3) ->
  respectsI R m -> (forall a, respectsI R (k a)) -> respectsI R (bindI m k).
Proof.
  intros R_trans Hm Hk s c s' H. unfold bindI in H.
  destruct (m s) as [[a| |] s1] eqn:Hr.
  - eapply R_trans; [by eapply Hm | by eapply Hk].
  - injection H as _ <-. by eapply Hm.
  - injection H as _ <-. by eapply Hm.
Qed.

Lemma respectsI_ret {A} (R : InstallState Ext -> InstallState Ext -> Prop) (a : A) :
  (forall s, R s s) -> respectsI R (retI a).
Proof. intros R_refl s c s' [= _ <-]. apply R_refl. Qed.

Lemma respectsI_throw {A} (R : InstallState Ext -> InstallState Ext -> Prop) (e : JSVal) :
  (forall s, R s s) -> respectsI R (@throwI Ext A e).
Proof. intros R_refl s c s' [= _ <-]. apply R_refl. Qed.

(** The debug-mode edit of the manifest reads and writes the manifest and
    does nothing else. *)
Lemma mock_edit_only_calls E (id : string)
    (edit : string -> list (string * string) -> list (string * string)) :
  respectsI (only_calls (fun c => is_package_manager_call c = false
                                  /\ is_child_process_call c = false))
    (let+ s := get_state in
     let+ pkg := lift (read_manifest (base E) (cwd (world s))) in
     match devDependencies pkg with
     | None => throwI TypeError
     | Some deps =>
         let+ _ := call (CWritePackage (cwd (world s))
                           (set_devDependencies (edit id deps) pkg)) in
         retI true
     end).
Proof.
  intros s c s' H. unfold bindI at 1 in H. unfold get_state at 1 in H. cbv iota beta in H.
  unfold bindI at 1 in H. unfold lift in H.
  destruct (read_manifest_same (base E) (cwd (world s)) (world s)) as (c0 & Hc0).
  rewrite Hc0 in H. replace (set_world (world s) s) with s in H by (by destruct s).
  destruct c0 as [pkg| |]; try (injection H as _ <-; apply only_calls_refl).
  destruct (devDependencies pkg) as [deps|];
    [|injection H as _ <-; apply only_calls_refl].
  unfold bindI in H. rewrite call_run in H. injection H as _ <-.
  apply only_calls_added. by repeat constructor.
Qed.

(** [initPrompts] talks to the prompts connector and the console and
    does nothing else. *)
Lemma initPrompts_only_calls E (id : string) :
  respectsI (only_calls (fun c => is_package_manager_call c = false
                                  /\ is_child_process_call c = false))
    (initPrompts E id).
Proof.
  set (Q := fun c => is_package_manager_call c = false /\ is_child_process_call c = false).
  unfold initPrompts.
  apply respectsI_bind; [apply only_calls_trans| |intros _].
  { intros s c s' H. rewrite await_install_call_run in H. injection H as _ <-.
    apply only_calls_added. by repeat constructor. }
  apply respectsI_bind; [apply only_calls_trans| |intros data].
  { intros s c s' H. unfold load_prompts, bindI, get_state in H.
    destruct (require_prompts E _) as [|d|[d|e|]];
      injection H as _ <-; apply only_calls_refl. }
  apply respectsI_bind; [apply only_calls_trans| |intros _].
  { intros s c s' H. destruct data as [ps|].
    - rewrite call_all_run in H. injection H as _ <-. apply only_calls_added.
      apply Forall_map, Forall_true. by intros p.
    - rewrite call_run in H. injection H as _ <-. apply only_calls_added.
      by repeat constructor. }
  intros s c s' H. rewrite await_install_call_run in H. injection H as _ <-.
  apply only_calls_added. by repeat constructor.
Qed.

(** [initPrompts] when the prompts connector answers: whatever the
    prompts module is (missing, throwing, not an array), the exception is
    swallowed; only a function that never settles keeps it from
    resolving. *)
Lemma initPrompts_run E (id : string) s :
  call_rejects E CPromptsReset = false ->
  call_rejects E CPromptsStart = false ->
  prompts_module_of E id (cwd (world s)) <> PromptsFunction Pending ->
  initPrompts E id s
  = (Returns tt,
     set_calls (calls s ++ [CPromptsReset]
                ++ prompts_calls id (loaded_prompts (prompts_module_of E id (cwd (world s))))
                ++ [CPromptsStart]) s).
Proof.
  intros Hreset Hstart Hmod. unfold initPrompts.
  unfold bindI at 1. rewrite await_install_call_run, Hreset.
  unfold bindI at 1. unfold load_prompts, bindI, get_state. cbn [world set_calls].
  unfold prompts_module_of in Hmod |- *.
  destruct (require_prompts E _) as [|d|[d|e|]]; try done; cbn [loaded_prompts retI].
  all: try destruct d as [ps|]; cbn [prompts_calls].
  all: rewrite ?call_all_run, ?call_run, await_install_call_run, Hstart.
  all: cbn [calls set_calls]; rewrite ?set_calls_set_calls, <- ?app_assoc; reflexivity.
Qed.

End install_facts.

Section install_runs.
Context {Ext : Type}.
Implicit Types (s : InstallState Ext) (E : InstallEnv Ext) (w : World Ext).

Lemma lift_modify_run (f : World Ext -> World Ext) s :
  lift (modify f) s = (Returns tt, set_world (f (world s)) s).
Proof. reflexivity. Qed.

Lemma modifyI_run (f : InstallState Ext -> InstallState Ext) s :
  modifyI f s = (Returns tt, f s).
Proof. reflexivity. Qed.

(** The step of [install] that brings the package in: the package
    manager, or the debug-mode edit of the manifest. *)
Lemma install_package_only_calls E (id : string) :
  respectsI (only_calls (fun c => is_child_process_call c = false
                                  /\ (mocked E id = true -> is_package_manager_call c = false)))
    (if mocked E id then let+ _ := mockInstall E id in retI tt
     else
       let+ s := get_state in
       await_install_call E
         (CInstallPackage (cwd (world s)) (getCommand (base E) (cwd (world s))) id)).
Proof.
  destruct (mocked E id).
  - intros s c s' H.
    eapply (only_calls_weaken (fun c => is_package_manager_call c = false
                                        /\ is_child_process_call c = false));
      [by intros c0 [? ?]|].
    eapply respectsI_bind; [apply only_calls_trans| | |exact H].
    + apply (mock_edit_only_calls E id (fun id deps => set_key id "*" deps)).
    + intros a. cbv beta. apply respectsI_ret, only_calls_refl.
  - intros s c s' H. unfold bindI, get_state in H. rewrite await_install_call_run in H.
    injection H as _ <-. apply only_calls_added. by repeat constructor.
Qed.

(** The same step of [uninstall]. *)
Lemma uninstall_package_only_calls E (id : string) :
  respectsI (only_calls (fun c => is_child_process_call c = false
                                  /\ (mocked E id = true -> is_package_manager_call c = false)))
    (if mocked E id then let+ _ := mockUninstall E id in retI tt
     else
       let+ s := get_state in
       await_install_call E
         (CUninstallPackage (cwd (world s)) (getCommand (base E) (cwd (world s))) id)).
Proof.
  destruct (mocked E id).
  - intros s c s' H.
    eapply (only_calls_weaken (fun c => is_package_manager_call c = false
                                        /\ is_child_process_call c = false));
      [by intros c0 [? ?]|].
    eapply respectsI_bind; [apply only_calls_trans| | |exact H].
    + apply (mock_edit_only_calls E id (fun id deps => delete_key id deps)).
    + intros a. cbv beta. apply respectsI_ret, only_calls_refl.
  - intros s c s' H. unfold bindI, get_state in H. rewrite await_install_call_run in H.
    injection H as _ <-. apply only_calls_added. by repeat constructor.
Qed.

(** Every run of the operation of [install]. *)
Lemma install_operation_run E (id : string) s c s1 :
  install_operation E id s = (c, s1) ->
  (exists cs, calls s1 = calls s ++ cs
              /\ Forall (fun c => is_child_process_call c = false
                                  /\ (mocked E id = true -> is_package_manager_call c = false))
                   cs)
  /\ match c with
     | Returns r =>
         r = installation_of E s1
         /\ installationStep s1 = Some "config"
         /\ eventsInstalled s1 = true
         /\ world s1
            = set_trace (trace (world s) ++ [ESetProgress PROGRESS_ID "plugin-install" [id];
                                             ENotify "Plugin installed"])
                (set_currentPluginId (Some id) (world s))
     | _ =>
         installationStep s1 = Some "install"
         /\ eventsInstalled s1 = eventsInstalled s
         /\ world s1
            = set_trace (trace (world s) ++ [ESetProgress PROGRESS_ID "plugin-install" [id]])
                (set_currentPluginId (Some id) (world s))
     end.
Proof.
  unfold install_operation.
  rewrite (bindI_run _ _ _ _ _ (lift_emit_run _ _)).
  rewrite (bindI_run _ _ _ _ _ (lift_modify_run _ _)).
  rewrite (bindI_run _ _ _ _ _ (modifyI_run _ _)).
  match goal with
  | |- bindI _ _ ?s0 = _ -> _ => set (s3 := s0)
  end.
  assert (W3 : world s3
               = set_trace (trace (world s) ++ [ESetProgress PROGRESS_ID "plugin-install" [id]])
                   (set_currentPluginId (Some id) (world s))) by reflexivity.
  assert (I3 : installationStep s3 = Some "install") by reflexivity.
  assert (V3 : eventsInstalled s3 = eventsInstalled s) by reflexivity.
  assert (C3 : calls s3 = calls s) by reflexivity.
  clearbody s3. unfold bindI at 1.
  match goal with
  | |- context [match ?m s3 with _ => _ end] =>
      pose proof (install_package_only_calls E id s3) as Hpkg;
      destruct (m s3) as [[[]|e|] s4] eqn:H4
  end.
  all: destruct (Hpkg _ _ eq_refl) as (W4 & I4 & V4 & cs4 & C4 & Q4).
  2,3: intros [= <- <-]; (split; [exists cs4; by rewrite C4, C3|]);
       by rewrite I4, V4, W4.
  unfold bindI at 1.
  pose proof (initPrompts_only_calls E id s4) as Hprompts.
  destruct (initPrompts E id s4) as [[[]|e|] s5] eqn:H5.
  all: destruct (Hprompts _ _ eq_refl) as (W5 & I5 & V5 & cs5 & C5 & Q5).
  all: assert (Hcalls : Forall (fun c => is_child_process_call c = false
                                  /\ (mocked E id = true -> is_package_manager_call c = false))
                          (cs4 ++ cs5))
         by (apply Forall_app; split; [done|];
             eapply Forall_impl; [exact Q5|]; by intros c0 [? ?]).
  2,3: intros [= <- <-]; (split; [exists (cs4 ++ cs5); by rewrite C5, C4, C3, <- app_assoc|]);
       by rewrite I5, V5, W5, I4, V4, W4.
  rewrite (bindI_run _ _ _ _ _ (modifyI_run _ _)).
  rewrite (bindI_run _ _ _ _ _ (lift_emit_run _ _)).
  rewrite getInstallation_run. intros [= <- <-].
  split; [exists (cs4 ++ cs5); cbn; by rewrite C5, C4, C3, <- app_assoc|].
  split; [reflexivity|]. split; [reflexivity|]. split; [reflexivity|].
  cbn. rewrite W5, W4, W3. cbn. by rewrite <- app_assoc.
Qed.

End install_runs.

(** X21.  An admitted [install] marks the plugin as the one being
    installed and keeps it marked however it ends.  It resolves only with
    the installation at the step [config], after the notification; when it
    does not resolve (the package manager or the prompts connector failed,
    the debug-mode edit threw, or the prompts function never settled) the
    step stays at [install]: nothing is rolled back, the notification is
    not sent, and [getInstallation] reports the plugin at that step.
    [install] neither lists the plugins again nor resets the plugin API:
    the plugin store, the instances and the working directory are as
    before, and no child process is started. *)
Theorem install_outcome {Ext} (E : InstallEnv Ext) (id : string) (s : InstallState Ext) :
  PROGRESS_ID ∉ progress (world s) ->
  let c := fst (install E id s) in
  let s' := snd (install E id s) in
  (forall r, c = Returns r ->
     r = mkInstallation "plugin-install" (Some id) (Some "config") (prompts_list E (calls s'))
     /\ installationStep s' = Some "config"
     /\ trace (world s')
        = trace (world s) ++ [ESetProgress PROGRESS_ID "plugin-install" [id];
                              ENotify "Plugin installed"])
  /\ ((forall r, c <> Returns r) ->
      installationStep s' = Some "install"
      /\ trace (world s') = trace (world s) ++ [ESetProgress PROGRESS_ID "plugin-install" [id]]
      /\ fst (getInstallation E s')
         = Returns (mkInstallation "plugin-install" (Some id) (Some "install")
                      (prompts_list E (calls s'))))
  /\ currentPluginId (world s') = Some id
  /\ pluginsStore (world s') = pluginsStore (world s)
  /\ pluginApiInstances (world s') = pluginApiInstances (world s)
  /\ cwd (world s') = cwd (world s)
  /\ exists cs, calls s' = calls s ++ cs
                /\ Forall (fun c => is_child_process_call c = false) cs.
Proof.
  intros Hadm c s'. subst c s'. unfold install, progress_wrap_install, progress_begin.
  rewrite decide_False by done.
  destruct (install_operation E id _) as [c s1] eqn:Hrun.
  apply install_operation_run in Hrun as [(cs & Hcs & HQ) Hc].
  cbn [fst snd world calls set_world set_progress installationStep] in *.
  assert (Hcalls : exists cs0, calls s1 = calls s ++ cs0
                     /\ Forall (fun c => is_child_process_call c = false) cs0).
  { exists cs. split; [done|]. eapply Forall_impl; [exact HQ|]. by intros c0 [? _]. }
  destruct c as [r|e|].
  - destruct Hc as (-> & I & V & W). split.
    { intros r [= <-]. unfold installation_of. by rewrite I, W. }
    split; [intros Hno; by destruct (Hno _ eq_refl)|].
    by rewrite W.
  - destruct Hc as (I & V & W). split; [by intros r [=]|]. split.
    { intros _. rewrite getInstallation_run. unfold installation_of.
      cbn [fst world calls set_world installationStep]. by rewrite I, W. }
    by rewrite W.
  - destruct Hc as (I & V & W). split; [by intros r [=]|]. split.
    { intros _. rewrite getInstallation_run. unfold installation_of.
      cbn [fst world calls set_world installationStep]. by rewrite I, W. }
    by rewrite W.
Qed.

(** X21, witness: the package manager fails for a registry plugin. *)
Lemma install_outcome_witness :
  installationStep
    (snd (install (demo_install_env vuedesk_env PromptsThrows false is_package_manager_call)
            "vue-cli-plugin-x" demo_install_state)) = Some "install"
  /\ currentPluginId
       (world (snd (install (demo_install_env vuedesk_env PromptsThrows false
                               is_package_manager_call)
                      "vue-cli-plugin-x" demo_install_state))) = Some "vue-cli-plugin-x".
Proof.
  destruct (install_outcome (demo_install_env vuedesk_env PromptsThrows false
                               is_package_manager_call)
              "vue-cli-plugin-x" demo_install_state ltac:(apply not_elem_of_empty))
    as (_ & Hfail & Hcur & _).
  split; [|exact Hcur]. apply Hfail. intros r. vm_compute. discriminate.
Defined.

Section install_paths.
Context {Ext : Type}.
Implicit Types (s : InstallState Ext) (E : InstallEnv Ext) (w : World Ext).

Lemma bindI_get_state {B} (k : InstallState Ext -> MI Ext B) s :
  bindI get_state k s = k s s.
Proof. reflexivity. Qed.

Lemma set_world_world s : set_world (world s) s = s.
Proof. by destruct s. Qed.



End install_paths.

(** X22.  [install] of a plugin that is not mocked.  When the package
    manager fails, [install] rejects right after that call: the prompts
    connector is not touched.  When it succeeds and the prompts connector
    answers, [install] resolves whatever the prompts module of the plugin
    is: a module that is missing or throws, a value that is not an array
    and a function that throws all end in one warning in place of the
    prompts; only a prompts function that never settles keeps [install]
    from resolving. *)
Theorem install_from_registry {Ext} (E : InstallEnv Ext) (id : string)
    (s : InstallState Ext) :
  PROGRESS_ID ∉ progress (world s) ->
  mocked E id = false ->
  let request := CInstallPackage (cwd (world s)) (getCommand (base E) (cwd (world s))) id in
  let c := fst (install E id s) in
  let s' := snd (install E id s) in
  (call_rejects E request = true ->
     c = Throws (VError "rejected") /\ calls s' = calls s ++ [request])
  /\ (call_rejects E request = false ->
      call_rejects E CPromptsReset = false ->
      call_rejects E CPromptsStart = false ->
      prompts_module_of E id (cwd (world s)) <> PromptsFunction Pending ->
      (exists r, c = Returns r)
      /\ calls s'
         = calls s ++ [request; CPromptsReset]
           ++ prompts_calls id (loaded_prompts (prompts_module_of E id (cwd (world s))))
           ++ [CPromptsStart]).
Proof.
  intros Hadm Hmock request c s'. subst c s'.
  destruct (install E id s) as [c s'] eqn:Hrun. cbn [fst snd].
  unfold install, progress_wrap_install, progress_begin in Hrun.
  rewrite decide_False in Hrun by done. unfold install_operation in Hrun.
  rewrite (bindI_run _ _ _ _ _ (lift_emit_run _ _)) in Hrun.
  rewrite (bindI_run _ _ _ _ _ (lift_modify_run _ _)) in Hrun.
  rewrite (bindI_run _ _ _ _ _ (modifyI_run _ _)) in Hrun.
  rewrite Hmock in Hrun. unfold bindI at 1 in Hrun.
  rewrite bindI_get_state, await_install_call_run in Hrun.
  cbn [world cwd calls set_world set_installationStep set_currentPluginId set_trace
       set_progress] in Hrun.
  fold request in Hrun. destruct (call_rejects E request) eqn:Hrej.
  { injection Hrun as <- <-. split; [done|]. intros [=]. }
  split; [intros [=]|]. intros _ Hreset Hstart Hmod.
  unfold bindI at 1 in Hrun. rewrite initPrompts_run in Hrun by done.
  rewrite (bindI_run _ _ _ _ _ (modifyI_run _ _)) in Hrun.
  rewrite (bindI_run _ _ _ _ _ (lift_emit_run _ _)) in Hrun.
  rewrite getInstallation_run in Hrun. injection Hrun as <- <-.
  split; [by eexists|]. cbn. by rewrite <- !app_assoc.
Qed.

(** X22, witness: a plugin without a prompts module is installed. *)
Lemma install_from_registry_witness :
  calls (snd (install (demo_install_env vuedesk_env PromptsThrows false (fun _ => false))
                "vue-cli-plugin-x" demo_install_state))
  = [CInstallPackage "/ws" "yarn" "vue-cli-plugin-x"; CPromptsReset;
     CConsoleWarn "No prompts found for vue-cli-plugin-x"; CPromptsStart].
Proof.
  destruct (install_from_registry (demo_install_env vuedesk_env PromptsThrows false
                                     (fun _ => false))
              "vue-cli-plugin-x" demo_install_state
              ltac:(apply not_elem_of_empty) eq_refl)
    as (_ & Hok).
  destruct (Hok eq_refl eq_refl eq_refl ltac:(discriminate)) as (_ & Hcalls).
  exact Hcalls.
Defined.



Section uninstall_runs.
Context {Ext : Type}.
Implicit Types (s : InstallState Ext) (E : InstallEnv Ext) (w : World Ext).

(** Every run of the operation of [uninstall]. *)
Lemma uninstall_operation_run E (id : string) s c s1 :
  uninstall_operation E id s = (c, s1) ->
  (exists cs, calls s1 = calls s ++ cs
              /\ Forall (fun c => is_child_process_call c = false
                                  /\ (mocked E id = true -> is_package_manager_call c = false))
                   cs
              /\ (mocked E id = false ->
                  cs = [CUninstallPackage (cwd (world s)) (getCommand (base E) (cwd (world s)))
                          id]
                  /\ (call_rejects E (CUninstallPackage (cwd (world s))
                                        (getCommand (base E) (cwd (world s))) id) = true
                      <-> c = Throws (VError "rejected"))))
  /\ match c with
     | Returns r =>
         r = installation_of E s1
         /\ installationStep s1 = None
         /\ eventsInstalled s1 = true
         /\ world s1
            = set_trace (trace (world s) ++ [ESetProgress PROGRESS_ID "plugin-uninstall" [id];
                                             ENotify "Plugin uninstalled"])
                (set_currentPluginId None (world s))
     | _ =>
         installationStep s1 = Some "uninstall"
         /\ eventsInstalled s1 = eventsInstalled s
         /\ world s1
            = set_trace (trace (world s) ++ [ESetProgress PROGRESS_ID "plugin-uninstall" [id]])
                (set_currentPluginId (Some id) (world s))
     end.
Proof.
  unfold uninstall_operation.
  rewrite (bindI_run _ _ _ _ _ (lift_emit_run _ _)).
  rewrite (bindI_run _ _ _ _ _ (modifyI_run _ _)).
  rewrite (bindI_run _ _ _ _ _ (lift_modify_run _ _)).
  match goal with
  | |- bindI _ _ ?s0 = _ -> _ => set (s3 := s0)
  end.
  assert (W3 : world s3
               = set_trace (trace (world s)
                            ++ [ESetProgress PROGRESS_ID "plugin-uninstall" [id]])
                   (set_currentPluginId (Some id) (world s))) by reflexivity.
  assert (I3 : installationStep s3 = Some "uninstall") by reflexivity.
  assert (V3 : eventsInstalled s3 = eventsInstalled s) by reflexivity.
  assert (C3 : calls s3 = calls s) by reflexivity.
  assert (D3 : cwd (world s3) = cwd (world s)) by reflexivity.
  clearbody s3. unfold bindI at 1.
  match goal with
  | |- context [match ?m s3 with _ => _ end] =>
      pose proof (uninstall_package_only_calls E id s3) as Hpkg;
      assert (Hreal : mocked E id = false ->
                m s3 = (if call_rejects E (CUninstallPackage (cwd (world s))
                                             (getCommand (base E) (cwd (world s))) id)
                        then Throws (VError "rejected") else Returns tt,
                        set_calls (calls s3
                                   ++ [CUninstallPackage (cwd (world s))
                                         (getCommand (base E) (cwd (world s))) id]) s3));
      [|destruct (m s3) as [[[]|e|] s4] eqn:H4]
  end.
  { intros ->. by rewrite bindI_get_state, await_install_call_run, D3. }
  all: destruct (Hpkg _ _ eq_refl) as (W4 & I4 & V4 & cs4 & C4 & Q4).
  all: assert (Hcs : mocked E id = false ->
                 cs4 = [CUninstallPackage (cwd (world s))
                          (getCommand (base E) (cwd (world s))) id])
         by (intros Hm; specialize (Hreal Hm); injection Hreal as _ Hs4;
             rewrite Hs4 in C4; cbn [calls set_calls] in C4;
             by apply app_inv_head in C4).
  2,3: intros [= <- <-];
       (split;
        [exists cs4; split; [by rewrite C4, C3|]; split; [done|]; intros Hm;
         split; [by apply Hcs|]; specialize (Hreal Hm); injection Hreal as Hc _;
         destruct (call_rejects E _); split; congruence
        |by rewrite I4, V4, W4]).
  rewrite (bindI_run _ _ _ _ _ (lift_modify_run _ _)).
  rewrite (bindI_run _ _ _ _ _ (modifyI_run _ _)).
  rewrite (bindI_run _ _ _ _ _ (lift_emit_run _ _)).
  rewrite getInstallation_run. intros [= <- <-].
  split.
  { exists cs4. split; [cbn; by rewrite C4, C3|]. split; [done|]. intros Hm.
    split; [by apply Hcs|]. specialize (Hreal Hm). injection Hreal as Hc _.
    destruct (call_rejects E _); split; congruence. }
  split; [reflexivity|]. split; [reflexivity|]. split; [reflexivity|].
  cbn. rewrite W4, W3. cbn. by rewrite <- app_assoc.
Qed.

End uninstall_runs.

(** X24.  An admitted [uninstall] resolves only with the installation
    cleared (no plugin, no step), after the notification; when it does not
    resolve, the step stays at [uninstall] and the plugin stays marked,
    and the notification is not sent.  For a plugin that is not mocked it
    makes exactly one call, to the package manager, and rejects exactly
    when that call fails.  [uninstall] neither lists the plugins again nor
    resets the plugin API: the plugin store still holds the plugin and
    the instances are as before. *)
Theorem uninstall_outcome {Ext} (E : InstallEnv Ext) (id : string) (s : InstallState Ext) :
  PROGRESS_ID ∉ progress (world s) ->
  let request := CUninstallPackage (cwd (world s)) (getCommand (base E) (cwd (world s))) id in
  let c := fst (uninstall E id s) in
  let s' := snd (uninstall E id s) in
  (forall r, c = Returns r ->
     r = mkInstallation "plugin-install" None None (prompts_list E (calls s'))
     /\ installationStep s' = None
     /\ currentPluginId (world s') = None
     /\ trace (world s')
        = trace (world s) ++ [ESetProgress PROGRESS_ID "plugin-uninstall" [id];
                              ENotify "Plugin uninstalled"])
  /\ ((forall r, c <> Returns r) ->
      installationStep s' = Some "uninstall"
      /\ currentPluginId (world s') = Some id
      /\ trace (world s')
         = trace (world s) ++ [ESetProgress PROGRESS_ID "plugin-uninstall" [id]])
  /\ (mocked E id = false ->
      calls s' = calls s ++ [request]
      /\ (call_rejects E request = true <-> c = Throws (VError "rejected")))
  /\ pluginsStore (world s') = pluginsStore (world s)
  /\ pluginApiInstances (world s') = pluginApiInstances (world s)
  /\ cwd (world s') = cwd (world s).
Proof.
  intros Hadm request c s'. subst c s'.
  unfold uninstall, progress_wrap_install, progress_begin.
  rewrite decide_False by done.
  destruct (uninstall_operation E id _) as [c s1] eqn:Hrun.
  apply uninstall_operation_run in Hrun as [(cs & Hcs & _ & Hreal) Hc].
  cbn [fst snd world calls set_world set_progress installationStep cwd] in *.
  assert (Hcalls : mocked E id = false ->
            calls s1 = calls s ++ [request]
            /\ (call_rejects E request = true <-> c = Throws (VError "rejected"))).
  { intros Hm. destruct (Hreal Hm) as [-> Hiff]. by split. }
  destruct c as [r|e|].
  - destruct Hc as (-> & I & V & W). split.
    { intros r [= <-]. unfold installation_of. by rewrite I, W. }
    split; [intros Hno; by destruct (Hno _ eq_refl)|].
    by rewrite W.
  - destruct Hc as (I & V & W). split; [by intros r [=]|]. by rewrite W.
  - destruct Hc as (I & V & W). split; [by intros r [=]|]. by rewrite W.
Qed.

(** X24, witness: a registry plugin is removed. *)
Lemma uninstall_outcome_witness :
  calls (snd (uninstall (demo_install_env vuedesk_env PromptsThrows false (fun _ => false))
                "vue-cli-plugin-x" demo_install_state))
  = [CUninstallPackage "/ws" "yarn" "vue-cli-plugin-x"]
  /\ pluginsStore
       (world (snd (uninstall (demo_install_env vuedesk_env PromptsThrows false
                                 (fun _ => false))
                      "vue-cli-plugin-x" demo_install_state)))
     = pluginsStore demo_world.
Proof.
  destruct (uninstall_outcome (demo_install_env vuedesk_env PromptsThrows false
                                 (fun _ => false))
              "vue-cli-plugin-x" demo_install_state ltac:(apply not_elem_of_empty))
    as (_ & _ & Hreal & Hstore & _).
  destruct (Hreal eq_refl) as [Hcalls _].
  split; [exact Hcalls | exact Hstore].
Defined.

Section invoke_runs.
Context {Ext : Type}.
Implicit Types (s : InstallState Ext) (E : InstallEnv Ext) (w : World Ext).

(** The output of the child goes to the progress channel and to the
    logs, chunk by chunk. *)
Lemma onData_all_run (texts : list string) s :
  onData_all texts s
  = (Returns tt,
     set_world (set_trace (trace (world s)
                           ++ map (ELogsAdd "info") (List.filter truthy_string texts))
                  (world s))
       (set_calls (calls s ++ map (CSetProgressInfo PROGRESS_ID)
                                (List.filter truthy_string texts)) s)).
Proof.
  revert s. induction texts as [|text texts IH]; intros s.
  - cbn. by rewrite !app_nil_r, set_trace_trace, set_calls_calls, set_world_world.
  - cbn [onData_all List.filter]. unfold bindI at 1. unfold onData.
    destruct (truthy_string text).
    + rewrite (bindI_run _ _ _ _ _ (call_run _ _)), lift_emit_run, IH.
      destruct s as [w st ev cs]. cbn. unfold set_world, set_calls, set_trace. cbn.
      by rewrite <- !app_assoc.
    + cbn [retI]. apply IH.
Qed.

(** Every run of the operation of [runInvoke]. *)
Lemma runInvoke_operation_run E (id : string) s c s1 :
  runInvoke_operation E id s = (c, s1) ->
  let dir := cwd (world s) in
  let cleared := calls s ++ [CClearModule "@vue/cli-service/webpack.config.js" dir] in
  reset_frame dir (set_currentPluginId (Some id) (world s)) (world s1)
  /\ calls s1
     = cleared
       ++ (if resolveModule E (id +:+ "/generator") dir
           then invoke_child E id dir cleared
                :: map (CSetProgressInfo PROGRESS_ID) (child_texts E id)
           else [])
  /\ match c with
     | Returns r =>
         r = installation_of E s1
         /\ installationStep s1 = Some "diff"
         /\ is_Some (getApi dir (world s))
     | _ => installationStep s1 = installationStep s
     end
  /\ (getApi dir (world s) = None ->
      c = Throws TypeError
      \/ (c = Throws (VError "rejected")
          /\ resolveModule E (id +:+ "/generator") dir = true)).
Proof.
  intros Hop dir cleared. unfold runInvoke_operation in Hop.
  rewrite (bindI_run _ _ _ _ _ (lift_emit_run _ _)) in Hop.
  rewrite bindI_get_state in Hop.
  rewrite (bindI_run _ _ _ _ _ (call_run _ _)) in Hop.
  rewrite (bindI_run _ _ _ _ _ (lift_modify_run _ _)) in Hop.
  cbn [world cwd calls set_world set_calls set_trace set_currentPluginId] in Hop.
  fold dir in Hop. fold cleared in Hop.
  match type of Hop with
  | bindI _ _ ?s0 = _ => set (s4 := s0) in Hop
  end.
  (* the generator *)
  unfold bindI at 1 in Hop.
  match type of Hop with
  | match ?m s4 with _ => _ end = _ => set (generator := m) in Hop
  end.
  assert (Hgen : exists c5 s5,
             generator s4 = (c5, s5)
             /\ (c5 = Returns tt
                 \/ (c5 = Throws (VError "rejected")
                     /\ resolveModule E (id +:+ "/generator") dir = true))
             /\ reset_frame dir (set_currentPluginId (Some id) (world s)) (world s5)
             /\ pluginApiInstances (world s5) = pluginApiInstances (world s)
             /\ installationStep s5 = installationStep s
             /\ calls s5
                = cleared
                  ++ (if resolveModule E (id +:+ "/generator") dir
                      then invoke_child E id dir cleared
                           :: map (CSetProgressInfo PROGRESS_ID) (child_texts E id)
                      else [])).
  { unfold generator. destruct (resolveModule E (id +:+ "/generator") dir) eqn:Hg.
    - rewrite bindI_get_state. rewrite (bindI_run _ _ _ _ _ (call_run _ _)).
      rewrite (bindI_run _ _ _ _ _ (onData_all_run _ _)).
      cbn [world cwd calls set_world set_calls set_trace set_currentPluginId s4].
      fold dir. fold (invoke_child E id dir cleared). fold (child_texts E id).
      destruct (call_rejects E (invoke_child E id dir cleared)).
      + eexists _, _. split; [reflexivity|]. split; [by right|].
        cbn. split; [by repeat split|]. split; [done|]. split; [done|].
        by rewrite <- app_assoc.
      + eexists _, _. split; [reflexivity|]. split; [by left|].
        cbn. split; [by repeat split|]. split; [done|]. split; [done|].
        by rewrite <- app_assoc.
    - eexists _, _. split; [reflexivity|]. split; [by left|].
      cbn. split; [by repeat split|]. split; [done|]. split; [done|].
      by rewrite app_nil_r. }
  destruct Hgen as (c5 & s5 & Hrun5 & Hc5 & F5 & A5 & I5 & C5).
  rewrite Hrun5 in Hop. clear generator Hrun5.
  assert (D5 : cwd (world s5) = dir) by (by destruct F5 as (_ & _ & _ & -> & _)).
  assert (G5 : getApi (cwd (world s5)) (world s5) = getApi dir (world s)).
  { unfold getApi. by rewrite D5, A5. }
  destruct Hc5 as [->|[-> Hg]].
  2: { injection Hop as <- <-. split; [exact F5|]. split; [exact C5|].
       split; [exact I5|]. intros _. right. by split. }
  rewrite bindI_get_state, G5, D5 in Hop.
  destruct (getApi dir (world s)) as [pluginApi|] eqn:Hapi.
  2: { injection Hop as <- <-. split; [exact F5|]. split; [exact C5|].
       split; [exact I5|]. intros _. by left. }
  unfold bindI at 1 in Hop. unfold lift at 1 in Hop.
  pose proof (step_runPluginApi dir (reset_frame dir) (fun _ => true)
                (reset_frame_refl dir) (reset_frame_trans dir)
                ltac:(done) ltac:(done) (reset_frame_insert dir) ltac:(done)
                (base E) id (id +:+ "/ui") (api_cwd pluginApi) (world s5)) as Hframe.
  destruct (runPluginApi (base E) id (id +:+ "/ui") dir (api_cwd pluginApi) (world s5))
    as [[[]|e|] w6] eqn:H6.
  all: specialize (Hframe _ _ eq_refl).
  all: pose proof (reset_frame_trans dir _ _ _ F5 Hframe) as F6.
  2,3: injection Hop as <- <-;
       cbn [world calls installationStep set_world];
       (split; [exact F6|]); (split; [exact C5|]); (split; [exact I5|]); by intros [=].
  rewrite (bindI_run _ _ _ _ _ (modifyI_run _ _)) in Hop.
  rewrite (bindI_run _ _ _ _ _ (lift_emit_run _ _)) in Hop.
  rewrite getInstallation_run in Hop. injection Hop as <- <-.
  cbn [world calls installationStep set_world set_eventsInstalled set_installationStep].
  split.
  { eapply reset_frame_trans; [exact F6|]. by repeat split. }
  split; [exact C5|]. split; [|by intros [=]].
  split; [reflexivity|]. split; [reflexivity|]. by eexists.
Qed.

End invoke_runs.



(** X26.  Without an instance for the working directory an admitted
    [runInvoke] never resolves: reading [pluginApi.cwd] throws a
    [TypeError].  This is found out only after the generator of the
    plugin, when it has one, has been run as a child process; the plugin
    stays marked and the step is as before. *)
Theorem runInvoke_without_instance {Ext} (E : InstallEnv Ext) (id : string)
    (s : InstallState Ext) :
  PROGRESS_ID ∉ progress (world s) ->
  getApi (cwd (world s)) (world s) = None ->
  let dir := cwd (world s) in
  let cleared := calls s ++ [CClearModule "@vue/cli-service/webpack.config.js" dir] in
  let c := fst (runInvoke E id s) in
  let s' := snd (runInvoke E id s) in
  (c = Throws TypeError
   \/ (c = Throws (VError "rejected")
       /\ resolveModule E (id +:+ "/generator") dir = true))
  /\ (resolveModule E (id +:+ "/generator") dir = true ->
      In (invoke_child E id dir cleared) (calls s'))
  /\ currentPluginId (world s') = Some id
  /\ installationStep s' = installationStep s.
Proof.
  intros Hadm Hapi dir cleared c s'. subst c s'.
  unfold runInvoke, progress_wrap_install, progress_begin.
  rewrite decide_False by done.
  destruct (runInvoke_operation E id _) as [c s1] eqn:Hrun.
  apply runInvoke_operation_run in Hrun as (F & C & Hc & Hnone).
  cbn [fst snd world calls set_world set_progress installationStep cwd] in *.
  fold dir in F, C, Hc, Hnone. fold cleared in C.
  destruct F as (_ & _ & F3 & _).
  cbn [currentPluginId set_currentPluginId set_progress] in F3.
  assert (Hapi' : getApi dir (set_progress ({[PROGRESS_ID]} ∪ progress (world s)) (world s))
                  = None) by exact Hapi.
  specialize (Hnone Hapi').
  split; [exact Hnone|]. split.
  { intros Hg. rewrite C, Hg. apply in_or_app. right. by left. }
  split; [exact F3|].
  destruct Hnone as [->|[-> _]]; exact Hc.
Qed.

(** X26, witness: no instance is registered for [/ws]. *)
Lemma runInvoke_without_instance_witness :
  fst (runInvoke (demo_install_env vuedesk_env PromptsThrows true (fun _ => false))
         "vue-cli-plugin-x" demo_install_state) = Throws TypeError
  /\ In (CExeca "vue" ["invoke"; "vue-cli-plugin-x"; "--$inlineOptions"; "{}"] "/ws")
       (calls (snd (runInvoke (demo_install_env vuedesk_env PromptsThrows true
                                 (fun _ => false))
                      "vue-cli-plugin-x" demo_install_state))).
Proof.
  destruct (runInvoke_without_instance
              (demo_install_env vuedesk_env PromptsThrows true (fun _ => false))
              "vue-cli-plugin-x" demo_install_state
              ltac:(apply not_elem_of_empty) eq_refl)
    as (Hc & Hchild & _).
  split; [|exact (Hchild eq_refl)].
  destruct Hc as [Hc|[Hc _]]; [exact Hc|].
  exfalso. revert Hc. vm_compute. discriminate.
Defined.

(** X27.  The steps of an installation that goes through: [install]
    resolves at the step [config], a [runInvoke] of the same plugin that
    resolves after it at the step [diff], both with the plugin marked, and
    [finishInstall] then resolves with the plugin and the step cleared,
    making no call of its own.  At the end the progress ids in flight and
    the plugin store are what they were before [install]: the installed
    plugin is not in the store until the plugins are listed again. *)
Theorem install_invoke_finish {Ext} (E : InstallEnv Ext) (id : string)
    (s : InstallState Ext) (r1 r2 : Installation) :
  PROGRESS_ID ∉ progress (world s) ->
  fst (install E id s) = Returns r1 ->
  fst (runInvoke E id (snd (install E id s))) = Returns r2 ->
  let s2 := snd (runInvoke E id (snd (install E id s))) in
  let r3 := fst (finishInstall E s2) in
  let s3 := snd (finishInstall E s2) in
  (pluginId r1, step r1) = (Some id, Some "config")
  /\ (pluginId r2, step r2) = (Some id, Some "diff")
  /\ r3 = Returns (mkInstallation "plugin-install" None None (prompts_list E (calls s2)))
  /\ installationStep s3 = None
  /\ currentPluginId (world s3) = None
  /\ calls s3 = calls s2
  /\ progress (world s3) = progress (world s)
  /\ pluginsStore (world s3) = pluginsStore (world s).
Proof.
  intros Hadm H1 H2 s2 r3 s3. subst r3 s3 s2.
  (* install *)
  destruct (install E id s) as [c1 s1] eqn:R1. cbn [fst snd] in *. subst c1.
  unfold install, progress_wrap_install, progress_begin in R1.
  rewrite decide_False in R1 by done.
  destruct (install_operation E id _) as [c1 s1'] eqn:Hop1. injection R1 as -> <-.
  apply install_operation_run in Hop1 as [_ (-> & I1 & _ & W1)].
  cbn [world set_world set_progress] in W1.
  assert (P1 : progress (world (set_world
                 (set_progress (progress_end PROGRESS_ID (progress (world s1')))
                    (world s1')) s1')) = progress (world s)).
  { rewrite W1. cbn. unfold progress_end. set_solver. }
  assert (S1 : pluginsStore (world (set_world
                 (set_progress (progress_end PROGRESS_ID (progress (world s1')))
                    (world s1')) s1')) = pluginsStore (world s)).
  { by rewrite W1. }
  assert (A1 : (pluginId (installation_of E s1'), step (installation_of E s1'))
               = (Some id, Some "config")).
  { unfold installation_of. cbn [pluginId step]. by rewrite I1, W1. }
  (* runInvoke *)
  match goal with
  | H : fst (runInvoke E id ?s0) = _ |- _ => set (s1 := s0) in *
  end.
  clearbody s1.
  assert (Hadm1 : PROGRESS_ID ∉ progress (world s1)) by (by rewrite P1).
  destruct (runInvoke E id s1) as [c2 s2] eqn:R2. cbn [fst snd] in *. subst c2.
  unfold runInvoke, progress_wrap_install, progress_begin in R2.
  rewrite decide_False in R2 by done.
  destruct (runInvoke_operation E id _) as [c2 s2'] eqn:Hop2. injection R2 as -> <-.
  apply runInvoke_operation_run in Hop2 as (F2 & _ & (-> & I2 & _) & _).
  destruct F2 as (F21 & _ & F23 & _ & F25 & _).
  cbn [world set_world set_progress pluginsStore currentPluginId progress
       set_currentPluginId] in F21, F23, F25.
  (* finishInstall *)
  unfold finishInstall.
  rewrite (bindI_run _ _ _ _ _ (modifyI_run _ _)).
  rewrite (bindI_run _ _ _ _ _ (lift_modify_run _ _)).
  rewrite getInstallation_run.
  cbn [fst snd world calls installationStep set_world set_eventsInstalled
       set_installationStep set_progress set_currentPluginId currentPluginId
       pluginsStore progress].
  split; [exact A1|]. split.
  { unfold installation_of. cbn [pluginId step]. by rewrite I2, F23. }
  split; [reflexivity|]. split; [reflexivity|]. split; [reflexivity|].
  split; [reflexivity|]. split.
  - rewrite F25, <- P1. unfold progress_end. set_solver.
  - by rewrite F21, <- S1.
Qed.

(** X27, witness: install, invoke and finish in a workspace with an
    instance. *)
Lemma install_invoke_finish_witness :
  fst (finishInstall (demo_install_env vuedesk_env PromptsThrows true (fun _ => false))
         (snd (runInvoke (demo_install_env vuedesk_env PromptsThrows true (fun _ => false))
                 "vue-cli-plugin-x"
                 (snd (install (demo_install_env vuedesk_env PromptsThrows true
                                  (fun _ => false))
                         "vue-cli-plugin-x"
                         (mkInstallState demo_world_with_instance None false []))))))
  = Returns (mkInstallation "plugin-install" None None []).
Proof.
  destruct (install_invoke_finish
              (demo_install_env vuedesk_env PromptsThrows true (fun _ => false))
              "vue-cli-plugin-x" (mkInstallState demo_world_with_instance None false [])
              (mkInstallation "plugin-install" (Some "vue-cli-plugin-x") (Some "config") [])
              (mkInstallation "plugin-install" (Some "vue-cli-plugin-x") (Some "diff") [])
              ltac:(apply not_elem_of_empty)
              ltac:(vm_compute; reflexivity) ltac:(vm_compute; reflexivity))
    as (_ & _ & Hfinish & _).
  rewrite Hfinish. vm_compute. reflexivity.
Defined.
